(** * Flight search application: normalisation, fallback, retry and filter/sort

    A shallow embedding of the search-and-normalisation pipeline of the
    flight-search client (TypeScript) and the properties its specification
    states about it.

    Layout: the embedding comes first, one module per source file
    ([Js] for the ECMAScript built-ins the code calls and [Js64] for the
    arithmetic of doubles, then [EnvConfig],
    [ApiStatus], [ApiRetry], [MockFallback], [PriceRange], [ParseDuration],
    [FlightTypes], [ApiTypes], [FlightApi], [SearchContext]); [Props]
    holds the notions the properties are stated with; the theorems
    follow.  Logging through [logger] is a console effect of development
    builds and is left out.

    Numbers.  An ECMAScript number is an IEEE double.  The embedding keeps
    the three non-finite values ([NaN], the two infinities) and represents
    every finite double by the rational it denotes.  The operations of
    [Js] are exact: they are the language's on the whole numbers below
    [2 ^ 53] in size the code counts with (stop counts, status codes,
    minutes, clock readings).  Where a result of the code depends on the
    rounding of a double, on overflow or on underflow (the price range,
    the retry delay), the operations of [Js64] are used, which round
    every result to the nearest double, ties to even.  The sign of zero
    is not represented.  *)

From Stdlib Require Import ZArith QArith Qround Qpower Bool List Lia Lqa.
From Stdlib Require Import Ascii String DecimalString.
From Stdlib Require DecimalPos.
From Stdlib Require Import Permutation Sorted.
Import ListNotations.

Set Implicit Arguments.
Local Open Scope Z_scope.

(* ================================================================== *)
(** * ECMAScript built-ins used by the code                            *)
(* ================================================================== *)

Module Js.

(** ** Numbers *)

Inductive num : Type :=
| NaN : num
| NegInf : num
| PosInf : num
| Fin (q : Q) : num.

Definition of_Z (z : Z) : num := Fin (inject_Z z).

Definition zero : num := of_Z 0.

(** Three-way comparison; [None] when one side is [NaN] (every relational
    operator is then false). *)
Definition cmp (a b : num) : option comparison :=
  match a, b with
  | NaN, _ | _, NaN => None
  | NegInf, NegInf => Some Eq
  | NegInf, _ => Some Lt
  | _, NegInf => Some Gt
  | PosInf, PosInf => Some Eq
  | PosInf, _ => Some Gt
  | _, PosInf => Some Lt
  | Fin x, Fin y => Some (Qcompare x y)
  end.

(** [a < b], [a <= b], [a > b], [a >= b], [a === b]. *)
Definition ltb (a b : num) : bool :=
  match cmp a b with Some Lt => true | _ => false end.
Definition leb (a b : num) : bool :=
  match cmp a b with Some Lt | Some Eq => true | _ => false end.
Definition gtb (a b : num) : bool := ltb b a.
Definition geb (a b : num) : bool := leb b a.
Definition eqb (a b : num) : bool :=
  match cmp a b with Some Eq => true | _ => false end.

(** SameValueZero, the equality of [Array.prototype.includes]: as [===]
    except that [NaN] equals itself. *)
Definition same_value_zero (a b : num) : bool :=
  match a, b with
  | NaN, NaN => true
  | _, _ => eqb a b
  end.

Definition is_nan (a : num) : bool :=
  match a with NaN => true | _ => false end.

(** ToBoolean on a number: false for [NaN] and zero. *)
Definition truthy (a : num) : bool :=
  match a with
  | NaN => false
  | Fin q => negb (Qeq_bool q 0)
  | _ => true
  end.

Definition Qsign (q : Q) : comparison := Qcompare q 0.

Definition neg (a : num) : num :=
  match a with
  | NaN => NaN
  | NegInf => PosInf
  | PosInf => NegInf
  | Fin q => Fin (Qopp q)
  end.

Definition add (a b : num) : num :=
  match a, b with
  | NaN, _ | _, NaN => NaN
  | PosInf, NegInf | NegInf, PosInf => NaN
  | PosInf, _ | _, PosInf => PosInf
  | NegInf, _ | _, NegInf => NegInf
  | Fin x, Fin y => Fin (Qred (x + y))
  end.

Definition sub (a b : num) : num := add a (neg b).

Definition inf_of_sign (c : comparison) : num :=
  match c with Lt => NegInf | Gt => PosInf | Eq => NaN end.

Definition sign_mul (c d : comparison) : comparison :=
  match c, d with
  | Eq, _ | _, Eq => Eq
  | Lt, Lt | Gt, Gt => Gt
  | _, _ => Lt
  end.

Definition sign_of (a : num) : option comparison := cmp a zero.

Definition mul (a b : num) : num :=
  match a, b with
  | NaN, _ | _, NaN => NaN
  | Fin x, Fin y => Fin (Qred (x * y))
  | _, _ =>
      match sign_of a, sign_of b with
      | Some c, Some d => inf_of_sign (sign_mul c d)
      | _, _ => NaN
      end
  end.

(** Division; a zero divisor is taken as [+0]. *)
Definition div (a b : num) : num :=
  match a, b with
  | NaN, _ | _, NaN => NaN
  | Fin x, Fin y =>
      if Qeq_bool y 0 then inf_of_sign (Qsign x) else Fin (Qred (x / y))
  | Fin _, _ => zero
  | _, Fin y =>
      match sign_of a with
      | Some c => inf_of_sign (sign_mul c (if Qeq_bool y 0 then Gt else Qsign y))
      | None => NaN
      end
  | _, _ => NaN
  end.

(** Truncation towards zero of a rational. *)
Definition Qtrunc (q : Q) : Z :=
  if Qle_bool 0 q then Qfloor q else Qceiling q.

(** The remainder operator [%]: the result has the sign of the dividend. *)
Definition rem (a b : num) : num :=
  match a, b with
  | Fin x, Fin y =>
      if Qeq_bool y 0 then NaN
      else Fin (Qred (x - y * inject_Z (Qtrunc (x / y))))
  | Fin x, (PosInf | NegInf) => Fin x
  | _, _ => NaN
  end.

Definition floor (a : num) : num :=
  match a with Fin q => of_Z (Qfloor q) | _ => a end.

Definition ceil (a : num) : num :=
  match a with Fin q => of_Z (Qceiling q) | _ => a end.

(** [Math.max(a, b)] and [Math.min(a, b)]: [NaN] if either argument is. *)
Definition max2 (a b : num) : num :=
  match cmp a b with
  | None => NaN
  | Some Lt => b
  | Some _ => a
  end.

Definition min2 (a b : num) : num :=
  match cmp a b with
  | None => NaN
  | Some Gt => b
  | Some _ => a
  end.

(** [Math.max(...l)] and [Math.min(...l)]; on no argument they are
    [-Infinity] and [Infinity]. *)
Definition max_list (l : list num) : num := fold_left max2 l NegInf.
Definition min_list (l : list num) : num := fold_left min2 l PosInf.

(** [Math.pow(2, n)] for a natural exponent: the powers up to
    [2 ^ 1023] are doubles, the others overflow. *)
Definition pow2 (n : nat) : num :=
  if (n <? 1024)%nat then of_Z (2 ^ Z.of_nat n) else PosInf.

(** ** Strings

    A string is a sequence of code units; the embedding uses the 8-bit
    characters of [string], which covers every literal the code compares
    against. *)

Local Open Scope string_scope.
Local Open Scope Z_scope.

Definition code (c : ascii) : Z := Z.of_nat (nat_of_ascii c).

(** White space recognised by [trim], [\s] and the numeric parsers:
    among the code units below 256, tab, line feed, vertical tab, form
    feed, carriage return, space and the no-break space. *)
Definition is_space (c : ascii) : bool :=
  ((9 <=? code c) && (code c <=? 13)) || (code c =? 32) || (code c =? 160).

Definition is_digit (c : ascii) : bool :=
  (48 <=? code c) && (code c <=? 57).

(** Value of a digit in the given radix, if it is one. *)
Definition digit_of (radix : Z) (c : ascii) : option Z :=
  let n := code c in
  let v :=
    if (48 <=? n) && (n <=? 57) then Some (n - 48)
    else if (97 <=? n) && (n <=? 122) then Some (n - 87)
    else if (65 <=? n) && (n <=? 90) then Some (n - 55)
    else None in
  match v with
  | Some d => if d <? radix then Some d else None
  | None => None
  end.

(** ToBoolean on a string: false exactly for the empty string. *)
Definition str_truthy (s : string) : bool :=
  match s with EmptyString => false | _ => true end.

Fixpoint trim_start (s : string) : string :=
  match s with
  | String c r => if is_space c then trim_start r else s
  | EmptyString => EmptyString
  end.

Fixpoint rev_string (s acc : string) : string :=
  match s with
  | EmptyString => acc
  | String c r => rev_string r (String c acc)
  end.

Definition trim_end (s : string) : string :=
  rev_string (trim_start (rev_string s "")) "".

(** [s.trim()] *)
Definition trim (s : string) : string := trim_end (trim_start s).

(** [s.startsWith(p)], returning the rest of [s] after [p]. *)
Fixpoint strip_prefix (p s : string) : option string :=
  match p, s with
  | EmptyString, _ => Some s
  | String a p', String b s' =>
      if Ascii.eqb a b then strip_prefix p' s' else None
  | String _ _, EmptyString => None
  end.

Definition starts_with (p s : string) : bool :=
  match strip_prefix p s with Some _ => true | None => false end.

(** [s.includes(p)] *)
Fixpoint includes (p s : string) : bool :=
  starts_with p s ||
  match s with
  | EmptyString => false
  | String _ r => includes p r
  end.

(** [s.split(sep)] for a one-character separator; [cur] is the piece
    being read, reversed. *)
Fixpoint split_from (sep : ascii) (s cur : string) : list string :=
  match s with
  | EmptyString => [rev_string cur ""]
  | String c r =>
      if Ascii.eqb c sep then rev_string cur "" :: split_from sep r ""
      else split_from sep r (String c cur)
  end.

Definition split (sep : ascii) (s : string) : list string :=
  split_from sep s "".

(** [l.join(sep)] *)
Fixpoint join (sep : string) (l : list string) : string :=
  match l with
  | [] => ""
  | [x] => x
  | x :: r => (x ++ sep ++ join sep r)%string
  end.

(** Longest run of digits of the radix at the head of [s]: its value on
    top of [acc], its length, and what follows. *)
Fixpoint take_digits (radix : Z) (s : string) (acc : Z) (n : nat)
  : Z * nat * string :=
  match s with
  | String c r =>
      match digit_of radix c with
      | Some d => take_digits radix r (acc * radix + d) (S n)
      | None => (acc, n, s)
      end
  | EmptyString => (acc, n, s)
  end.

(** Decimal rendering of an integer, [String(n)] for integral [n]. *)
Definition Z_to_string (z : Z) : string :=
  NilZero.string_of_int (Z.to_int z).

(** ** Text to number

    [10 ^ e] as a rational. *)
Definition Qpow10 (e : Z) : Q :=
  if 0 <=? e then inject_Z (10 ^ e) else (1 / inject_Z (10 ^ (- e)))%Q.

(** An optional [+] or [-] at the head of [s]: whether it is a minus, and
    what follows. *)
Definition take_sign (s : string) : bool * string :=
  match s with
  | String "-" r => (true, r)
  | String "+" r => (false, r)
  | _ => (false, s)
  end.

(** Exponent part [e[+-]digits] at the head of [s]; absent or without
    digits it is not consumed. *)
Definition take_exponent (s : string) : Z * string :=
  match s with
  | String c r =>
      if Ascii.eqb c "e" || Ascii.eqb c "E" then
        let '(minus, r1) := take_sign r in
        let '(e, n, r2) := take_digits 10 r1 0 0 in
        match n with
        | O => (0, s)
        | S _ => (if minus then - e else e, r2)
        end
      else (0, s)
  | EmptyString => (0, s)
  end.

(** The longest StrUnsignedDecimalLiteral at the head of [s]. *)
Definition parse_unsigned_decimal (s : string) : option (num * string) :=
  match strip_prefix "Infinity" s with
  | Some r => Some (PosInf, r)
  | None =>
      let '(ip, ni, r1) := take_digits 10 s 0 0 in
      let '(fp, nf, r2, dot) :=
        match r1 with
        | String "." r => (take_digits 10 r 0 0, true)
        | _ => (0, O, r1, false)
        end in
      match ni, nf with
      | O, O => None
      | _, _ =>
          let '(e, r3) := take_exponent r2 in
          let m := (inject_Z ip + inject_Z fp / Qpow10 (Z.of_nat nf))%Q in
          Some (Fin (Qred (m * Qpow10 e)), r3)
      end
  end.

(** The longest StrDecimalLiteral (signed) at the head of [s]. *)
Definition parse_decimal (s : string) : option (num * string) :=
  let '(minus, r) := take_sign s in
  match parse_unsigned_decimal r with
  | Some (v, r') => Some (if minus then neg v else v, r')
  | None => None
  end.

(** [parseFloat(s)]: leading white space is skipped, the longest decimal
    literal is read, anything after it is ignored. *)
Definition parseFloat (s : string) : num :=
  match parse_decimal (trim_start s) with
  | Some (v, _) => v
  | None => NaN
  end.

(** An unsigned literal in radix 16, 8 or 2 that fills the whole string. *)
Definition parse_radix_literal (radix : Z) (s : string) : num :=
  match take_digits radix s 0 0 with
  | (v, S _, EmptyString) => of_Z v
  | _ => NaN
  end.

(** [Number(s)]: white space is trimmed at both ends, the empty string is
    [0], and the rest has to be one numeric literal in full. *)
Definition Number (s : string) : num :=
  let t := trim s in
  match t with
  | EmptyString => zero
  | String "0" (String c r) =>
      if Ascii.eqb c "x" || Ascii.eqb c "X" then parse_radix_literal 16 r
      else if Ascii.eqb c "o" || Ascii.eqb c "O" then parse_radix_literal 8 r
      else if Ascii.eqb c "b" || Ascii.eqb c "B" then parse_radix_literal 2 r
      else
        match parse_decimal t with
        | Some (v, EmptyString) => v
        | _ => NaN
        end
  | _ =>
      match parse_decimal t with
      | Some (v, EmptyString) => v
      | _ => NaN
      end
  end.

(** [parseInt(s)] without a radix argument. *)
Definition parseInt (s : string) : num :=
  let '(minus, r) := take_sign (trim_start s) in
  let '(radix, r1) :=
    match r with
    | String "0" (String c r') =>
        if Ascii.eqb c "x" || Ascii.eqb c "X" then (16, r') else (10, r)
    | _ => (10, r)
    end in
  match take_digits radix r1 0 0 with
  | (v, S _, _) => of_Z (if minus then - v else v)
  | _ => NaN
  end.

(** ** Number to text

    Digits after the decimal point by long division, at most [fuel] of
    them. *)
Fixpoint frac_digits (fuel : nat) (r d : Z) : string :=
  match fuel with
  | O => ""
  | S f =>
      if r =? 0 then ""
      else String (ascii_of_nat (Z.to_nat (48 + (r * 10) / d)))
                  (frac_digits f ((r * 10) mod d) d)
  end.

(** A numeral without the zeros at its end. *)
Fixpoint strip_zeros (s : string) : string :=
  match s with
  | EmptyString => EmptyString
  | String c r =>
      match strip_zeros r with
      | EmptyString => if Ascii.eqb c "0" then EmptyString else String c ""
      | r' => String c r'
      end
  end.

(** The exponent notation [d.ddde+x] of the number with the significant
    digits [digits], the first of them of weight [10 ^ e]. *)
Definition exponent_form (digits : string) (e : Z) : string :=
  let mantissa :=
    match strip_zeros digits with
    | EmptyString => "0"
    | String c EmptyString => String c ""
    | String c r => String c (String "." r)
    end in
  append mantissa
    (append (if e <? 0 then "e-" else "e+") (Z_to_string (Z.abs e))).

(** For [0 < r < d], the place of the first digit of [r / d] that is not
    zero, and what is left of [r] there: [r / d = r' / d * 10 ^ - k]
    with [d <= 10 * r']. *)
Fixpoint first_digit (fuel : nat) (k : Z) (r d : Z) : Z * Z :=
  match fuel with
  | O => (k, r)
  | S f => if d <=? r * 10 then (k, r) else first_digit f (k + 1) (r * 10) d
  end.

(** [String(a)], also the conversion inside a template literal.  A number
    from [10 ^ -6] and below [10 ^ 21] in size is printed in positional
    notation, any other in exponent notation.  The digits are those of
    the rational, at most 20 of them after the first that is not zero of
    a fraction; on a double whose shortest decimal is shorter than its
    exact one the language prints the shorter. *)
Definition to_string (a : num) : string :=
  match a with
  | NaN => "NaN"
  | PosInf => "Infinity"
  | NegInf => "-Infinity"
  | Fin q =>
      let q' := Qred q in
      let n := Qnum q' in
      let d := Zpos (Qden q') in
      let r := Z.abs n mod d in
      let whole := Z.abs n / d in
      let body :=
        if 10 ^ 21 <=? whole then
          let numeral := Z_to_string whole in
          exponent_form
            (append numeral (if r =? 0 then "" else frac_digits 20 r d))
            (Z.of_nat (String.length numeral) - 1)
        else if (whole =? 0) && (0 <? r) && (r * 10 ^ 6 <? d) then
          let (k, r') := first_digit 400 1 r d in
          exponent_form (frac_digits 20 r' d) (- k)
        else
          append (Z_to_string whole)
                 (if r =? 0 then "" else String "." (frac_digits 20 r d)) in
      if n <? 0 then String "-" body else body
  end.

(** ** Thrown values

    What a [catch] clause can receive: any value.  The code only looks at
    whether it is an [Error] (or the subclass [TypeError]), at its [name]
    and [message], and at a [status] property that may be missing, present
    but [undefined], or a number. *)

Inductive ErrorClass : Type :=
| NotAnError
| PlainError
| TypeErrorClass.

Inductive StatusProp : Type :=
| StatusMissing
| StatusUndefined
| StatusNum (n : num).

Record Thrown : Type := mkThrown {
  err_class : ErrorClass;
  err_name : string;
  err_message : string;
  err_status : StatusProp
}.

(** [e instanceof Error], [e instanceof TypeError] *)
Definition instanceof_Error (e : Thrown) : bool :=
  match err_class e with NotAnError => false | _ => true end.

Definition instanceof_TypeError (e : Thrown) : bool :=
  match err_class e with TypeErrorClass => true | _ => false end.

(** ['status' in e] *)
Definition has_status (e : Thrown) : bool :=
  match err_status e with StatusMissing => false | _ => true end.

(** The outcome of awaiting a promise or of calling a function. *)
Inductive Outcome (T : Type) : Type :=
| Returned (v : T)
| Threw (e : Thrown).

Arguments Returned {T} v.
Arguments Threw {T} e.

End Js.

(* ================================================================== *)
(** * Double-precision arithmetic                                      *)
(* ================================================================== *)

(** The arithmetic operators of the language on doubles: the exact result
    rounded to the nearest double, a tie going to the double with an even
    significand.  A double is [m * 2 ^ e] with [|m| < 2 ^ 53] and
    [-1074 <= e]; a result of size [2 ^ 1024] or more is an infinity. *)

Module Js64.

(** [2 ^ e] for an exponent of either sign. *)
Definition pow2 (e : Z) : Q := (2 ^ e)%Q.

(** For [a > 0], the exponent [e] with [2 ^ e <= a < 2 ^ (e + 1)]. *)
Definition binade (a : Q) : Z :=
  let e0 := Z.log2 (Qnum a) - Z.log2 (Zpos (Qden a)) in
  if Qle_bool (pow2 e0) a then e0 else e0 - 1.

(** The nearest integer, a tie going to the even one. *)
Definition round_even (x : Q) : Z :=
  let f := Qfloor x in
  match Qcompare (x - inject_Z f) (1 # 2) with
  | Lt => f
  | Gt => f + 1
  | Eq => if Z.even f then f else f + 1
  end.

(** The exponent of the last place of the doubles around [a > 0]:
    53 significant bits, and no exponent below that of the subnormals. *)
Definition quantum (a : Q) : Z := Z.max (binade a - 52) (-1074).

(** The multiple of the quantum nearest to [a > 0]. *)
Definition round_pos (a : Q) : Q :=
  let e := quantum a in
  (inject_Z (round_even (a / pow2 e)) * pow2 e)%Q.

(** The double nearest to a rational. *)
Definition round64 (q : Q) : Js.num :=
  match Qcompare q 0 with
  | Eq => Js.Fin 0
  | Gt =>
      let v := round_pos q in
      if Qle_bool (pow2 1024) v then Js.PosInf else Js.Fin (Qred v)
  | Lt =>
      let v := round_pos (- q) in
      if Qle_bool (pow2 1024) v then Js.NegInf else Js.Fin (Qred (- v))
  end.

Definition rounded (a : Js.num) : Js.num :=
  match a with
  | Js.Fin q => round64 q
  | _ => a
  end.

(** [a + b], [a * b] and [a / b] on doubles. *)
Definition add (a b : Js.num) : Js.num := rounded (Js.add a b).
Definition mul (a b : Js.num) : Js.num := rounded (Js.mul a b).
Definition div (a b : Js.num) : Js.num := rounded (Js.div a b).

End Js64.

(* ================================================================== *)
(** * utils/envConfig.ts                                                *)
(* ================================================================== *)

Module EnvConfig.

Local Open Scope string_scope.

(** [import.meta.env.VITE_RAPIDAPI_KEY || ''], the build-time variable
    being either unset or a string. *)
Definition RAPID_API_KEY (VITE_RAPIDAPI_KEY : option string) : string :=
  match VITE_RAPIDAPI_KEY with
  | Some s => if Js.str_truthy s then s else ""
  | None => ""
  end.

(** [return !!RAPID_API_KEY] *)
Definition isApiConfigured (RAPID_API_KEY : string) : bool :=
  negb (negb (Js.str_truthy RAPID_API_KEY)).

End EnvConfig.

(* ================================================================== *)
(** * utils/apiStatus.ts                                                *)
(* ================================================================== *)

Module ApiStatus.

Local Open Scope string_scope.
Local Open Scope Z_scope.

Inductive ApiConnectionStatus : Type := online | offline | mock.

Record ApiHealthResult : Type := mkHealth {
  status : ApiConnectionStatus;
  message : string;
  timestamp : Z;
  usingMockData : bool;
  apiKeyConfigured : bool
}.

(** The module-level state: the single cache slot.  [fetches] counts the
    calls to [fetch], the way a spy on it would. *)
Record State : Type := mkState {
  cachedHealthCheck : option ApiHealthResult;
  fetches : nat
}.

Definition CACHE_DURATION : Z := 5 * 60 * 1000.

(** [Date.now() - cached.timestamp < CACHE_DURATION], with [now] the
    reading of the clock. *)
Definition isCacheValid (now : Z) (cached : ApiHealthResult) : bool :=
  let age := now - timestamp cached in
  age <? CACHE_DURATION.

(** What [fetch] does when it is called: it resolves with a response
    carrying an HTTP status, or it rejects (network failure, abort after
    the 5 second timeout). *)
Inductive FetchOutcome : Type :=
| Responded (http_status : Z)
| Rejected (e : Js.Thrown).

(** [response.ok] *)
Definition response_ok (http_status : Z) : bool :=
  (200 <=? http_status) && (http_status <=? 299).

(** The test [!skipCache && cachedHealthCheck &&
    isCacheValid(cachedHealthCheck)], with the cached result when it
    holds. *)
Definition cache_hit (skipCache : bool) (now : Z) (st : State)
  : option ApiHealthResult :=
  if negb skipCache then
    match cachedHealthCheck st with
    | Some c => if isCacheValid now c then Some c else None
    | None => None
    end
  else None.

Section WithKey.

Variable RAPID_API_KEY : string.

(** [checkApiHealth(skipCache)].  [timestamp] is the clock reading taken on
    entry, [now] the one taken by [isCacheValid], [net] what the network
    does if it is asked. *)
Definition checkApiHealth (skipCache : bool) (timestamp now : Z)
    (net : FetchOutcome) (st : State) : ApiHealthResult * State :=
  match cache_hit skipCache now st with
  | Some c => (c, st)
  | None =>
      if negb (Js.str_truthy RAPID_API_KEY) || String.eqb (Js.trim RAPID_API_KEY) ""
      then
        let result :=
          mkHealth mock "API key not configured - using mock data"
                   timestamp true false in
        (result, mkState (Some result) (fetches st))
      else
        let asked := S (fetches st) in
        match net with
        | Responded http =>
            if response_ok http then
              let result :=
                mkHealth online "Connected to RapidAPI" timestamp false true in
              (result, mkState (Some result) asked)
            else if http =? 429 then
              (mkHealth offline "Rate limit exceeded - using mock data"
                        timestamp true true,
               mkState (cachedHealthCheck st) asked)
            else
              let result :=
                mkHealth online
                  ("API returned " ++ Js.Z_to_string http ++
                   " - mock data fallback active")
                  timestamp true true in
              (result, mkState (Some result) asked)
        | Rejected _ =>
            let result :=
              mkHealth mock "API unavailable - using mock data"
                       timestamp true true in
            (result, mkState (Some result) asked)
        end
  end.

(** [invalidateHealthCache()] *)
Definition invalidateHealthCache (st : State) : State :=
  mkState None (fetches st).

(** [getCachedHealthStatus()] *)
Definition getCachedHealthStatus (now : Z) (st : State)
  : option ApiHealthResult :=
  match cachedHealthCheck st with
  | Some c => if isCacheValid now c then Some c else None
  | None => None
  end.

(** [return !!RAPID_API_KEY && RAPID_API_KEY.trim() !== ''] *)
Definition isApiKeyConfigured : bool :=
  negb (negb (Js.str_truthy RAPID_API_KEY)) &&
  negb (String.eqb (Js.trim RAPID_API_KEY) "").

(** [return cachedHealthCheck?.usingMockData || !RAPID_API_KEY] *)
Definition isUsingMockData (st : State) : bool :=
  match cachedHealthCheck st with
  | Some c => usingMockData c
  | None => false
  end
  || negb (Js.str_truthy RAPID_API_KEY).

End WithKey.

End ApiStatus.

(* ================================================================== *)
(** * utils/apiRetry.ts                                                 *)
(* ================================================================== *)

Module ApiRetry.

Local Open Scope string_scope.
Local Open Scope Z_scope.

(** [RetryConfig]: every field is optional.  [maxRetries] is an integral
    number; the delays are numbers of milliseconds. *)
Record RetryConfig : Type := mkConfig {
  maxRetries : option Z;
  baseDelay : option Js.num;
  maxDelay : option Js.num;
  retryableStatusCodes : option (list Js.num)
}.

Definition DEFAULT_maxRetries : Z := 2.
Definition DEFAULT_baseDelay : Js.num := Js.of_Z 1000.
Definition DEFAULT_maxDelay : Js.num := Js.of_Z 10000.
Definition DEFAULT_retryableStatusCodes : list Js.num :=
  [Js.of_Z 500; Js.of_Z 502; Js.of_Z 503; Js.of_Z 504].

(** [config = {}] *)
Definition empty_config : RetryConfig := mkConfig None None None None.

(** A destructuring default: the default replaces an absent field. *)
Definition or_default {A : Type} (field : option A) (default : A) : A :=
  match field with Some v => v | None => default end.

(** [isRetryableError(error, retryableStatusCodes)] *)
Definition isRetryableError (error : Js.Thrown)
    (retryableStatusCodes : list Js.num) : bool :=
  if Js.instanceof_TypeError error && Js.includes "fetch" (Js.err_message error)
  then true
  else if Js.instanceof_Error error && Js.has_status error then
    match Js.err_status error with
    | Js.StatusNum status =>
        if Js.geb status (Js.of_Z 400) && Js.leb status (Js.of_Z 403) then false
        else if Js.eqb status (Js.of_Z 429) then false
        else existsb (Js.same_value_zero status) retryableStatusCodes
    | _ => true
    end
  else true.

(** [calculateDelay(attempt, baseDelay, maxDelay)], with [random] the value
    [Math.random()] returns.  The products and the sum are those of
    doubles. *)
Definition calculateDelay (random : Js.num) (attempt : nat)
    (baseDelay maxDelay : Js.num) : Js.num :=
  let exponentialDelay := Js64.mul baseDelay (Js.pow2 attempt) in
  let jitter :=
    Js64.mul (Js64.mul random (Js.Fin (25 # 100))) exponentialDelay in
  let delay := Js64.add exponentialDelay jitter in
  Js.min2 delay maxDelay.

(** The value of [lastError] when it was never assigned. *)
Definition undefined_thrown : Js.Thrown :=
  Js.mkThrown Js.NotAnError "" "" Js.StatusMissing.

Section Retry.

(** [W] is the state the wrapped operation works on, [T] what it
    produces. *)
Variables W T : Type.

(** A run of the executor: the state of the operation, how often the
    operation was invoked, and the delays slept (latest first). *)
Record Run : Type := mkRun {
  world : W;
  calls : nat;
  sleeps : list Js.num
}.

Definition start (w : W) : Run := mkRun w 0 [].

Variable requestFn : W -> Js.Outcome T * W.

(** [Math.random()] as drawn during the given attempt. *)
Variable random : nat -> Js.num.

Variable maxRetries' : Z.
Variables baseDelay' maxDelay' : Js.num.
Variable retryableStatusCodes' : list Js.num.

(** The [for] loop: [remaining] iterations are left before the condition
    [attempt <= maxRetries] fails. *)
Fixpoint retry_loop (remaining attempt : nat) (lastError : Js.Thrown)
    (r : Run) : Js.Outcome T * Run :=
  match remaining with
  | O => (Js.Threw lastError, r)
  | S remaining' =>
      let '(res, w1) := requestFn (world r) in
      let r1 := mkRun w1 (S (calls r)) (sleeps r) in
      match res with
      | Js.Returned v => (Js.Returned v, r1)
      | Js.Threw error =>
          if Z.of_nat attempt >=? maxRetries' then (Js.Threw error, r1)
          else if negb (isRetryableError error retryableStatusCodes')
          then (Js.Threw error, r1)
          else
            let delay :=
              calculateDelay (random attempt) attempt baseDelay' maxDelay' in
            retry_loop remaining' (S attempt) error
                       (mkRun w1 (calls r1) (delay :: sleeps r1))
      end
  end.

End Retry.

(** [apiRequestWithRetry(requestFn, config)] *)
Definition apiRequestWithRetry {W T : Type}
    (requestFn : W -> Js.Outcome T * W) (random : nat -> Js.num)
    (config : RetryConfig) (w : W) : Js.Outcome T * Run W :=
  let maxRetries := or_default (maxRetries config) DEFAULT_maxRetries in
  let baseDelay := or_default (baseDelay config) DEFAULT_baseDelay in
  let maxDelay := or_default (maxDelay config) DEFAULT_maxDelay in
  let retryableStatusCodes :=
    or_default (retryableStatusCodes config) DEFAULT_retryableStatusCodes in
  retry_loop requestFn random maxRetries baseDelay maxDelay
             retryableStatusCodes
             (Z.to_nat (maxRetries + 1)) 0 undefined_thrown (start w).

End ApiRetry.

(* ================================================================== *)
(** * utils/withMockFallback.ts                                         *)
(* ================================================================== *)

Module MockFallback.

Local Open Scope string_scope.

Section WithKey.

Variable RAPID_API_KEY : string.

(** [W] is the state the two callbacks work on. *)
Variables W T : Type.

(** [withMockFallback(apiCall, getMockData, context)].  [getMockData] may
    return a value or a promise; either way its outcome is what the
    [return] statement hands on. *)
Definition withMockFallback
    (apiCall : W -> Js.Outcome T * W)
    (getMockData : W -> Js.Outcome T * W)
    (context : string) (w : W) : Js.Outcome T * W :=
  if negb (Js.str_truthy RAPID_API_KEY) then getMockData w
  else
    match apiCall w with
    | (Js.Returned result, w1) => (Js.Returned result, w1)
    | (Js.Threw error, w1) =>
        if Js.instanceof_Error error &&
           String.eqb (Js.err_name error) "NoApiKeyError"
        then getMockData w1
        else getMockData w1
    end.

(** [withFallback(apiCall, context)]: the fallback value is [null]. *)
Definition withFallback
    (apiCall : W -> Js.Outcome T * W)
    (context : string) (w : W) : Js.Outcome (option T) * W :=
  if negb (Js.str_truthy RAPID_API_KEY) then (Js.Returned None, w)
  else
    match apiCall w with
    | (Js.Returned result, w1) => (Js.Returned (Some result), w1)
    | (Js.Threw _, w1) => (Js.Returned None, w1)
    end.

(** A call-count spy: the wrapped callback also bumps a counter kept next
    to the state; [unobserved] threads the counter through untouched. *)
Definition spy (f : W -> Js.Outcome T * W)
  : nat * W -> Js.Outcome T * (nat * W) :=
  fun '(n, w) => let '(r, w') := f w in (r, (S n, w')).

Definition unobserved (f : W -> Js.Outcome T * W)
  : nat * W -> Js.Outcome T * (nat * W) :=
  fun '(n, w) => let '(r, w') := f w in (r, (n, w')).

End WithKey.

End MockFallback.

(* ================================================================== *)
(** * utils/calculatePriceRange.ts                                      *)
(* ================================================================== *)

Module PriceRange.

Record Range : Type := mkRange {
  min : Js.num;
  max : Js.num
}.

(** [calculatePriceRange(flightPrices)].  The division and the
    multiplication are those of doubles.  The two spread calls pass every
    valid price as an argument; an engine refuses a call with more
    arguments than its stack holds (a [RangeError] on lists of some
    hundred thousand prices), which is left out. *)
Definition calculatePriceRange (flightPrices : list Js.num) : Range :=
  let validPrices := filter (fun p => Js.gtb p Js.zero) flightPrices in
  if Nat.eqb (List.length validPrices) 0 then mkRange Js.zero (Js.of_Z 10000)
  else
    let minPrice := Js.min_list validPrices in
    let maxPrice := Js.max_list validPrices in
    mkRange
      (Js.max2 Js.zero
         (Js64.mul (Js.floor (Js64.div minPrice (Js.of_Z 100)))
                   (Js.of_Z 100)))
      (Js64.mul (Js.ceil (Js64.div maxPrice (Js.of_Z 100))) (Js.of_Z 100)).

End PriceRange.

(* ================================================================== *)
(** * utils/parseDuration.ts                                            *)
(* ================================================================== *)

Module ParseDuration.

Local Open Scope string_scope.

(** The run of characters satisfying [p] at the head of [s], and the
    rest. *)
Fixpoint span (p : ascii -> bool) (s : string) : string * string :=
  match s with
  | String c r =>
      if p c then let '(a, b) := span p r in (String c a, b) else ("", s)
  | EmptyString => ("", s)
  end.

(** The pattern [(\d+)h\s*(\d+)m?] anchored at the head of [s]: the two
    groups.  Each quantifier is greedy and no shorter choice can make the
    rest succeed, so the first try decides. *)
Definition match_here (s : string) : option (string * string) :=
  match span Js.is_digit s with
  | (String c1 g1, String "h" r) =>
      let '(_, r1) := span Js.is_space r in
      match span Js.is_digit r1 with
      | (String c2 g2, _) => Some (String c1 g1, String c2 g2)
      | _ => None
      end
  | _ => None
  end.

(** [duration.match(...)]: the leftmost position where the pattern
    matches. *)
Fixpoint regex_match (s : string) : option (string * string) :=
  match match_here s with
  | Some g => Some g
  | None =>
      match s with
      | String _ r => regex_match r
      | EmptyString => None
      end
  end.

(** [parseDuration(duration)] *)
Definition parseDuration (duration : string) : Js.num :=
  match regex_match duration with
  | Some (g1, g2) =>
      Js.add (Js.mul (Js.parseInt g1) (Js.of_Z 60))
             (Js.parseInt (if Js.str_truthy g2 then g2 else "0"))
  | None => Js.zero
  end.

End ParseDuration.

(* ================================================================== *)
(** * types/flight.ts                                                   *)
(* ================================================================== *)

Module FlightTypes.

Record Baggage : Type := mkBaggage {
  carryOn : option bool;
  checked : option Js.num
}.

Record Layover : Type := mkLayover {
  layover_airport : string;
  layover_duration : string
}.

Record Flight : Type := mkFlight {
  id : string;
  airline : string;
  departureTime : string;
  arrivalTime : string;
  departureAirport : string;
  arrivalAirport : string;
  duration : string;
  stops : Js.num;
  price : Js.num;
  best : option bool;
  aircraft : option string;
  flightNumber : option string;
  cabinClass : option string;
  baggage : option Baggage;
  layover : option (list Layover);
  originSkyId : option string;
  destinationSkyId : option string;
  departureDate : option string;
  returnDate : option string
}.

Record PriceBounds : Type := mkBounds {
  min : Js.num;
  max : Js.num
}.

Record FlightFilters : Type := mkFilters {
  priceRange : PriceBounds;
  filter_stops : list Js.num;
  airlines : list string;
  departureTimes : list string;
  arrivalTimes : list string;
  filter_duration : Js.num
}.

(** ['best' | 'cheapest' | 'fastest' | 'duration' | 'departure'] *)
Inductive SortOption : Type :=
| sort_best
| sort_cheapest
| sort_fastest
| sort_duration
| sort_departure.

End FlightTypes.

(* ================================================================== *)
(** * types/api.ts                                                      *)
(* ================================================================== *)

Module ApiTypes.

(** [number | string] *)
Inductive NumOrStr : Type :=
| VNum (n : Js.num)
| VStr (s : string).

Record Carrier : Type := mkCarrier {
  carrier_name : option string;
  carrier_code : option string
}.

(** The shape of [departure] and [arrival]. *)
Record Endpoint : Type := mkEndpoint {
  time : option string;
  airport : option string;
  date : option string
}.

Record Outbound : Type := mkOutbound {
  outbound_departureTime : option string;
  outbound_arrivalTime : option string
}.

Record Place : Type := mkPlace {
  place_code : option string;
  place_name : option string
}.

Record Segment : Type := mkSegment {
  segment_origin : option Place;
  segment_destination : option Place;
  segment_departure : option Endpoint;
  segment_arrival : option Endpoint;
  segment_airline : option Carrier
}.

Record Journey : Type := mkJourney {
  journey_duration : option string
}.

Record BaggageAllowance : Type := mkAllowance {
  allowance_checked : option Js.num
}.

(** [RawFlightData]: every field is optional; [None] is an absent
    field. *)
Record RawFlightData : Type := mkRaw {
  id : option string;
  legId : option string;
  itineraryId : option string;
  airline : option string;
  carrier : option Carrier;
  carriers : option (list string);
  marketingCarrier : option string;
  departureTime : option string;
  arrivalTime : option string;
  departure : option Endpoint;
  arrival : option Endpoint;
  outbound : option Outbound;
  departureAirport : option string;
  arrivalAirport : option string;
  origin : option string;
  destination : option string;
  segments : option (list Segment);
  duration : option string;
  totalDuration : option string;
  raw_time : option string;
  journey : option Journey;
  price : option NumOrStr;
  amount : option NumOrStr;
  total : option NumOrStr;
  fare : option NumOrStr;
  stops : option Js.num;
  stopsCount : option Js.num;
  best : option bool;
  recommended : option bool;
  isBest : option bool;
  aircraft : option string;
  equipment : option string;
  aircraftType : option string;
  flightNumber : option string;
  number : option string;
  flightNo : option string;
  cabinClass : option string;
  carryOn : option bool;
  checkedBags : option Js.num;
  baggage : option FlightTypes.Baggage;
  baggageAllowance : option BaggageAllowance;
  layover : option (list FlightTypes.Layover);
  layovers : option (list FlightTypes.Layover)
}.

(** A record with no field at all, [{}]. *)
Definition empty_raw : RawFlightData :=
  mkRaw None None None None None None None None None None None None None
        None None None None None None None None None None None None None
        None None None None None None None None None None None None None
        None None None None.

(** A decoded JSON document, the [unknown] an HTTP response body is. *)
#[local] Set Warnings "-register-all".
Inductive JsValue : Type :=
| JUndefined
| JNull
| JBool (b : bool)
| JNumber (n : Js.num)
| JString (s : string)
| JArray (items : list JsValue)
| JObject (props : list (string * JsValue)).

End ApiTypes.

(* ================================================================== *)
(** * services/flightApi.ts                                             *)
(* ================================================================== *)

Module FlightApi.

Import ApiTypes.
Local Open Scope string_scope.

(** ** The operators [||], [??] and [?.] at the types they are used at *)

(** [a || b] with [a] an optional string and [b] a string. *)
Definition str_or (a : option string) (b : string) : string :=
  match a with
  | Some s => if Js.str_truthy s then s else b
  | None => b
  end.

(** [a || b] with both optional strings. *)
Definition ostr_or (a b : option string) : option string :=
  match a with
  | Some s => if Js.str_truthy s then a else b
  | None => b
  end.

(** [a || b] at [number | string]. *)
Definition value_truthy (v : NumOrStr) : bool :=
  match v with
  | VNum n => Js.truthy n
  | VStr s => Js.str_truthy s
  end.

Definition value_or (a : option NumOrStr) (b : NumOrStr) : NumOrStr :=
  match a with
  | Some v => if value_truthy v then v else b
  | None => b
  end.

(** [a || b] at numbers and at booleans. *)
Definition num_or (a : option Js.num) (b : Js.num) : Js.num :=
  match a with
  | Some n => if Js.truthy n then n else b
  | None => b
  end.

Definition bool_or (a : option bool) (b : bool) : bool :=
  match a with
  | Some true => true
  | _ => b
  end.

(** [a ?? b] *)
Definition coalesce {A : Type} (a b : option A) : option A :=
  match a with
  | Some _ => a
  | None => b
  end.

(** [a?.f] *)
Definition opt_get {A B : Type} (a : option A) (f : A -> option B)
  : option B :=
  match a with
  | Some x => f x
  | None => None
  end.

(** [l?.[0]] and [l?.[l?.length - 1]] *)
Definition first_of {A : Type} (l : option (list A)) : option A :=
  opt_get l (fun items => nth_error items 0).

Definition last_of {A : Type} (l : option (list A)) : option A :=
  opt_get l (fun items => nth_error items (List.length items - 1)).

(** [parseFloat(String(v))].  On a number, [String] followed by
    [parseFloat] gives the number back. *)
Definition parseFloat_String (v : NumOrStr) : Js.num :=
  match v with
  | VNum n => n
  | VStr s => Js.parseFloat s
  end.

(** ** [normalizeFlightObject] *)

Record Options : Type := mkOptions {
  index : option Js.num;
  defaultFrom : option string;
  defaultTo : option string;
  originSkyId : option string;
  destinationSkyId : option string;
  departureDate : option string;
  returnDate : option string;
  cabinClass : option string
}.

(** [options = {}] *)
Definition no_options : Options :=
  mkOptions None None None None None None None None.

(** [const [h, m] = t.split(':').map(Number)] followed by [h * 60 + m];
    a missing component is [undefined], which arithmetic reads as [NaN]. *)
Definition clock_minutes (t : string) : Js.num :=
  let parts := map Js.Number (Js.split ":" t) in
  let hour := nth 0 parts Js.NaN in
  let minute := nth 1 parts Js.NaN in
  Js.add (Js.mul hour (Js.of_Z 60)) minute.

(** The body of the [try] block that back-fills the duration. *)
Definition computed_duration (departureTime arrivalTime : string) : string :=
  let depMinutes := clock_minutes departureTime in
  let arrMinutes := clock_minutes arrivalTime in
  let durationMinutes := Js.sub arrMinutes depMinutes in
  let durationMinutes :=
    if Js.ltb durationMinutes Js.zero
    then Js.add durationMinutes (Js.of_Z (24 * 60))
    else durationMinutes in
  let hours := Js.floor (Js.div durationMinutes (Js.of_Z 60)) in
  let minutes := Js.rem durationMinutes (Js.of_Z 60) in
  Js.to_string hours ++ "h " ++ Js.to_string minutes ++ "m".

(** [normalizeFlightObject(flightData, options)]; [now] is the value of
    [Date.now()]. *)
Definition normalizeFlightObject (now : Z) (flightData : RawFlightData)
    (options : Options) : FlightTypes.Flight :=
  let index :=
    match index options with Some i => i | None => Js.zero end in
  let n_id :=
    str_or (id flightData)
      (str_or (legId flightData)
         (str_or (itineraryId flightData)
            ("flight-" ++ Js.to_string index ++ "-" ++ Js.Z_to_string now))) in
  let n_airline :=
    str_or (airline flightData)
      (str_or (opt_get (carrier flightData) carrier_name)
         (str_or (option_map (Js.join ", ") (carriers flightData))
            (str_or (marketingCarrier flightData) "Unknown Airline"))) in
  let n_departureTime :=
    str_or (departureTime flightData)
      (str_or (opt_get (departure flightData) time)
         (str_or (opt_get (opt_get (first_of (segments flightData))
                                   segment_departure) time)
            (str_or (opt_get (outbound flightData) outbound_departureTime)
               ""))) in
  let n_arrivalTime :=
    str_or (arrivalTime flightData)
      (str_or (opt_get (arrival flightData) time)
         (str_or (opt_get (opt_get (last_of (segments flightData))
                                   segment_arrival) time)
            (str_or (opt_get (outbound flightData) outbound_arrivalTime)
               ""))) in
  let n_departureAirport :=
    str_or (departureAirport flightData)
      (str_or (opt_get (departure flightData) airport)
         (str_or (origin flightData)
            (str_or (opt_get (opt_get (first_of (segments flightData))
                                      segment_origin) place_code)
               (str_or (defaultFrom options) "")))) in
  let n_arrivalAirport :=
    str_or (arrivalAirport flightData)
      (str_or (opt_get (arrival flightData) airport)
         (str_or (destination flightData)
            (str_or (opt_get (opt_get (last_of (segments flightData))
                                      segment_destination) place_code)
               (str_or (defaultTo options) "")))) in
  let n_duration :=
    str_or (duration flightData)
      (str_or (totalDuration flightData)
         (str_or (opt_get (journey flightData) journey_duration)
            (str_or (raw_time flightData) ""))) in
  let n_stops :=
    match
      coalesce
        (coalesce
           (coalesce (stops flightData)
              (Some
                 match segments flightData with
                 | Some segs =>
                     Js.max2 Js.zero
                       (Js.sub (Js.of_Z (Z.of_nat (List.length segs)))
                               (Js.of_Z 1))
                 | None => Js.zero
                 end))
           (stopsCount flightData))
        (Some Js.zero)
    with
    | Some n => n
    | None => Js.zero
    end in
  let n_price :=
    parseFloat_String
      (value_or (price flightData)
         (value_or (amount flightData)
            (value_or (total flightData)
               (value_or (fare flightData) (VNum Js.zero))))) in
  let n_best :=
    bool_or (best flightData)
      (bool_or (recommended flightData)
         (bool_or (isBest flightData) false)) in
  let n_baggage :=
    match baggage flightData with
    | Some b => b
    | None =>
        FlightTypes.mkBaggage
          (Some match carryOn flightData with Some c => c | None => true end)
          (Some
             (num_or (checkedBags flightData)
                (num_or (opt_get (baggageAllowance flightData)
                                 allowance_checked)
                   Js.zero)))
    end in
  let normalized_duration :=
    if negb (Js.str_truthy n_duration) && Js.str_truthy n_departureTime
       && Js.str_truthy n_arrivalTime
    then computed_duration n_departureTime n_arrivalTime
    else n_duration in
  FlightTypes.mkFlight
    n_id n_airline n_departureTime n_arrivalTime
    n_departureAirport n_arrivalAirport
    normalized_duration
    n_stops n_price
    (Some n_best)
    (ostr_or (ostr_or (aircraft flightData) (equipment flightData))
             (aircraftType flightData))
    (ostr_or (ostr_or (flightNumber flightData) (number flightData))
             (flightNo flightData))
    (Some (str_or (ApiTypes.cabinClass flightData)
                  (str_or (cabinClass options) "economy")))
    (Some n_baggage)
    (coalesce (layover flightData) (layovers flightData))
    (originSkyId options)
    (destinationSkyId options)
    (departureDate options)
    (returnDate options).

(** ** [normalizeFlightResponse] *)

(** [o.key] on an object. *)
Fixpoint lookup (key : string) (props : list (string * JsValue)) : JsValue :=
  match props with
  | [] => JUndefined
  | (k, v) :: rest => if String.eqb k key then v else lookup key rest
  end.

(** ['key' in o] *)
Definition has_key (key : string) (props : list (string * JsValue)) : bool :=
  existsb (fun kv => String.eqb (fst kv) key) props.

(** [v.key] for a value that is an object or an array; an array has no
    named property of its own. *)
Definition get (key : string) (v : JsValue) : JsValue :=
  match v with
  | JObject props => lookup key props
  | _ => JUndefined
  end.

(** [normalizeFlightResponse(response)] *)
Definition normalizeFlightResponse (response : JsValue) : list JsValue :=
  match response with
  | JArray items => items
  | JObject props =>
      if has_key "data" props then
        let rawData := lookup "data" props in
        match rawData with
        | JObject _ | JArray _ =>
            match get "data" rawData with
            | JArray flights => flights
            | _ =>
                match get "flights" rawData with
                | JArray flights => flights
                | _ =>
                    match rawData with
                    | JArray flights => flights
                    | _ => []
                    end
                end
            end
        | _ => []
        end
      else []
  | _ => []
  end.

End FlightApi.

(* ================================================================== *)
(** * context/SearchContext.tsx                                         *)
(* ================================================================== *)

Module SearchContext.

Import FlightTypes.
Local Open Scope string_scope.

(** ** [Array.prototype.sort]

    The sort is stable.  The comparator returns a number: a positive
    result puts its second argument first, and [NaN] counts as zero.
    [sort] is the insertion sort: [insert] places an element in front of
    an already sorted array, moving it right past the elements it has to
    follow.  It gives the order the language defines whenever the
    comparator is a consistent comparison function for the elements; for
    any other comparator the order depends on the engine, which is a
    parameter of [getFilteredFlightsOn] below. *)

Section Sort.

Variable A : Type.
Variable compareFn : A -> A -> Js.num.

Fixpoint insert (x : A) (l : list A) : list A :=
  match l with
  | [] => [x]
  | y :: r =>
      if Js.gtb (compareFn x y) Js.zero then y :: insert x r
      else x :: y :: r
  end.

Definition sort (l : list A) : list A := fold_right insert [] l.

End Sort.

(** ** The provider's derived view *)

Definition defaultFilters : FlightFilters :=
  mkFilters (mkBounds Js.zero (Js.of_Z 10000)) [] [] [] [] Js.zero.

(** The callback of [some] in the departure and arrival time filters. *)
Definition in_time_range (hour : Js.num) (timeRange : string) : bool :=
  if String.eqb timeRange "morning"
  then Js.geb hour (Js.of_Z 6) && Js.ltb hour (Js.of_Z 12)
  else if String.eqb timeRange "afternoon"
  then Js.geb hour (Js.of_Z 12) && Js.ltb hour (Js.of_Z 18)
  else if String.eqb timeRange "evening"
  then Js.geb hour (Js.of_Z 18) && Js.ltb hour (Js.of_Z 24)
  else if String.eqb timeRange "night"
  then Js.geb hour (Js.of_Z 0) && Js.ltb hour (Js.of_Z 6)
  else false.

(** [parseInt(t.split(':')[0])] *)
Definition hour_of (t : string) : Js.num :=
  Js.parseInt (nth 0 (Js.split ":" t) "").

(** ToBoolean on the optional [best] flag. *)
Definition is_best (f : Flight) : bool :=
  match best f with Some true => true | _ => false end.

(** The three comparators handed to [sort]. *)
Definition compare_cheapest (a b : Flight) : Js.num :=
  Js.sub (price a) (price b).

Definition compare_fastest (a b : Flight) : Js.num :=
  Js.sub (ParseDuration.parseDuration (duration a))
         (ParseDuration.parseDuration (duration b)).

Definition compare_best (a b : Flight) : Js.num :=
  if is_best a && negb (is_best b) then Js.of_Z (-1)
  else if negb (is_best a) && is_best b then Js.of_Z 1
  else if Js.eqb (stops a) Js.zero && Js.gtb (stops b) Js.zero
  then Js.of_Z (-1)
  else if Js.gtb (stops a) Js.zero && Js.eqb (stops b) Js.zero
  then Js.of_Z 1
  else Js.sub (price a) (price b).

(** The filters of [getFilteredFlights], in the order they are applied. *)
Definition apply_filters (flights : list Flight) (filters : FlightFilters)
  : list Flight :=
  let filtered := flights in
  let filtered :=
    filter (fun flight =>
              Js.geb (price flight) (min (priceRange filters)) &&
              Js.leb (price flight) (max (priceRange filters)))
           filtered in
  let filtered :=
    if (0 <? List.length (filter_stops filters))%nat then
      filter (fun flight =>
                existsb (Js.same_value_zero (stops flight))
                        (filter_stops filters))
             filtered
    else filtered in
  let filtered :=
    if (0 <? List.length (airlines filters))%nat then
      filter (fun flight =>
                existsb (String.eqb (airline flight)) (airlines filters))
             filtered
    else filtered in
  let filtered :=
    if (0 <? List.length (departureTimes filters))%nat then
      filter (fun flight =>
                let hour := hour_of (departureTime flight) in
                existsb (in_time_range hour) (departureTimes filters))
             filtered
    else filtered in
  let filtered :=
    if (0 <? List.length (arrivalTimes filters))%nat then
      filter (fun flight =>
                let hour := hour_of (arrivalTime flight) in
                existsb (in_time_range hour) (arrivalTimes filters))
             filtered
    else filtered in
  let filtered :=
    if Js.gtb (filter_duration filters) Js.zero then
      filter (fun flight =>
                Js.leb (ParseDuration.parseDuration (duration flight))
                       (filter_duration filters))
             filtered
    else filtered in
  filtered.

(** [getFilteredFlights()], a function of the three pieces of state it
    closes over. *)
Definition getFilteredFlights (flights : list Flight)
    (filters : FlightFilters) (sortOption : SortOption) : list Flight :=
  if Nat.eqb (List.length flights) 0 then []
  else
    let filtered := apply_filters flights filters in
    match sortOption with
    | sort_cheapest => sort compare_cheapest filtered
    | sort_fastest => sort compare_fastest filtered
    | _ => sort compare_best filtered
    end.

(** ** The derivation over the sort of an engine

    [sort] above is one sorting procedure.  The language fixes the result
    of [Array.prototype.sort] only when the comparator is a consistent
    comparison function for the elements of the array, and leaves the
    order to the engine otherwise.  [getFilteredFlightsOn] is
    [getFilteredFlights] with the sort of the engine as a parameter. *)
Definition EngineSort : Type :=
  forall A : Type, (A -> A -> Js.num) -> list A -> list A.

Definition getFilteredFlightsOn (engine_sort : EngineSort)
    (flights : list Flight) (filters : FlightFilters)
    (sortOption : SortOption) : list Flight :=
  if Nat.eqb (List.length flights) 0 then []
  else
    let filtered := apply_filters flights filters in
    match sortOption with
    | sort_cheapest => engine_sort _ compare_cheapest filtered
    | sort_fastest => engine_sort _ compare_fastest filtered
    | _ => engine_sort _ compare_best filtered
    end.

(** [calculatePriceRangeFromFlights()] *)
Definition calculatePriceRangeFromFlights (flights : list Flight)
  : PriceBounds :=
  if (0 <? List.length flights)%nat then
    let prices := map price flights in
    let r := PriceRange.calculatePriceRange prices in
    mkBounds (PriceRange.min r) (PriceRange.max r)
  else priceRange defaultFilters.

End SearchContext.

(* ================================================================== *)
(** * types/flight.ts, the search parameters                            *)
(* ================================================================== *)

Module SearchParams.

Inductive TripType : Type := round_trip | one_way.

(** [FlightSearchParams]; [return_] is the field [return]. *)
Record FlightSearchParams : Type := mkParams {
  from : string;
  to : string;
  departure : string;
  return_ : option string;
  passengers : string;
  cabinClass : string;
  tripType : TripType;
  originSkyId : option string;
  destinationSkyId : option string;
  originEntityId : option string;
  destinationEntityId : option string;
  adults : option Js.num;
  currency : option string;
  market : option string;
  countryCode : option string;
  locale : option string
}.

End SearchParams.

(* ================================================================== *)
(** * context/SearchContext.tsx, the provider's state and actions       *)
(* ================================================================== *)

Module SearchProvider.

Import FlightTypes.
Local Open Scope string_scope.

(** The six pieces of state the provider holds. *)
Record State : Type := mkState {
  searchParams : option SearchParams.FlightSearchParams;
  flights : list Flight;
  isLoading : bool;
  error : option string;
  filters : FlightFilters;
  sortOption : SortOption
}.

(** The state of a freshly mounted provider. *)
Definition initial : State :=
  mkState None [] false None SearchContext.defaultFilters sort_best.

(** [Partial<FlightFilters>] *)
Record PartialFilters : Type := mkPartial {
  new_priceRange : option PriceBounds;
  new_stops : option (list Js.num);
  new_airlines : option (list string);
  new_departureTimes : option (list string);
  new_arrivalTimes : option (list string);
  new_duration : option Js.num
}.

Definition with_priceRange (prev : FlightFilters) (r : PriceBounds)
  : FlightFilters :=
  mkFilters r (filter_stops prev) (airlines prev) (departureTimes prev)
            (arrivalTimes prev) (filter_duration prev).

(** [performSearch(params)] up to the point where it awaits
    [searchFlights]. *)
Definition performSearch_begin (params : SearchParams.FlightSearchParams)
    (st : State) : State :=
  mkState (Some params) (flights st) true None (filters st) (sortOption st).

(** The rest of [performSearch], with the outcome of [searchFlights]. *)
Definition performSearch_end (outcome : Js.Outcome (list Flight))
    (st : State) : State :=
  let st1 :=
    match outcome with
    | Js.Returned results =>
        let filters1 :=
          if (0 <? List.length results)%nat then
            let prices := map price results in
            let r := PriceRange.calculatePriceRange prices in
            with_priceRange (filters st)
              (mkBounds (PriceRange.min r) (PriceRange.max r))
          else filters st in
        mkState (searchParams st) results (isLoading st) (error st)
                filters1 (sortOption st)
    | Js.Threw err =>
        let errorMessage :=
          if Js.instanceof_Error err then Js.err_message err
          else "Failed to search flights" in
        mkState (searchParams st) [] (isLoading st) (Some errorMessage)
                (filters st) (sortOption st)
    end in
  mkState (searchParams st1) (flights st1) false (error st1)
          (filters st1) (sortOption st1).

Definition performSearch (params : SearchParams.FlightSearchParams)
    (outcome : Js.Outcome (list Flight)) (st : State) : State :=
  performSearch_end outcome (performSearch_begin params st).

(** [setFilters(newFilters)]: [{...prev, ...newFilters}] *)
Definition setFilters (newFilters : PartialFilters) (st : State) : State :=
  let prev := filters st in
  let pick {A : Type} (n : option A) (old : A) : A :=
    match n with Some v => v | None => old end in
  mkState (searchParams st) (flights st) (isLoading st) (error st)
    (mkFilters
       (pick (new_priceRange newFilters) (priceRange prev))
       (pick (new_stops newFilters) (filter_stops prev))
       (pick (new_airlines newFilters) (airlines prev))
       (pick (new_departureTimes newFilters) (departureTimes prev))
       (pick (new_arrivalTimes newFilters) (arrivalTimes prev))
       (pick (new_duration newFilters) (filter_duration prev)))
    (sortOption st).

(** [clearSearch()] *)
Definition clearSearch (st : State) : State :=
  mkState None [] (isLoading st) None SearchContext.defaultFilters sort_best.

(** [clearFilters()] *)
Definition clearFilters (st : State) : State :=
  let priceRange :=
    SearchContext.calculatePriceRangeFromFlights (flights st) in
  mkState (searchParams st) (flights st) (isLoading st) (error st)
    (with_priceRange SearchContext.defaultFilters priceRange)
    sort_best.

(** [filteredFlights], recomputed on every render. *)
Definition filteredFlights (st : State) : list Flight :=
  SearchContext.getFilteredFlights (flights st) (filters st) (sortOption st).

End SearchProvider.


(* ================================================================== *)
(** * Case mapping and letter patterns of ECMAScript strings            *)
(* ================================================================== *)

Module JsText.

Local Open Scope string_scope.
Local Open Scope Z_scope.

Definition is_upper (c : ascii) : bool :=
  (65 <=? Js.code c) && (Js.code c <=? 90).

Definition is_lower (c : ascii) : bool :=
  (97 <=? Js.code c) && (Js.code c <=? 122).

(** [[A-Z]] under the flag [i]: a letter of either case. *)
Definition is_letter (c : ascii) : bool := is_upper c || is_lower c.

(** [\w] *)
Definition is_word (c : ascii) : bool :=
  is_letter c || Js.is_digit c || (Js.code c =? 95).

Definition upper_char (c : ascii) : ascii :=
  if is_lower c then ascii_of_nat (nat_of_ascii c - 32) else c.

Definition lower_char (c : ascii) : ascii :=
  if is_upper c then ascii_of_nat (nat_of_ascii c + 32) else c.

Fixpoint map_string (f : ascii -> ascii) (s : string) : string :=
  match s with
  | EmptyString => EmptyString
  | String c r => String (f c) (map_string f r)
  end.

(** [s.toUpperCase()] and [s.toLowerCase()] on ASCII text: the letters
    [a-z] and [A-Z] change case, every other character of the embedding
    is left as it is. *)
Definition toUpperCase (s : string) : string := map_string upper_char s.
Definition toLowerCase (s : string) : string := map_string lower_char s.

(** [/^[A-Z]{3}$/] with ([ci = true], the flag [i]) or without the flag:
    the string consists of exactly three letters. *)
Definition is_code (ci : bool) (s : string) : bool :=
  let letter := if ci then is_letter else is_upper in
  match s with
  | String a (String b (String c EmptyString)) =>
      letter a && letter b && letter c
  | _ => false
  end.

(** The pattern [\(([A-Z]{3})\)] anchored at the head of [s]: the
    group. *)
Definition paren_code_here (ci : bool) (s : string) : option string :=
  let letter := if ci then is_letter else is_upper in
  match s with
  | String "(" (String a (String b (String c (String ")" _)))) =>
      if letter a && letter b && letter c
      then Some (String a (String b (String c EmptyString)))
      else None
  | _ => None
  end.

(** [s.match(/\(([A-Z]{3})\)/)]: the group of the leftmost match. *)
Fixpoint paren_code (ci : bool) (s : string) : option string :=
  match paren_code_here ci s with
  | Some g => Some g
  | None =>
      match s with
      | String _ r => paren_code ci r
      | EmptyString => None
      end
  end.

End JsText.

(* ================================================================== *)
(** * types/airport.ts and utils/formatAirport.ts                       *)
(* ================================================================== *)

Module FormatAirport.

Local Open Scope string_scope.

Inductive EntityType : Type := AIRPORT | CITY.

Record Airport : Type := mkAirport {
  iata : option string;
  icao : option string;
  skyId : string;
  entityId : string;
  name : string;
  city : string;
  country : string;
  countryCode : option string;
  latitude : option Js.num;
  longitude : option Js.num;
  entityType : option EntityType
}.

(** ToBoolean on an optional string. *)
Definition opt_truthy (s : option string) : bool :=
  match s with Some v => Js.str_truthy v | None => false end.

Definition opt_text (s : option string) : string :=
  match s with Some v => v | None => "" end.

(** [formatAirportDisplay(airport)] *)
Definition formatAirportDisplay (airport : Airport) : string :=
  if opt_truthy (iata airport) && Js.str_truthy (city airport)
  then city airport ++ " (" ++ opt_text (iata airport) ++ ")"
  else if Js.str_truthy (skyId airport)
          && JsText.is_code false (skyId airport)
          && Js.str_truthy (city airport)
  then city airport ++ " (" ++ skyId airport ++ ")"
  else if opt_truthy (iata airport)
  then name airport ++ " (" ++ opt_text (iata airport) ++ ")"
  else city airport ++ ", " ++ country airport.

(** [formatAirportDetail(airport)] *)
Definition formatAirportDetail (airport : Airport) : string :=
  name airport ++ ", " ++ city airport ++ ", " ++ country airport.

(** [formatAirportLocation(airport)] *)
Definition formatAirportLocation (airport : Airport) : string :=
  city airport ++ ", " ++ country airport.

(** [extractIATACode(displayString)] *)
Definition extractIATACode (displayString : string) : string :=
  if negb (Js.str_truthy displayString) then ""
  else
    match JsText.paren_code true displayString with
    | Some code => JsText.toUpperCase code
    | None =>
        if JsText.is_code true displayString
        then JsText.toUpperCase displayString
        else displayString
    end.

End FormatAirport.

(* ================================================================== *)
(** * utils/validation.ts                                               *)
(* ================================================================== *)

Module Validation.

Local Open Scope string_scope.

(** The local helper [extractIATA] of [validateAirports]. *)
Definition extractIATA (str : string) : string :=
  match JsText.paren_code false str with
  | Some code => code
  | None => JsText.toUpperCase (Js.trim str)
  end.

(** [validateAirports(from, to)]: an error message, or [undefined]. *)
Definition validateAirports (from to : string) : option string :=
  let fromCode := extractIATA from in
  let toCode := extractIATA to in
  if String.eqb fromCode toCode
  then Some "Origin and destination must be different"
  else None.

End Validation.


(* ================================================================== *)
(** * utils/handleApiError.ts                                           *)
(* ================================================================== *)

Module HandleApiError.

Local Open Scope string_scope.

(** The [unknown] handed to [handleApiError], as far as the function
    tells values apart: a [Response], an [Error], a string, or anything
    else. *)
Inductive Unknown : Type :=
| IsResponse (status : Js.num) (statusText : string)
| IsError (message : string)
| IsString (s : string)
| IsOther.

(** The next character, if any, is a word character. *)
Definition head_is_word (s : string) : bool :=
  match s with String c _ => JsText.is_word c | EmptyString => false end.

(** The pattern [\b(\d{3})\b] anchored at the head of [s], the character
    before [s] not being a word character: the group. *)
Definition three_digits_here (s : string) : option string :=
  match s with
  | String a (String b (String c r)) =>
      if Js.is_digit a && Js.is_digit b && Js.is_digit c
         && negb (head_is_word r)
      then Some (String a (String b (String c EmptyString)))
      else None
  | _ => None
  end.

(** The leftmost match in [s]; [prev_word] tells whether the character
    before [s] is a word character. *)
Fixpoint status_match_from (prev_word : bool) (s : string) : option string :=
  match s with
  | EmptyString => None
  | String c r =>
      match (if prev_word then None else three_digits_here s) with
      | Some g => Some g
      | None => status_match_from (JsText.is_word c) r
      end
  end.

(** [message.match(/\b(\d{3})\b/)] *)
Definition status_match (message : string) : option string :=
  status_match_from false message.

(** [parseInt(s, 10)] *)
Definition parseInt_10 (s : string) : Js.num :=
  let '(minus, r) := Js.take_sign (Js.trim_start s) in
  match Js.take_digits 10 r 0 0 with
  | (v, S _, _) => Js.of_Z (if minus then (- v)%Z else v)
  | _ => Js.NaN
  end.

(** [getHttpErrorMessage(status, statusText)] *)
Definition getHttpErrorMessage (status : Js.num) (statusText : option string)
  : string :=
  if Js.eqb status (Js.of_Z 400)
  then "Invalid request. Please check your search parameters."
  else if Js.eqb status (Js.of_Z 401)
  then "Authentication failed. Please check your API key."
  else if Js.eqb status (Js.of_Z 403)
  then "Access denied. Please check your API subscription."
  else if Js.eqb status (Js.of_Z 404)
  then "Requested resource not found."
  else if Js.eqb status (Js.of_Z 408)
  then "Request timeout. Please try again."
  else if Js.eqb status (Js.of_Z 429)
  then "Rate limit exceeded. Please wait and retry."
  else if Js.eqb status (Js.of_Z 500)
  then "Server error. Try again later."
  else if Js.eqb status (Js.of_Z 502)
  then "Bad gateway. The server is temporarily unavailable."
  else if Js.eqb status (Js.of_Z 503)
  then "Service unavailable. Please try again later."
  else if Js.eqb status (Js.of_Z 504)
  then "Gateway timeout. Please try again."
  else if FormatAirport.opt_truthy statusText
  then "Error " ++ Js.to_string status ++ ": "
       ++ FormatAirport.opt_text statusText
  else "An error occurred (Status: " ++ Js.to_string status
       ++ "). Please try again.".

(** [handleApiError(error, context)]; the context only labels the log
    lines. *)
Definition handleApiError (error : Unknown) : string :=
  match error with
  | IsResponse status statusText =>
      getHttpErrorMessage status (Some statusText)
  | IsError message =>
      let has := fun p => Js.includes p message in
      if has "fetch" || has "Network"
      then "Network error. Please check your internet connection and try again."
      else if has "timeout" || has "Timeout"
      then "Request timeout. Please try again."
      else if has "abort" || has "Abort"
      then "Request was cancelled. Please try again."
      else
        match status_match message with
        | Some g => getHttpErrorMessage (parseInt_10 g) None
        | None =>
            if has "401" || has "Unauthorized"
            then "Authentication failed. Please check your API key."
            else if has "403" || has "Forbidden"
            then "Access denied. Please check your API subscription."
            else if has "404" || has "Not Found"
            then "Requested resource not found. Please check your search parameters."
            else if has "429" || has "Too Many Requests"
            then "Rate limit exceeded. Please wait and retry."
            else if has "500" || has "Internal Server Error"
            then "Server error. Try again later."
            else if has "502" || has "Bad Gateway"
                    || has "503" || has "Service Unavailable"
            then "Service temporarily unavailable. Please try again later."
            else if Js.str_truthy message
                    && (String.length message <? 150)%nat
                    && negb (has "at ")
            then message
            else "An unexpected error occurred. Please try again later."
        end
  | IsString s =>
      if (String.length s <? 150)%nat then s
      else "An error occurred. Please try again."
  | IsOther => "An unexpected error occurred. Please try again later."
  end.

(** [isNetworkError(error)] *)
Definition isNetworkError (error : Unknown) : bool :=
  match error with
  | IsError message =>
      Js.includes "fetch" message || Js.includes "Network" message
      || Js.includes "network" message
  | _ => false
  end.

End HandleApiError.


(* ================================================================== *)
(** * services/flightApi.ts, the calls to the API and the mock data     *)
(* ================================================================== *)

Module FlightService.

Import FlightTypes.
Local Open Scope string_scope.

(** ** Values of a decoded response *)

(** ToBoolean on a value. *)
Definition value_truthy (v : ApiTypes.JsValue) : bool :=
  match v with
  | ApiTypes.JUndefined | ApiTypes.JNull => false
  | ApiTypes.JBool b => b
  | ApiTypes.JNumber n => Js.truthy n
  | ApiTypes.JString s => Js.str_truthy s
  | ApiTypes.JArray _ | ApiTypes.JObject _ => true
  end.

(** [v.key]; reading a property of [undefined] or of [null] raises a
    [TypeError], which is [None] here. *)
Definition member (key : string) (v : ApiTypes.JsValue)
  : option ApiTypes.JsValue :=
  match v with
  | ApiTypes.JUndefined | ApiTypes.JNull => None
  | _ => Some (FlightApi.get key v)
  end.

(** [l.map(f)] for an [f] that may raise: the first exception ends the
    loop. *)
Fixpoint map_outcome {A B : Type} (f : A -> Js.Outcome B) (l : list A)
  : Js.Outcome (list B) :=
  match l with
  | [] => Js.Returned []
  | x :: r =>
      match f x with
      | Js.Threw e => Js.Threw e
      | Js.Returned y =>
          match map_outcome f r with
          | Js.Threw e => Js.Threw e
          | Js.Returned ys => Js.Returned (y :: ys)
          end
      end
  end.

(** [l.map((x, index) => f(x, index))], the first index being [start]. *)
Fixpoint map_index {A B : Type} (f : A -> nat -> B) (start : nat)
    (l : list A) : list B :=
  match l with
  | [] => []
  | x :: r => f x start :: map_index f (S start) r
  end.

(** [a || b] on two strings. *)
Definition text_or (a b : string) : string :=
  if Js.str_truthy a then a else b.

(** [new Error(message)] *)
Definition new_Error (message : string) : Js.Thrown :=
  Js.mkThrown Js.PlainError "Error" message Js.StatusMissing.

(** ** Mock airports for the search box *)

(** An entry of the two tables of airports: the [iata] and [skyId] are
    the same code and the entity is an airport. *)
Definition table_airport (code entityId name city country : string)
  : FormatAirport.Airport :=
  FormatAirport.mkAirport (Some code) None code entityId name city country
    None None None (Some FormatAirport.AIRPORT).

(** The table [mockAirports] of [getMockAirportsFiltered]. *)
Definition mockAirports : list FormatAirport.Airport :=
  [ table_airport "JFK" "95565058" "John F. Kennedy International"
      "New York" "United States";
    table_airport "LAX" "95565060" "Los Angeles International"
      "Los Angeles" "United States";
    table_airport "LHR" "95565059" "London Heathrow"
      "London" "United Kingdom";
    table_airport "CDG" "95565061" "Charles de Gaulle" "Paris" "France";
    table_airport "NRT" "95565062" "Narita International" "Tokyo" "Japan";
    table_airport "DXB" "95565063" "Dubai International"
      "Dubai" "United Arab Emirates";
    table_airport "SIN" "95565064" "Singapore Changi"
      "Singapore" "Singapore";
    table_airport "FRA" "95565065" "Frankfurt Airport"
      "Frankfurt" "Germany";
    table_airport "ORD" "95565066" "Chicago O'Hare International"
      "Chicago" "United States";
    table_airport "BCN" "95565067" "Barcelona El Prat"
      "Barcelona" "Spain";
    table_airport "MIA" "95565068" "Miami International"
      "Miami" "United States";
    table_airport "SFO" "95565069" "San Francisco International"
      "San Francisco" "United States";
    table_airport "BOS" "95565070" "Boston Logan International"
      "Boston" "United States";
    table_airport "FCO" "95565071" "Rome Fiumicino" "Rome" "Italy" ].

(** [s] has a closing parenthesis. *)
Fixpoint has_close (s : string) : bool :=
  match s with
  | EmptyString => false
  | String c r => Ascii.eqb c ")" || has_close r
  end.

(** [s.replace(/\([^)]*\)/g, '')]: a match starts at an opening
    parenthesis that has a closing one after it and ends at the first
    such; [inside] tells that the scan is within a match. *)
Fixpoint strip_parens (inside : bool) (s : string) : string :=
  match s with
  | EmptyString => EmptyString
  | String c r =>
      if inside then
        if Ascii.eqb c ")" then strip_parens false r
        else strip_parens true r
      else if Ascii.eqb c "(" && has_close r then strip_parens true r
      else String c (strip_parens false r)
  end.

(** The predicate [getMockAirportsFiltered] filters the table with. *)
Definition airport_matches (query : string) (airport : FormatAirport.Airport)
  : bool :=
  let queryLower := Js.trim (JsText.toLowerCase query) in
  let extractedIATA :=
    option_map JsText.toUpperCase (JsText.paren_code true query) in
  let cityName :=
    JsText.toLowerCase (Js.trim (strip_parens false query)) in
  (match extractedIATA, FormatAirport.iata airport with
   | Some code, Some iata =>
       Js.str_truthy code && String.eqb (JsText.toUpperCase iata) code
   | _, _ => false
   end)
  || (Js.str_truthy cityName
      && Js.includes cityName (JsText.toLowerCase (FormatAirport.city airport)))
  || Js.includes (JsText.toLowerCase (FormatAirport.city airport)) queryLower
  || Js.includes queryLower (JsText.toLowerCase (FormatAirport.name airport))
  || (match FormatAirport.iata airport with
      | Some iata =>
          Js.str_truthy iata
          && Js.includes (JsText.toLowerCase iata) queryLower
      | None => false
      end)
  || Js.includes queryLower
       (JsText.toLowerCase (FormatAirport.country airport)).

(** [getMockAirportsFiltered(query)] *)
Definition getMockAirportsFiltered (query : string)
  : list FormatAirport.Airport :=
  filter (airport_matches query) mockAirports.

(** ** [searchAirport] and [testApiConnectivity] *)

Record ConnectivityResult : Type := mkConnectivity {
  success : bool;
  test_message : string;
  test_timestamp : Z
}.

Section SearchAirport.

Variable RAPID_API_KEY : string.

(** The state the requests work on. *)
Variable W : Type.

(** [apiRequest('/v1/flights/searchAirport', {query, locale: 'en-US'})]
    as a function of the query. *)
Variable airport_request : string -> W -> Js.Outcome ApiTypes.JsValue * W.

(** [convertSkyScrapperAirport(item)]; it reads properties of parts of
    the item and so may raise. *)
Variable convertSkyScrapperAirport :
  ApiTypes.JsValue -> Js.Outcome FormatAirport.Airport.

(** The [TypeError] of reading a property of [undefined] or [null]. *)
Variable type_error : Js.Thrown.

(** The callback [searchAirport] hands to [withMockFallback] as
    [apiCall]. *)
Definition searchAirport_apiCall (query : string) (w : W)
  : Js.Outcome (list FormatAirport.Airport) * W :=
  match airport_request (Js.trim query) w with
  | (Js.Threw e, w1) => (Js.Threw e, w1)
  | (Js.Returned response, w1) =>
      match member "data" response with
      | None => (Js.Threw type_error, w1)
      | Some (ApiTypes.JArray (item :: items)) =>
          (map_outcome convertSkyScrapperAirport (item :: items), w1)
      | Some _ => (Js.Threw (new_Error "Empty API response"), w1)
      end
  end.

(** [searchAirport(query)] *)
Definition searchAirport (query : string) (w : W)
  : Js.Outcome (list FormatAirport.Airport) * W :=
  if negb (Js.str_truthy query)
     || (String.length (Js.trim query) =? 0)%nat
  then (Js.Returned [], w)
  else
    MockFallback.withMockFallback RAPID_API_KEY
      (searchAirport_apiCall query)
      (fun w1 => (Js.Returned (getMockAirportsFiltered query), w1))
      "searchAirport" w.

(** [testApiConnectivity()]; [timestamp] is the reading of the clock on
    entry. *)
Definition testApiConnectivity (timestamp : Z) (w : W)
  : ConnectivityResult * W :=
  match searchAirport "JFK" w with
  | (Js.Returned results, w1) =>
      if (0 <? List.length results)%nat
      then (mkConnectivity true
              ("API is working! Found "
               ++ Js.to_string (Js.of_Z (Z.of_nat (List.length results)))
               ++ " results for JFK.")
              timestamp, w1)
      else (mkConnectivity false
              "API returned no results. Check API key or try again later."
              timestamp, w1)
  | (Js.Threw error, w1) =>
      (mkConnectivity false
         (if Js.instanceof_Error error then Js.err_message error
          else "API test failed")
         timestamp, w1)
  end.

End SearchAirport.

(** ** Mock flights of a search *)

Inductive FallbackId : Type := id_mock | id_fallback.

Definition fallback_text (fallbackId : FallbackId) : string :=
  match fallbackId with id_mock => "mock" | id_fallback => "fallback" end.

(** [params.tripType === 'round-trip' && params.return ? params.return
    : undefined] *)
Definition return_date (params : SearchParams.FlightSearchParams)
  : option string :=
  match SearchParams.tripType params with
  | SearchParams.round_trip =>
      if FormatAirport.opt_truthy (SearchParams.return_ params)
      then SearchParams.return_ params else None
  | SearchParams.one_way => None
  end.

(** [getFilteredMockFlights(params, fallbackId)] from the point where
    its dynamic import of the module [data/flights] has been fulfilled;
    [mockFlights] is the list the module exports.  The import itself is
    part of [searchFlights] below. *)
Definition getFilteredMockFlights (mockFlights : list Flight)
    (params : SearchParams.FlightSearchParams) (fallbackId : FallbackId)
  : list Flight :=
  let originIATA :=
    FormatAirport.extractIATACode
      (text_or (SearchParams.from params)
         (FlightApi.str_or (SearchParams.originSkyId params) "")) in
  let destIATA :=
    FormatAirport.extractIATACode
      (text_or (SearchParams.to params)
         (FlightApi.str_or (SearchParams.destinationSkyId params) "")) in
  let filteredFlights :=
    if Js.str_truthy originIATA && Js.str_truthy destIATA
    then filter (fun flight =>
                   String.eqb (departureAirport flight) originIATA
                   && String.eqb (arrivalAirport flight) destIATA)
                mockFlights
    else mockFlights in
  map_index
    (fun flight index =>
       mkFlight
         (text_or (id flight)
            (fallback_text fallbackId ++ "-flight-"
             ++ Js.to_string (Js.of_Z (Z.of_nat index))))
         (airline flight) (departureTime flight) (arrivalTime flight)
         (departureAirport flight) (arrivalAirport flight)
         (duration flight) (stops flight) (price flight) (best flight)
         (aircraft flight) (flightNumber flight) (cabinClass flight)
         (baggage flight) (layover flight)
         (SearchParams.originSkyId params)
         (SearchParams.destinationSkyId params)
         (Some (SearchParams.departure params))
         (return_date params))
    0 filteredFlights.

(** ** [searchFlights] *)

(** One of the four identifiers the API needs is missing. *)
Definition missing_ids (params : SearchParams.FlightSearchParams) : bool :=
  negb (FormatAirport.opt_truthy (SearchParams.originSkyId params))
  || negb (FormatAirport.opt_truthy (SearchParams.destinationSkyId params))
  || negb (FormatAirport.opt_truthy (SearchParams.originEntityId params))
  || negb (FormatAirport.opt_truthy
             (SearchParams.destinationEntityId params)).

Definition missing_parameters_message : string :=
  "Missing required parameters: originSkyId, destinationSkyId, originEntityId, destinationEntityId. Please select airports from autocomplete.".

Section SearchFlights.

Variable RAPID_API_KEY : string.
Variable W : Type.

(** [import('../data/flights')] awaited: the list [mockFlights] the
    module exports, or the error the import is rejected with when the
    module cannot be loaded. *)
Variable import_flights : W -> Js.Outcome (list Flight) * W.

(** [apiRequest('/v2/flights/searchFlightsComplete', requestParams)], the
    request parameters being computed from [params]. *)
Variable search_request :
  SearchParams.FlightSearchParams -> W -> Js.Outcome ApiTypes.JsValue * W.

(** A raw record of the response, read as [RawFlightData]. *)
Variable as_raw : ApiTypes.JsValue -> ApiTypes.RawFlightData.

(** The reading of the clock while the record of a given index is
    converted. *)
Variable clock : nat -> Z.

(** [getFilteredMockFlights(params, fallbackId)] as [searchFlights]
    awaits it: the import is outside any [try], so the promise is
    rejected with the error of the import when the import is. *)
Definition awaitFilteredMockFlights
    (params : SearchParams.FlightSearchParams) (fallbackId : FallbackId)
    (w : W) : Js.Outcome (list Flight) * W :=
  match import_flights w with
  | (Js.Returned mockFlights, w1) =>
      (Js.Returned (getFilteredMockFlights mockFlights params fallbackId),
       w1)
  | (Js.Threw e, w1) => (Js.Threw e, w1)
  end.

(** [searchFlights(params)] *)
Definition searchFlights (params : SearchParams.FlightSearchParams) (w : W)
  : Js.Outcome (list Flight) * W :=
  if negb (Js.str_truthy RAPID_API_KEY)
  then awaitFilteredMockFlights params id_mock w
  else if missing_ids params then
    if Js.str_truthy (SearchParams.from params)
       && Js.str_truthy (SearchParams.to params)
    then awaitFilteredMockFlights params id_mock w
    else (Js.Threw (new_Error missing_parameters_message), w)
  else
    match search_request params w with
    | (Js.Returned response, w1) =>
        match FlightApi.normalizeFlightResponse response with
        | [] => awaitFilteredMockFlights params id_fallback w1
        | rawFlights =>
            (Js.Returned
               (map_index
                  (fun flight index =>
                     FlightApi.normalizeFlightObject (clock index)
                       (as_raw flight)
                       (FlightApi.mkOptions
                          (Some (Js.of_Z (Z.of_nat index)))
                          (Some (SearchParams.from params))
                          (Some (SearchParams.to params))
                          (SearchParams.originSkyId params)
                          (SearchParams.destinationSkyId params)
                          (Some (SearchParams.departure params))
                          (return_date params)
                          (Some (SearchParams.cabinClass params))))
                  0 rawFlights), w1)
        end
    | (Js.Threw _, w1) => awaitFilteredMockFlights params id_fallback w1
    end.

End SearchFlights.

(** ** Airports near a position *)

(** The table [mockAirports] of [getMockNearbyAirports]. *)
Definition nearbyAirports : list FormatAirport.Airport :=
  [ table_airport "JFK" "95565058" "John F. Kennedy International"
      "New York" "United States";
    table_airport "LGA" "95565066" "LaGuardia Airport"
      "New York" "United States";
    table_airport "EWR" "95565067" "Newark Liberty International"
      "Newark" "United States";
    table_airport "LAX" "95565060" "Los Angeles International"
      "Los Angeles" "United States";
    table_airport "SNA" "95565068" "John Wayne Airport"
      "Santa Ana" "United States";
    table_airport "BUR" "95565069" "Bob Hope Airport"
      "Burbank" "United States";
    table_airport "LHR" "95565059" "London Heathrow"
      "London" "United Kingdom";
    table_airport "LGW" "95565070" "London Gatwick"
      "London" "United Kingdom";
    table_airport "STN" "95565071" "London Stansted"
      "London" "United Kingdom";
    table_airport "CDG" "95565061" "Charles de Gaulle" "Paris" "France";
    table_airport "ORY" "95565072" "Paris Orly" "Paris" "France" ].

(** [lo <= x && x <= hi] *)
Definition between (lo hi : Z) (x : Js.num) : bool :=
  Js.geb x (Js.of_Z lo) && Js.leb x (Js.of_Z hi).

(** [mockAirports.filter(airport => codes.includes(airport.iata || ''))] *)
Definition airports_of (codes : list string) : list FormatAirport.Airport :=
  filter (fun airport =>
            existsb (String.eqb (FlightApi.str_or (FormatAirport.iata airport) ""))
                    codes)
         nearbyAirports.

(** [getMockNearbyAirports(lat, lng)] *)
Definition getMockNearbyAirports (lat lng : Js.num)
  : list FormatAirport.Airport :=
  if between 40 42 lat && between (-75) (-73) lng
  then airports_of ["JFK"; "LGA"; "EWR"]
  else if between 33 35 lat && between (-119) (-117) lng
  then airports_of ["LAX"; "SNA"; "BUR"]
  else if between 51 52 lat && between (-1) 1 lng
  then airports_of ["LHR"; "LGW"; "STN"]
  else if between 48 49 lat && between 2 3 lng
  then airports_of ["CDG"; "ORY"]
  else firstn 3 nearbyAirports.

Section NearByAirports.

Variable RAPID_API_KEY : string.
Variable W : Type.

(** [apiRequest('/v1/flights/getNearByAirports', {lat: lat.toString(),
    lng: lng.toString(), locale: 'en-US'})] as a function of the two
    coordinates. *)
Variable nearby_request :
  Js.num -> Js.num -> W -> Js.Outcome ApiTypes.JsValue * W.

Variable convertSkyScrapperAirport :
  ApiTypes.JsValue -> Js.Outcome FormatAirport.Airport.

Variable type_error : Js.Thrown.

(** The airports read out of the response: the current one, then the
    nearby ones. *)
Definition airports_of_response (response : ApiTypes.JsValue)
  : Js.Outcome (list FormatAirport.Airport) :=
  match member "data" response with
  | None => Js.Threw type_error
  | Some data =>
      if value_truthy data then
        let current := FlightApi.get "current" data in
        let first :=
          if value_truthy current
          then match convertSkyScrapperAirport current with
               | Js.Returned a => Js.Returned [a]
               | Js.Threw e => Js.Threw e
               end
          else Js.Returned [] in
        match first with
        | Js.Threw e => Js.Threw e
        | Js.Returned airports =>
            match FlightApi.get "nearby" data with
            | ApiTypes.JArray items =>
                match map_outcome convertSkyScrapperAirport items with
                | Js.Returned more => Js.Returned (airports ++ more)%list
                | Js.Threw e => Js.Threw e
                end
            | _ => Js.Returned airports
            end
        end
      else Js.Returned []
  end.

(** The callback [getNearByAirports] hands to [withMockFallback] as
    [apiCall]. *)
Definition getNearByAirports_apiCall (lat lng : Js.num) (w : W)
  : Js.Outcome (list FormatAirport.Airport) * W :=
  match nearby_request lat lng w with
  | (Js.Threw e, w1) => (Js.Threw e, w1)
  | (Js.Returned response, w1) =>
      match airports_of_response response with
      | Js.Threw e => (Js.Threw e, w1)
      | Js.Returned [] =>
          (Js.Threw (new_Error "No airports returned from API"), w1)
      | Js.Returned airports => (Js.Returned airports, w1)
      end
  end.

(** [getNearByAirports(lat, lng)]; both arguments are numbers, so the
    [typeof] test passes. *)
Definition getNearByAirports (lat lng : Js.num) (w : W)
  : Js.Outcome (list FormatAirport.Airport) * W :=
  if Js.ltb lat (Js.of_Z (-90)) || Js.gtb lat (Js.of_Z 90)
  then (Js.Threw (new_Error "Latitude must be between -90 and 90"), w)
  else if Js.ltb lng (Js.of_Z (-180)) || Js.gtb lng (Js.of_Z 180)
  then (Js.Threw (new_Error "Longitude must be between -180 and 180"), w)
  else
    MockFallback.withMockFallback RAPID_API_KEY
      (getNearByAirports_apiCall lat lng)
      (fun w1 => (Js.Returned (getMockNearbyAirports lat lng), w1))
      "getNearByAirports" w.

End NearByAirports.

(** ** [checkServer] *)

Record HealthStatus : Type := mkHealthStatus {
  isOnline : bool;
  health_timestamp : Z;
  health_message : option string
}.

(** [error instanceof Error && 'status' in error && error.status === 429] *)
Definition isRateLimit (error : Js.Thrown) : bool :=
  Js.instanceof_Error error && Js.has_status error
  && match Js.err_status error with
     | Js.StatusNum n => Js.eqb n (Js.of_Z 429)
     | _ => false
     end.

Section CheckServer.

Variable RAPID_API_KEY : string.
Variable W : Type.

(** [apiRequest('/v1/flights/searchAirport', {query: 'JFK', locale:
    'en-US'})] *)
Variable health_request : W -> Js.Outcome ApiTypes.JsValue * W.

(** [checkServer()]; [timestamp] is the reading of the clock on entry. *)
Definition checkServer (timestamp : Z) (w : W) : HealthStatus * W :=
  if negb (Js.str_truthy RAPID_API_KEY)
  then (mkHealthStatus false timestamp (Some "API key not configured"), w)
  else
    match health_request w with
    | (Js.Returned _, w1) =>
        (mkHealthStatus true timestamp (Some "Server is online"), w1)
    | (Js.Threw error, w1) =>
        if isRateLimit error
        then (mkHealthStatus false timestamp
                (Some "Rate limit exceeded (429), using mock data - health checks paused"),
              w1)
        else (mkHealthStatus true timestamp
                (Some "API slow or unavailable, using mock data"), w1)
    end.

End CheckServer.

End FlightService.

(* ================================================================== *)
(** * context/AppStatusContext.tsx                                      *)
(* ================================================================== *)

(** The provider that polls [checkServer]. *)
Module AppStatusContext.

Local Open Scope string_scope.

(** The test of the interval callback: the health is offline because of a
    rate limit. *)
Definition rate_limited (currentHealth : FlightService.HealthStatus) : bool :=
  negb (FlightService.isOnline currentHealth)
  && match FlightService.health_message currentHealth with
     | Some message =>
         Js.str_truthy message
         && (Js.includes "Rate limit exceeded" message
             || Js.includes "429" message)
     | None => false
     end.

Section Provider.

Variable RAPID_API_KEY : string.
Variable W : Type.
Variable health_request : W -> Js.Outcome ApiTypes.JsValue * W.

(** [refreshHealth()], carried through to the [setHealth] that ends it;
    [now] is the reading of the clock. *)
Definition refreshHealth (now : Z) (w : W) : FlightService.HealthStatus * W :=
  FlightService.checkServer RAPID_API_KEY health_request now w.

(** One firing of the 30 minute interval, on the health the provider
    holds; a check that a firing starts is taken to have set the health
    before the next firing. *)
Definition interval_tick (now : Z)
    (state : FlightService.HealthStatus * W)
  : FlightService.HealthStatus * W :=
  let '(currentHealth, w) := state in
  if rate_limited currentHealth then (currentHealth, w)
  else refreshHealth now w.

(** The firings at the given clock readings, in order. *)
Fixpoint interval_ticks (nows : list Z)
    (state : FlightService.HealthStatus * W)
  : FlightService.HealthStatus * W :=
  match nows with
  | [] => state
  | now :: later => interval_ticks later (interval_tick now state)
  end.

End Provider.

End AppStatusContext.

(** The provider that asks [checkApiHealth]. *)
Module AppStatusContextCached.

Record State : Type := mkState {
  health : FlightService.HealthStatus;
  connectionStatus : ApiStatus.ApiConnectionStatus
}.

(** [refreshHealth()]: the result of [checkApiHealth()] mapped to the
    health the provider holds. *)
Definition refreshHealth (RAPID_API_KEY : string) (timestamp now : Z)
    (net : ApiStatus.FetchOutcome) (st : ApiStatus.State)
  : State * ApiStatus.State :=
  let '(result, st1) :=
    ApiStatus.checkApiHealth RAPID_API_KEY false timestamp now net st in
  (mkState
     (FlightService.mkHealthStatus
        (match ApiStatus.status result with
         | ApiStatus.online | ApiStatus.mock => true
         | ApiStatus.offline => false
         end)
        (ApiStatus.timestamp result)
        (Some (ApiStatus.message result)))
     (ApiStatus.status result),
   st1).

End AppStatusContextCached.


(* ================================================================== *)
(** * services/flightApi.ts, [apiRequest]                               *)
(* ================================================================== *)

Module ApiRequest.

Local Open Scope string_scope.

(** What the code reads of a [Response]: the status, the status text and
    the outcome of [response.json()]. *)
Record Response : Type := mkResponse {
  http_status : Z;
  statusText : string;
  json : Js.Outcome ApiTypes.JsValue
}.

(** What [fetch] does: it resolves with a response or it rejects. *)
Inductive Fetched : Type :=
| Fulfilled (response : Response)
| Rejected (e : Js.Thrown).

(** The error thrown when no key is configured. *)
Definition no_api_key_error : Js.Thrown :=
  Js.mkThrown Js.PlainError "NoApiKeyError"
    "API key is not configured. Please set VITE_RAPIDAPI_KEY in your .env file. The app will use mock data for development."
    Js.StatusMissing.

(** [await response.json().catch(() => ({}))] *)
Definition errorData (response : Response) : ApiTypes.JsValue :=
  match json response with
  | Js.Returned v => v
  | Js.Threw _ => ApiTypes.JObject []
  end.

Section WithKey.

Variable RAPID_API_KEY : string.

(** The state [fetch] works on. *)
Variable W : Type.

(** [fetch(url.toString(), {method: 'GET', headers})] for the URL of the
    request. *)
Variable fetch : W -> Fetched * W.

(** [Math.random()] as drawn during the given attempt. *)
Variable random : nat -> Js.num.

(** [String(v)] for a value that is not a string. *)
Variable to_text : ApiTypes.JsValue -> string.

(** The [TypeError] of reading a property of [undefined] or [null]. *)
Variable type_error : Js.Thrown.

(** What a thrown value that is not an [Error] is to [handleApiError]. *)
Variable non_error : Js.Thrown -> HandleApiError.Unknown.

(** [new Error(message)] for a truthy [message] of any type. *)
Definition message_text (message : ApiTypes.JsValue) : string :=
  match message with
  | ApiTypes.JString s => s
  | _ => to_text message
  end.

(** The operation handed to [apiRequestWithRetry]. *)
Definition requestFn (w : W) : Js.Outcome ApiTypes.JsValue * W :=
  match fetch w with
  | (Rejected e, w1) => (Js.Threw e, w1)
  | (Fulfilled response, w1) =>
      if negb (ApiStatus.response_ok (http_status response)) then
        match FlightService.member "message" (errorData response) with
        | None => (Js.Threw type_error, w1)
        | Some message =>
            (Js.Threw
               (Js.mkThrown Js.PlainError "Error"
                  (if FlightService.value_truthy message
                   then message_text message
                   else "API request failed: "
                        ++ Js.Z_to_string (http_status response) ++ " "
                        ++ statusText response)
                  (Js.StatusNum (Js.of_Z (http_status response)))),
             w1)
        end
      else (json response, w1)
  end.

(** The value [handleApiError] is applied to. *)
Definition as_unknown (error : Js.Thrown) : HandleApiError.Unknown :=
  if Js.instanceof_Error error
  then HandleApiError.IsError (Js.err_message error)
  else non_error error.

(** [apiRequest(endpoint, params)]; the run tells how often [fetch] was
    called. *)
Definition apiRequest (w : W)
  : Js.Outcome ApiTypes.JsValue * ApiRetry.Run W :=
  if negb (Js.str_truthy RAPID_API_KEY)
  then (Js.Threw no_api_key_error, ApiRetry.start w)
  else
    match ApiRetry.apiRequestWithRetry requestFn random
            ApiRetry.empty_config w with
    | (Js.Returned data, r) => (Js.Returned data, r)
    | (Js.Threw error, r) =>
        if Js.instanceof_Error error && Js.has_status error
        then (Js.Threw error, r)
        else
          (Js.Threw
             (FlightService.new_Error
                (HandleApiError.handleApiError (as_unknown error))), r)
    end.

End WithKey.

End ApiRequest.


(* ================================================================== *)
(** * services/flightApi.ts, the calendar of [getPriceCalendar]         *)
(* ================================================================== *)

Module PriceCalendar.

Local Open Scope string_scope.

(** An element of [prices]: the date and the price read from an item of
    the response. *)
Record DatedPrice : Type := mkDatedPrice {
  date : string;
  price : Js.num
}.

Record PriceCalendarDay : Type := mkDay {
  day_date : string;
  day_price : Js.num;
  isCheapest : bool;
  isMostExpensive : bool;
  isUnavailable : bool
}.

Record PriceCalendarData : Type := mkData {
  origin : string;
  destination : string;
  currency : string;
  calendar : list PriceCalendarDay;
  minPrice : Js.num;
  maxPrice : Js.num;
  cheapestDate : string
}.

(** What [getPriceCalendar] returns for the response of the API, from the
    list [prices] on. *)
Definition calendar_of_prices (originSkyId destinationSkyId currency : string)
    (prices : list DatedPrice) : PriceCalendarData :=
  let validPrices := filter (fun p => Js.gtb (price p) Js.zero) prices in
  let minPrice :=
    if (0 <? List.length validPrices)%nat
    then Js.min_list (map price validPrices) else Js.zero in
  let maxPrice :=
    if (0 <? List.length validPrices)%nat
    then Js.max_list (map price validPrices) else Js.zero in
  let cheapestDay := find (fun p => Js.eqb (price p) minPrice) validPrices in
  let cheapestDate :=
    match cheapestDay with
    | Some p => FlightService.text_or (date p) ""
    | None => ""
    end in
  let calendar :=
    map (fun p =>
           mkDay (date p) (price p)
             (Js.eqb (price p) minPrice && Js.gtb minPrice Js.zero)
             (Js.eqb (price p) maxPrice && Js.gtb maxPrice minPrice)
             (Js.eqb (price p) Js.zero))
        prices in
  mkData originSkyId destinationSkyId currency calendar minPrice maxPrice
    cheapestDate.

End PriceCalendar.

(* ================================================================== *)
(** * Notions used to state the properties                              *)
(* ================================================================== *)

Module Props.

Local Open Scope string_scope.

(** ** Response envelope *)

Section Envelope.

Import ApiTypes FlightApi.

(** The envelope shapes, each with the array it carries.  The first three
    are the ones the specification names; [shape_data_array] is the
    envelope [{status, timestamp, data: [...]}]. *)
Inductive Shape : Type :=
| shape_direct
| shape_data_data
| shape_data_flights
| shape_data_array.

Definition is_array (v : JsValue) : bool :=
  match v with JArray _ => true | _ => false end.

(** [has_shape k response l]: [response] has shape [k] and [l] is the
    array found there.  [data.data] takes precedence over [data.flights]. *)
Definition has_shape (k : Shape) (response : JsValue) (l : list JsValue)
  : Prop :=
  match k with
  | shape_direct => response = JArray l
  | shape_data_data =>
      exists props inner,
        response = JObject props /\
        lookup "data" props = JObject inner /\
        lookup "data" inner = JArray l
  | shape_data_flights =>
      exists props inner,
        response = JObject props /\
        lookup "data" props = JObject inner /\
        is_array (lookup "data" inner) = false /\
        lookup "flights" inner = JArray l
  | shape_data_array =>
      exists props,
        response = JObject props /\
        lookup "data" props = JArray l
  end.

(** The rule as the specification words it, at one input: the array of one
    of the three named shapes, and the empty array when the input has
    none of the three. *)
Definition three_shape_rule (response : JsValue) : Prop :=
  (forall k l, k <> shape_data_array -> has_shape k response l ->
               normalizeFlightResponse response = l) /\
  ((forall k l, k <> shape_data_array -> ~ has_shape k response l) ->
   normalizeFlightResponse response = []).

End Envelope.

(** ** Mock fallback *)

(** "Never propagates an error to its caller", at one call. *)
Definition never_propagates {W T : Type} (key : string)
    (apiCall getMockData : W -> Js.Outcome T * W) (w : W) : Prop :=
  exists v,
    fst (MockFallback.withMockFallback key apiCall getMockData "context" w)
    = Js.Returned v.

(** ** Retry executor *)

(** The operation rejects with [e] each time it is invoked. *)
Definition always_rejects {W T : Type}
    (requestFn : W -> Js.Outcome T * W) (e : Js.Thrown) : Prop :=
  forall w, fst (requestFn w) = Js.Threw e.

(** [e.status === n] *)
Definition status_is (e : Js.Thrown) (n : Z) : bool :=
  match Js.err_status e with
  | Js.StatusNum s => Js.eqb s (Js.of_Z n)
  | _ => false
  end.

(** A network error in the sense of [isRetryableError]: a [TypeError]
    whose message contains "fetch". *)
Definition is_fetch_TypeError (e : Js.Thrown) : bool :=
  Js.instanceof_TypeError e && Js.includes "fetch" (Js.err_message e).

(** The 429 half of the retry policy as the specification words it: every
    operation that always rejects with an [Error] carrying [status=429]
    is invoked exactly once under the default configuration. *)
Definition status_429_attempted_once : Prop :=
  forall (W T : Type) (requestFn : W -> Js.Outcome T * W)
         (random : nat -> Js.num) (w : W) (e : Js.Thrown),
    Js.instanceof_Error e = true ->
    status_is e 429 = true ->
    always_rejects requestFn e ->
    ApiRetry.calls
      (snd (ApiRetry.apiRequestWithRetry requestFn random
              ApiRetry.empty_config w)) = 1%nat.

(** ** Health prober *)

(** What a call of [checkApiHealth] runs into once the cache is out of the
    way. *)
Inductive ProbeKind : Type :=
| probe_no_key
| probe_2xx
| probe_429
| probe_other_status
| probe_network_error.

Definition probe_kind (key : string) (net : ApiStatus.FetchOutcome)
  : ProbeKind :=
  if negb (ApiStatus.isApiKeyConfigured key) then probe_no_key
  else
    match net with
    | ApiStatus.Responded http =>
        if ApiStatus.response_ok http then probe_2xx
        else if (http =? 429)%Z then probe_429
        else probe_other_status
    | ApiStatus.Rejected _ => probe_network_error
    end.

(** Status and the two flags of a result. *)
Definition summary (r : ApiStatus.ApiHealthResult)
  : ApiStatus.ApiConnectionStatus * bool * bool :=
  (ApiStatus.status r, ApiStatus.usingMockData r,
   ApiStatus.apiKeyConfigured r).

(** The last clause of the cache discipline as the specification words
    it: after a probe answered by HTTP 429, the next call probes afresh.
    The clock does not run backwards between the two calls. *)
Definition probes_afresh_after_429 : Prop :=
  forall (key : string) (skipCache : bool) (timestamp now : Z)
         (st : ApiStatus.State)
         (timestamp' now' : Z) (net' : ApiStatus.FetchOutcome),
    ApiStatus.isApiKeyConfigured key = true ->
    ApiStatus.cache_hit skipCache now st = None ->
    (timestamp <= now <= timestamp')%Z -> (timestamp' <= now')%Z ->
    let st1 :=
      snd (ApiStatus.checkApiHealth key skipCache timestamp now
             (ApiStatus.Responded 429) st) in
    ApiStatus.fetches
      (snd (ApiStatus.checkApiHealth key false timestamp' now' net' st1))
    = S (ApiStatus.fetches st1).

(** ** Flight normaliser *)

(** The invariant of a flight: [price >= 0] and [stops >= 0]. *)
Definition nonneg_invariant (f : FlightTypes.Flight) : Prop :=
  Js.geb (FlightTypes.price f) Js.zero = true /\
  Js.geb (FlightTypes.stops f) Js.zero = true.

(** A raw record carrying a [price] and a [stops] field and nothing
    else. *)
Definition raw_price_stops (p : option ApiTypes.NumOrStr)
    (s : option Js.num) : ApiTypes.RawFlightData :=
  ApiTypes.mkRaw None None None None None None None None None None None
    None None None None None None None None None None
    p None None None s None
    None None None None None None None None None None None None None None
    None None.

(** The first truthy one of [price], [amount], [total], [fare]. *)
Definition selected_price (raw : ApiTypes.RawFlightData)
  : option ApiTypes.NumOrStr :=
  find FlightApi.value_truthy
    (flat_map (fun field => match field with Some v => [v] | None => [] end)
       [ApiTypes.price raw; ApiTypes.amount raw;
        ApiTypes.total raw; ApiTypes.fare raw]).

(** The number the price is read from: that one as a number, or the
    number [parseFloat] reads from it when it is a text; zero when none of
    the four is truthy. *)
Definition price_source (raw : ApiTypes.RawFlightData) : Js.num :=
  match selected_price raw with
  | None => Js.zero
  | Some (ApiTypes.VNum n) => n
  | Some (ApiTypes.VStr s) => Js.parseFloat s
  end.

(** The selected price reads as a number: it is not a text that
    [parseFloat] makes nothing of. *)
Definition price_parses (raw : ApiTypes.RawFlightData) : Prop :=
  Js.is_nan (price_source raw) = false.

(** The stop count of a record: the [stops] field when it is supplied;
    otherwise the number of segments less one, and not below zero, when
    segments are supplied, and zero when they are not. *)
Definition stops_source (raw : ApiTypes.RawFlightData) : Js.num :=
  match ApiTypes.stops raw with
  | Some n => n
  | None =>
      match ApiTypes.segments raw with
      | Some segs =>
          Js.max2 Js.zero
            (Js.sub (Js.of_Z (Z.of_nat (List.length segs))) (Js.of_Z 1))
      | None => Js.zero
      end
  end.

(** That one reads as a number that is at least zero (vacuous when there
    is none). *)
Definition price_source_nonneg (raw : ApiTypes.RawFlightData) : Prop :=
  match selected_price raw with
  | None => True
  | Some (ApiTypes.VNum n) => Js.geb n Js.zero = true
  | Some (ApiTypes.VStr s) => Js.geb (Js.parseFloat s) Js.zero = true
  end.

(** An explicit stop count, when there is one, is at least zero. *)
Definition stops_source_nonneg (raw : ApiTypes.RawFlightData) : Prop :=
  match ApiTypes.stops raw with
  | None => True
  | Some n => Js.geb n Js.zero = true
  end.

(** ** Price range *)

(** [p > 0], the test of the filter. *)
Definition positive (p : Js.num) : bool := Js.gtb p Js.zero.

(** [lo] is a least element of [l], [hi] a greatest one. *)
Definition is_least (lo : Js.num) (l : list Js.num) : Prop :=
  In lo l /\ forall p, In p l -> Js.leb lo p = true.

Definition is_greatest (hi : Js.num) (l : list Js.num) : Prop :=
  In hi l /\ forall p, In p l -> Js.leb p hi = true.

(** The bounds derived from a least and a greatest positive price:
    [max(0, floor(lo / 100) * 100)] and [ceil(hi / 100) * 100], in the
    arithmetic of doubles. *)
Definition rounded_range (lo hi : Js.num) : PriceRange.Range :=
  PriceRange.mkRange
    (Js.max2 Js.zero
       (Js64.mul (Js.floor (Js64.div lo (Js.of_Z 100))) (Js.of_Z 100)))
    (Js64.mul (Js.ceil (Js64.div hi (Js.of_Z 100))) (Js.of_Z 100)).

(** ** Filter and sort *)

(** [a] may stand in front of [b]: the comparator does not ask for the
    opposite. *)
Definition in_order {A : Type} (compareFn : A -> A -> Js.num) (a b : A)
  : bool :=
  negb (Js.gtb (compareFn a b) Js.zero).

(** [a] and [b] tie. *)
Definition ties {A : Type} (compareFn : A -> A -> Js.num) (a b : A)
  : bool :=
  in_order compareFn a b && in_order compareFn b a.

(** The conjunction of the filters of [getFilteredFlights]. *)
Definition keeps (filters : FlightTypes.FlightFilters)
    (flight : FlightTypes.Flight) : bool :=
  (Js.geb (FlightTypes.price flight)
          (FlightTypes.min (FlightTypes.priceRange filters)) &&
   Js.leb (FlightTypes.price flight)
          (FlightTypes.max (FlightTypes.priceRange filters)))
  && (match FlightTypes.filter_stops filters with
      | [] => true
      | wanted => existsb (Js.same_value_zero (FlightTypes.stops flight))
                          wanted
      end)
  && (match FlightTypes.airlines filters with
      | [] => true
      | wanted => existsb (String.eqb (FlightTypes.airline flight)) wanted
      end)
  && (match FlightTypes.departureTimes filters with
      | [] => true
      | wanted =>
          existsb (SearchContext.in_time_range
                     (SearchContext.hour_of
                        (FlightTypes.departureTime flight)))
                  wanted
      end)
  && (match FlightTypes.arrivalTimes filters with
      | [] => true
      | wanted =>
          existsb (SearchContext.in_time_range
                     (SearchContext.hour_of
                        (FlightTypes.arrivalTime flight)))
                  wanted
      end)
  && (if Js.gtb (FlightTypes.filter_duration filters) Js.zero
      then Js.leb (ParseDuration.parseDuration (FlightTypes.duration flight))
                  (FlightTypes.filter_duration filters)
      else true).

(** The components of the sort key: flights marked best come first, then
    non-stop flights. *)
Definition best_rank (f : FlightTypes.Flight) : nat :=
  if SearchContext.is_best f then 0 else 1.

Definition nonstop_rank (f : FlightTypes.Flight) : nat :=
  if Js.eqb (FlightTypes.stops f) Js.zero then 0 else 1.

(** The lexicographic order on (best flag, non-stop flag, price). *)
Definition best_le (a b : FlightTypes.Flight) : bool :=
  (best_rank a <? best_rank b)%nat ||
  ((best_rank a =? best_rank b)%nat &&
   ((nonstop_rank a <? nonstop_rank b)%nat ||
    ((nonstop_rank a =? nonstop_rank b)%nat &&
     Js.leb (FlightTypes.price a) (FlightTypes.price b)))).

(** The lexicographic order on (best flag, stop count, price), the one a
    lower stop count before a higher one asks for. *)
Definition stop_count_le (a b : FlightTypes.Flight) : bool :=
  (best_rank a <? best_rank b)%nat ||
  ((best_rank a =? best_rank b)%nat &&
   (Js.ltb (FlightTypes.stops a) (FlightTypes.stops b) ||
    (Js.eqb (FlightTypes.stops a) (FlightTypes.stops b) &&
     Js.leb (FlightTypes.price a) (FlightTypes.price b)))).

(** The default sort as the specification words it, at one input: the
    result is ordered by (best flag, stop count, price). *)
Definition ordered_by_stop_count (flights : list FlightTypes.Flight)
    (filters : FlightTypes.FlightFilters) : Prop :=
  StronglySorted (fun a b => stop_count_le a b = true)
    (SearchContext.getFilteredFlights flights filters
                                      FlightTypes.sort_best).

(** The invariant [stops >= 0] of a flight. *)
Definition stops_nonneg (f : FlightTypes.Flight) : Prop :=
  Js.geb (FlightTypes.stops f) Js.zero = true.

(** A flight given by its id, airline, stop count, price and best flag,
    leaving at 08:00 and arriving at 11:30. *)
Definition sample_flight (id airline : string) (stops price : Z)
    (best : bool) : FlightTypes.Flight :=
  FlightTypes.mkFlight id airline "08:00" "11:30" "JFK" "LAX" "3h 30m"
    (Js.of_Z stops) (Js.of_Z price) (Some best)
    None None None None None None None None None.

(** The comparator a sort option selects. *)
Definition comparator (sortOption : FlightTypes.SortOption)
  : FlightTypes.Flight -> FlightTypes.Flight -> Js.num :=
  match sortOption with
  | FlightTypes.sort_cheapest => SearchContext.compare_cheapest
  | FlightTypes.sort_fastest => SearchContext.compare_fastest
  | _ => SearchContext.compare_best
  end.

(** ** The contract of [Array.prototype.sort]

    The language defines the order [sort] produces only for a comparator
    that is a consistent comparison function for the elements of the
    array: it never returns [NaN], [=C] (a zero result) is reflexive,
    symmetric and transitive, and [<C] and [>C] (a negative and a positive
    result) are transitive.  For such a comparator the result is the
    rearrangement in which no element stands behind one it precedes, the
    elements that compare equal keeping their order; for any other
    comparator the order is left to the engine. *)

Section Consistent.

Variable A : Type.
Variable compareFn : A -> A -> Js.num.

(** [a <C b], [a =C b] and [a >C b]. *)
Definition before (a b : A) : bool := Js.ltb (compareFn a b) Js.zero.
Definition same (a b : A) : bool := Js.eqb (compareFn a b) Js.zero.
Definition after (a b : A) : bool := Js.gtb (compareFn a b) Js.zero.

(** The comparator is a consistent comparison function for the elements
    of [l]. *)
Definition consistent (l : list A) : bool :=
  forallb (fun a =>
    same a a &&
    forallb (fun b =>
      negb (Js.is_nan (compareFn a b)) &&
      implb (same a b) (same b a) &&
      forallb (fun c =>
        implb (same a b && same b c) (same a c) &&
        implb (before a b && before b c) (before a c) &&
        implb (after a b && after b c) (after a c)) l) l) l.

End Consistent.

(** What the language asks of an engine's sort. *)
Definition conforms (engine_sort : SearchContext.EngineSort) : Prop :=
  forall (A : Type) (compareFn : A -> A -> Js.num) (l : list A),
    consistent compareFn l = true ->
    Permutation (engine_sort A compareFn l) l /\
    StronglySorted (fun a b => in_order compareFn a b = true)
                   (engine_sort A compareFn l) /\
    forall k, In k l ->
      filter (ties compareFn k) (engine_sort A compareFn l)
      = filter (ties compareFn k) l.

(** The number is finite. *)
Definition finite (n : Js.num) : bool :=
  match n with
  | Js.Fin _ => true
  | _ => false
  end.

(** The keys the comparator of a sort option reads are regular on the
    flights: finite prices under "cheapest", durations that parse to
    finite numbers under "fastest", finite prices and stop counts of at
    least zero under "best" and the options sorted as "best". *)
Definition regular_keys (sortOption : FlightTypes.SortOption)
    (flights : list FlightTypes.Flight) : Prop :=
  match sortOption with
  | FlightTypes.sort_cheapest =>
      Forall (fun f => finite (FlightTypes.price f) = true) flights
  | FlightTypes.sort_fastest =>
      Forall (fun f =>
                finite (ParseDuration.parseDuration (FlightTypes.duration f))
                = true) flights
  | _ =>
      Forall (fun f => finite (FlightTypes.price f) = true) flights /\
      Forall stops_nonneg flights
  end.

(** A bottom-up merge sort, one of the procedures engines sort with: the
    array is cut into runs of one element, and neighbouring runs are
    merged, pass after pass, until one run is left.  The merge takes the
    head of the right run when the comparator puts it strictly before the
    head of the left run, and the head of the left run otherwise. *)

Section MergeSort.

Variable A : Type.
Variable compareFn : A -> A -> Js.num.

Fixpoint merge (left right : list A) {struct left} : list A :=
  let fix merge_right (right : list A) {struct right} : list A :=
    match left, right with
    | [], _ => right
    | _, [] => left
    | x :: left', y :: right' =>
        if Js.ltb (compareFn y x) Js.zero then y :: merge_right right'
        else x :: merge left' right
    end
  in merge_right right.

Fixpoint merge_pairs (runs : list (list A)) : list (list A) :=
  match runs with
  | a :: b :: rest => merge a b :: merge_pairs rest
  | _ => runs
  end.

(** [passes] bounds the number of passes; the length of the array is
    enough. *)
Fixpoint merge_passes (passes : nat) (runs : list (list A)) : list A :=
  match runs with
  | [] => []
  | [run] => run
  | _ =>
      match passes with
      | O => List.concat runs
      | S passes' => merge_passes passes' (merge_pairs runs)
      end
  end.

Definition merge_sort (l : list A) : list A :=
  merge_passes (List.length l) (map (fun x => [x]) l).

End MergeSort.

End Props.

(* ================================================================== *)
(** * Notions used to state the further properties                      *)
(* ================================================================== *)

Module MoreProps.

Local Open Scope string_scope.

(** ** Retry executor *)

(** The state of an operation after [i] invocations, starting from [w]. *)
Fixpoint world_after {W T : Type} (requestFn : W -> Js.Outcome T * W)
    (i : nat) (w : W) : W :=
  match i with
  | O => w
  | S j => snd (requestFn (world_after requestFn j w))
  end.

(** [e.status] is a number in [400..403] or is [429]. *)
Definition client_error_status (e : Js.Thrown) : bool :=
  match Js.err_status e with
  | Js.StatusNum s =>
      (Js.geb s (Js.of_Z 400) && Js.leb s (Js.of_Z 403))
      || Js.eqb s (Js.of_Z 429)
  | _ => false
  end.

(** ** Whole prices *)

(** The number is a whole number of at most [2 ^ 52]. *)
Definition whole_number (p : Js.num) : bool :=
  match p with
  | Js.Fin q => (Qden q =? 1)%positive && (Qnum q <=? 2 ^ 52)%Z
  | _ => false
  end.

(** Every strictly positive price of the list is such a whole number. *)
Definition whole_prices (prices : list Js.num) : bool :=
  forallb (fun p => negb (Js.gtb p Js.zero) || whole_number p) prices.

(** ** Search provider *)

(** No filter other than the price range is active. *)
Definition only_price_filter (filters : FlightTypes.FlightFilters) : Prop :=
  FlightTypes.filter_stops filters = [] /\
  FlightTypes.airlines filters = [] /\
  FlightTypes.departureTimes filters = [] /\
  FlightTypes.arrivalTimes filters = [] /\
  Js.gtb (FlightTypes.filter_duration filters) Js.zero = false.

(** ** Airports *)

(** The string has no opening parenthesis. *)
Fixpoint no_open_paren (s : string) : bool :=
  match s with
  | EmptyString => true
  | String c r => negb (Ascii.eqb c "(") && no_open_paren r
  end.

(** ** Decimal numerals *)

(** The number a run of decimal digits denotes, read on top of [acc]. *)
Fixpoint uint_value (d : Decimal.uint) (acc : Z) : Z :=
  match d with
  | Decimal.Nil => acc
  | Decimal.D0 d => uint_value d (acc * 10 + 0)
  | Decimal.D1 d => uint_value d (acc * 10 + 1)
  | Decimal.D2 d => uint_value d (acc * 10 + 2)
  | Decimal.D3 d => uint_value d (acc * 10 + 3)
  | Decimal.D4 d => uint_value d (acc * 10 + 4)
  | Decimal.D5 d => uint_value d (acc * 10 + 5)
  | Decimal.D6 d => uint_value d (acc * 10 + 6)
  | Decimal.D7 d => uint_value d (acc * 10 + 7)
  | Decimal.D8 d => uint_value d (acc * 10 + 8)
  | Decimal.D9 d => uint_value d (acc * 10 + 9)
  end.

(** Minutes between two clock readings, a reading before the departure
    being taken on the next day. *)
Definition minutes_between (dep arr : Z) : Z :=
  (if arr - dep <? 0 then arr - dep + 24 * 60 else arr - dep)%Z.

(** The text reads as the clock time [h]:[m]: its first two parts between
    colons read as the whole numbers [h] and [m], each of at most
    [10 ^ 12] in size, so that the minutes counted from them are whole
    numbers far below [2 ^ 53]. *)
Definition clock_reading (t : string) (h m : Z) : Prop :=
  let parts := map Js.Number (Js.split ":" t) in
  nth 0 parts Js.NaN = Js.of_Z h /\
  nth 1 parts Js.NaN = Js.of_Z m /\
  (Z.abs h <= 10 ^ 12)%Z /\ (Z.abs m <= 10 ^ 12)%Z.

(** ** Error messages *)

(** The message [handleApiError] gives for a failed fetch. *)
Definition network_error_message : string :=
  "Network error. Please check your internet connection and try again.".

(** The characters [0] to [9]. *)
Definition digits : list ascii :=
  ["0"; "1"; "2"; "3"; "4"; "5"; "6"; "7"; "8"; "9"]%char.

(** ** Calls to the API *)

(** The outcome is an exception. *)
Definition is_threw {T : Type} (o : Js.Outcome T) : bool :=
  match o with Js.Threw _ => true | Js.Returned _ => false end.


(** The coordinates fail the range tests of [getNearByAirports]. *)
Definition out_of_range (lat lng : Js.num) : bool :=
  Js.ltb lat (Js.of_Z (-90)) || Js.gtb lat (Js.of_Z 90)
  || Js.ltb lng (Js.of_Z (-180)) || Js.gtb lng (Js.of_Z 180).

(** ** Health of the API *)

(** A call of [checkApiHealth]: its argument, the two readings of the
    clock, and what the network does if asked. *)
Record HealthCall : Type := mkHealthCall {
  call_skipCache : bool;
  call_timestamp : Z;
  call_now : Z;
  call_net : ApiStatus.FetchOutcome
}.

(** The state after a sequence of calls of [checkApiHealth]. *)
Fixpoint after_calls (RAPID_API_KEY : string) (calls : list HealthCall)
    (st : ApiStatus.State) : ApiStatus.State :=
  match calls with
  | [] => st
  | c :: later =>
      after_calls RAPID_API_KEY later
        (snd (ApiStatus.checkApiHealth RAPID_API_KEY (call_skipCache c)
                (call_timestamp c) (call_now c) (call_net c) st))
  end.

(** The slot does not hold an offline result. *)
Definition slot_not_offline (st : ApiStatus.State) : bool :=
  match ApiStatus.cachedHealthCheck st with
  | Some c =>
      match ApiStatus.status c with
      | ApiStatus.offline => false
      | _ => true
      end
  | None => true
  end.

(** The call of [checkApiHealth()] sends a request that is answered by
    HTTP 429. *)
Definition answered_429 (RAPID_API_KEY : string) (now : Z)
    (net : ApiStatus.FetchOutcome) (st : ApiStatus.State) : bool :=
  match ApiStatus.cache_hit false now st, net with
  | None, ApiStatus.Responded http =>
      ApiStatus.isApiKeyConfigured RAPID_API_KEY && (http =? 429)%Z
  | _, _ => false
  end.

(** The HTTP status is one of 400 to 403, or 429. *)
Definition client_status (http_status : Z) : bool :=
  ((400 <=? http_status) && (http_status <=? 403) || (http_status =? 429))%Z.

End MoreProps.

(* ================================================================== *)
(** * Properties                                                        *)
(* ================================================================== *)

Local Open Scope string_scope.

(** ** The built-ins on a few inputs *)

Example parseFloat_examples :
  Js.parseFloat "455" = Js.of_Z 455 /\
  Js.parseFloat " 12.50 USD" = Js.Fin (25 # 2) /\
  Js.parseFloat "-5" = Js.of_Z (-5) /\
  Js.parseFloat "n/a" = Js.NaN /\
  Js.parseFloat "" = Js.NaN.
Proof. repeat split. Qed.

Example Number_examples :
  Js.Number "22" = Js.of_Z 22 /\
  Js.Number "00" = Js.of_Z 0 /\
  Js.Number "" = Js.of_Z 0 /\
  Js.Number "0x1F" = Js.of_Z 31 /\
  Js.Number "7pm" = Js.NaN.
Proof. repeat split. Qed.

Example parseInt_examples :
  Js.parseInt "08" = Js.of_Z 8 /\
  Js.parseInt "14h" = Js.of_Z 14 /\
  Js.parseInt "" = Js.NaN.
Proof. repeat split. Qed.

Example to_string_examples :
  Js.to_string (Js.of_Z 240) = "240" /\
  Js.to_string (Js.Fin (-5 # 4)) = "-1.25" /\
  Js.to_string Js.NaN = "NaN" /\
  Js.to_string (Js.of_Z (10 ^ 20)) = "100000000000000000000" /\
  Js.to_string (Js.of_Z (10 ^ 21)) = "1e+21" /\
  Js.to_string (Js.of_Z (-25 * 10 ^ 20)) = "-2.5e+21" /\
  Js.to_string (Js.Fin (1 # 1000000)) = "0.000001" /\
  Js.to_string (Js.Fin (1 # 10000000)) = "1e-7" /\
  Js.to_string (Js.Fin (123 # 10000000000)) = "1.23e-8".
Proof. repeat split. Qed.

Example parseDuration_examples :
  ParseDuration.parseDuration "5h 30m" = Js.of_Z 330 /\
  ParseDuration.parseDuration "12h05" = Js.of_Z 725 /\
  ParseDuration.parseDuration "5h" = Js.of_Z 0 /\
  ParseDuration.parseDuration "" = Js.of_Z 0.
Proof. repeat split. Qed.

Example computed_duration_examples :
  FlightApi.computed_duration "08:15" "11:45" = "3h 30m" /\
  FlightApi.computed_duration "23:30" "00:10" = "0h 40m" /\
  FlightApi.computed_duration "0815" "11:45" = "NaNh NaNm".
Proof. repeat split. Qed.

(** ** Environment resolver *)

Lemma str_truthy_iff (s : string) : Js.str_truthy s = true <-> s <> "".
Proof.
  destruct s; simpl; split; intro H; try reflexivity; congruence.
Qed.

(** [isApiConfigured] tests the key as it stands: it holds exactly for a
    non-empty key. *)
Lemma isApiConfigured_iff_nonempty (key : string) :
  EnvConfig.isApiConfigured key = true <-> key <> "".
Proof.
  unfold EnvConfig.isApiConfigured.
  rewrite negb_involutive.
  apply str_truthy_iff.
Qed.

(** The sibling predicate of the health prober does trim: it holds exactly
    for a key that is non-empty after trimming. *)
Lemma isApiKeyConfigured_iff_trimmed_nonempty (key : string) :
  ApiStatus.isApiKeyConfigured key = true <-> Js.trim key <> "".
Proof.
  unfold ApiStatus.isApiKeyConfigured.
  rewrite negb_involutive, andb_true_iff, negb_true_iff, String.eqb_neq.
  split.
  - intros [_ H]; exact H.
  - intro H; split; [| exact H].
    destruct key; [| reflexivity].
    exfalso; apply H; reflexivity.
Qed.

(** C6.  On a key made of three spaces, which is empty after trimming,
    [isApiConfigured] answers [true], where the stated contract (true iff
    the key is non-empty after the trim) asks for [false]; the health
    prober's [isApiKeyConfigured] answers [false] on the same key. *)
Theorem isApiConfigured_blank_key :
  let key := EnvConfig.RAPID_API_KEY (Some "   ") in
  Js.trim key = "" /\
  EnvConfig.isApiConfigured key = true /\
  ApiStatus.isApiKeyConfigured key = false.
Proof.
  repeat split.
Qed.

(** ** Response envelope *)

Lemma lookup_defined_has_key (key : string)
    (props : list (string * ApiTypes.JsValue)) :
  FlightApi.lookup key props <> ApiTypes.JUndefined ->
  FlightApi.has_key key props = true.
Proof.
  induction props as [| [k v] rest IH]; simpl; intro H.
  - congruence.
  - destruct (String.eqb k key); simpl; auto.
Qed.

Lemma lookup_missing (key : string)
    (props : list (string * ApiTypes.JsValue)) :
  FlightApi.has_key key props = false ->
  FlightApi.lookup key props = ApiTypes.JUndefined.
Proof.
  induction props as [| [k v] rest IH]; simpl; intro H.
  - reflexivity.
  - destruct (String.eqb k key); simpl in *; [discriminate | auto].
Qed.

(** C7, counterexample.  The envelope [{data: [f]}] has none of the three
    shapes the specification names, and [normalizeFlightResponse] returns
    [[f]] on it, not the empty array. *)
Lemma data_array_envelope_not_empty :
  ~ Props.three_shape_rule
      (ApiTypes.JObject
         [("data", ApiTypes.JArray [ApiTypes.JString "f"])]).
Proof.
  intros [_ H].
  assert (E : FlightApi.normalizeFlightResponse
                (ApiTypes.JObject
                   [("data", ApiTypes.JArray [ApiTypes.JString "f"])])
              = []).
  { apply H. intros k l Hk Hs.
    destruct k; simpl in Hs.
    - discriminate.
    - destruct Hs as (props & inner & E & D & _).
      injection E as <-. simpl in D. discriminate.
    - destruct Hs as (props & inner & E & D & _).
      injection E as <-. simpl in D. discriminate.
    - apply Hk; reflexivity. }
  simpl in E. discriminate.
Qed.

(** C7, as amended.  [normalizeFlightResponse] returns the array the input
    carries when the input is a direct array or has one of the shapes
    [{data: {data: [...]}}], [{data: {flights: [...]}}], [{data: [...]}],
    and the empty array on every input that has none of the four
    shapes. *)
Theorem normalizeFlightResponse_shapes (response : ApiTypes.JsValue) :
  (forall k l, Props.has_shape k response l ->
               FlightApi.normalizeFlightResponse response = l) /\
  ((forall k l, ~ Props.has_shape k response l) ->
   FlightApi.normalizeFlightResponse response = []).
Proof.
  split.
  - intros k l Hs. destruct k; simpl in Hs.
    + subst; reflexivity.
    + destruct Hs as (props & inner & -> & D & DD). simpl.
      rewrite lookup_defined_has_key by (rewrite D; discriminate).
      rewrite D. simpl. rewrite DD. reflexivity.
    + destruct Hs as (props & inner & -> & D & DD & F). simpl.
      rewrite lookup_defined_has_key by (rewrite D; discriminate).
      rewrite D. simpl. rewrite F.
      destruct (FlightApi.lookup "data" inner); simpl in DD;
        try reflexivity; discriminate.
    + destruct Hs as (props & -> & D). simpl.
      rewrite lookup_defined_has_key by (rewrite D; discriminate).
      rewrite D. reflexivity.
  - intro Hno. destruct response as [| | b | n | s | items | props];
      try reflexivity.
    + exfalso. apply (Hno Props.shape_direct items). reflexivity.
    + simpl. destruct (FlightApi.has_key "data" props) eqn:K;
        [| reflexivity].
      destruct (FlightApi.lookup "data" props) as
          [| | b | n | s | items | inner] eqn:D; try reflexivity.
      * exfalso. apply (Hno Props.shape_data_array items).
        exists props; auto.
      * simpl.
        destruct (FlightApi.lookup "data" inner) as
            [| | b | n | s | items | o] eqn:DD;
          try (destruct (FlightApi.lookup "flights" inner) as
                  [| | b' | n' | s' | items' | o'] eqn:F;
               try reflexivity;
               exfalso; apply (Hno Props.shape_data_flights items');
               exists props, inner; rewrite DD; auto).
        exfalso. apply (Hno Props.shape_data_data items).
        exists props, inner; auto.
Qed.

(** ** Mock fallback *)

(** C3, counterexample.  With no key configured, and also with a key and a
    failing [apiCall], a [getMockData] that throws makes
    [withMockFallback] throw: the error reaches the caller. *)
Lemma withMockFallback_propagates_mock_error :
  let e := Js.mkThrown Js.PlainError "Error" "mock table missing"
                       Js.StatusMissing in
  let boom := Js.mkThrown Js.PlainError "Error" "HTTP 500"
                          (Js.StatusNum (Js.of_Z 500)) in
  ~ Props.never_propagates (T := nat) ""
      (fun w : unit => (Js.Returned 1%nat, w))
      (fun w : unit => (Js.Threw e, w)) tt
  /\
  ~ Props.never_propagates (T := nat) "secret"
      (fun w : unit => (Js.Threw boom, w))
      (fun w : unit => (Js.Threw e, w)) tt.
Proof.
  split; intros [v H]; simpl in H; discriminate.
Qed.

(** C3, as amended.  [withMockFallback] never hands on an error of
    [apiCall].  Without a key it is [getMockData()] and [apiCall] is not
    invoked (its call count stays 0); with a key, a result of [apiCall] is
    returned as it is, and when [apiCall] throws, whatever it throws, the
    outcome is that of [getMockData()], unchanged.  An error that does
    reach the caller is one [getMockData] itself raised. *)
Theorem withMockFallback_outcome (W T : Type) (key : string)
    (apiCall getMockData : W -> Js.Outcome T * W) (context : string)
    (w : W) :
  (Js.str_truthy key = false ->
   MockFallback.withMockFallback key
     (MockFallback.spy apiCall) (MockFallback.unobserved getMockData)
     context (0%nat, w)
   = (fst (getMockData w), (0%nat, snd (getMockData w))))
  /\
  (Js.str_truthy key = true ->
   forall v w1, apiCall w = (Js.Returned v, w1) ->
   MockFallback.withMockFallback key apiCall getMockData context w
   = (Js.Returned v, w1))
  /\
  (Js.str_truthy key = true ->
   forall error w1, apiCall w = (Js.Threw error, w1) ->
   MockFallback.withMockFallback key apiCall getMockData context w
   = getMockData w1)
  /\
  (forall e,
   fst (MockFallback.withMockFallback key apiCall getMockData context w)
   = Js.Threw e ->
   exists w0, fst (getMockData w0) = Js.Threw e).
Proof.
  unfold MockFallback.withMockFallback.
  repeat split.
  - intros K. rewrite K. simpl.
    destruct (getMockData w); reflexivity.
  - intros K v w1 E. rewrite K, E. reflexivity.
  - intros K error w1 E. rewrite K, E. simpl.
    destruct (_ && _); reflexivity.
  - intros e. destruct (Js.str_truthy key); simpl.
    + destruct (apiCall w) as [[v | error] w1]; simpl.
      * discriminate.
      * destruct (_ && _); intro H; exists w1; exact H.
    + intro H; exists w; exact H.
Qed.

(** A use of the theorem: no key, an [apiCall] that would succeed, a mock
    producer returning 7. *)
Lemma withMockFallback_outcome_witness :
  Js.str_truthy "" = false /\
  MockFallback.withMockFallback ""
    (MockFallback.spy (fun w : unit => (Js.Returned 1%nat, w)))
    (MockFallback.unobserved (fun w : unit => (Js.Returned 7%nat, w)))
    "searchFlights" (0%nat, tt)
  = (Js.Returned 7%nat, (0%nat, tt)).
Proof.
  split; [reflexivity |].
  apply (proj1 (withMockFallback_outcome ""
                  (fun w : unit => (Js.Returned 1%nat, w))
                  (fun w : unit => (Js.Returned 7%nat, w))
                  "searchFlights" tt)).
  reflexivity.
Defined.

(** ** Retry executor *)

Lemma Qcompare_inject_Z (n m : Z) :
  Qcompare (inject_Z n) (inject_Z m) = Z.compare n m.
Proof.
  unfold Qcompare, inject_Z; simpl. now rewrite !Z.mul_1_r.
Qed.

(** A number equal to the integer [n] compares with any integer as [n]
    does. *)
Lemma eqb_of_Z_cmp (s : Js.num) (n m : Z) :
  Js.eqb s (Js.of_Z n) = true ->
  Js.cmp s (Js.of_Z m) = Some (Z.compare n m).
Proof.
  unfold Js.eqb, Js.of_Z.
  destruct s as [| | | q]; simpl; try discriminate.
  destruct (Qcompare q (inject_Z n)) eqn:E; try discriminate.
  intros _. apply Qeq_alt in E.
  rewrite E. now rewrite Qcompare_inject_Z.
Qed.

Lemma status_is_cmp (e : Js.Thrown) (n : Z) :
  Props.status_is e n = true ->
  exists s, Js.err_status e = Js.StatusNum s /\
            forall m, Js.cmp s (Js.of_Z m) = Some (Z.compare n m).
Proof.
  unfold Props.status_is.
  destruct (Js.err_status e) as [| | s]; try discriminate.
  intro H. exists s. split; [reflexivity |].
  intro m. now apply eqb_of_Z_cmp.
Qed.

(** An [Error] with status 429 that is not a network error is not
    retryable, whatever the list of retryable codes. *)
Lemma status_429_not_retryable (e : Js.Thrown) (codes : list Js.num) :
  Js.instanceof_Error e = true ->
  Props.status_is e 429 = true ->
  Props.is_fetch_TypeError e = false ->
  ApiRetry.isRetryableError e codes = false.
Proof.
  intros HE HS HF.
  destruct (status_is_cmp e 429 HS) as (s & Es & C).
  unfold ApiRetry.isRetryableError.
  unfold Props.is_fetch_TypeError in HF. rewrite HF.
  unfold Js.has_status. rewrite HE, Es. simpl.
  unfold Js.geb, Js.leb, Js.eqb.
  rewrite (C 429%Z), (C 403%Z). simpl.
  rewrite andb_false_r. reflexivity.
Qed.

(** Any thrown value with status 503 is retryable under the default list
    of codes. *)
Lemma status_503_retryable (e : Js.Thrown) :
  Props.status_is e 503 = true ->
  ApiRetry.isRetryableError e ApiRetry.DEFAULT_retryableStatusCodes = true.
Proof.
  intros HS.
  destruct (status_is_cmp e 503 HS) as (s & Es & C).
  unfold ApiRetry.isRetryableError.
  destruct (_ && _); [reflexivity |].
  destruct (_ && _); [| reflexivity].
  rewrite Es.
  unfold Js.geb, Js.leb, Js.eqb.
  rewrite (C 429%Z), (C 403%Z). simpl.
  rewrite andb_false_r.
  assert (Js.same_value_zero s (Js.of_Z 503) = true) as SV.
  { unfold Js.same_value_zero, Js.eqb. rewrite (C 503%Z).
    destruct s; reflexivity. }
  rewrite SV. now rewrite !orb_true_r.
Qed.

Section RetryLoop.

Variables W T : Type.
Variable requestFn : W -> Js.Outcome T * W.
Variable random : nat -> Js.num.
Variable maxRetries : Z.
Variables baseDelay maxDelay : Js.num.
Variable codes : list Js.num.
Variable e : Js.Thrown.
Hypothesis rejects : Props.always_rejects requestFn e.

Let loop :=
  ApiRetry.retry_loop requestFn random maxRetries baseDelay maxDelay codes.

(** One iteration of the loop when the operation rejects. *)
Lemma retry_loop_rejected (remaining attempt : nat)
    (lastError : Js.Thrown) (r : ApiRetry.Run W) :
  exists w1,
    loop (S remaining) attempt lastError r =
    let r1 := ApiRetry.mkRun w1 (S (ApiRetry.calls r)) (ApiRetry.sleeps r) in
    if (Z.of_nat attempt >=? maxRetries)%Z then (Js.Threw e, r1)
    else if negb (ApiRetry.isRetryableError e codes) then (Js.Threw e, r1)
    else
      loop remaining (S attempt) e
        (ApiRetry.mkRun w1 (S (ApiRetry.calls r))
           (ApiRetry.calculateDelay (random attempt) attempt
              baseDelay maxDelay :: ApiRetry.sleeps r)).
Proof.
  pose proof (rejects (ApiRetry.world r)) as R.
  destruct (requestFn (ApiRetry.world r)) as [res w1] eqn:E.
  simpl in R. subst res.
  exists w1. unfold loop. cbn [ApiRetry.retry_loop]. rewrite E.
  reflexivity.
Qed.

(** A non-retryable error ends the loop at the first invocation. *)
Lemma retry_loop_not_retryable (remaining attempt : nat)
    (lastError : Js.Thrown) (r : ApiRetry.Run W) :
  ApiRetry.isRetryableError e codes = false ->
  fst (loop (S remaining) attempt lastError r) = Js.Threw e /\
  ApiRetry.calls (snd (loop (S remaining) attempt lastError r))
  = S (ApiRetry.calls r).
Proof.
  intro NR.
  destruct (retry_loop_rejected remaining attempt lastError r) as [w1 ->].
  rewrite NR. simpl.
  destruct (Z.of_nat attempt >=? maxRetries)%Z; simpl; auto.
Qed.

(** A retryable error uses up every iteration of the loop. *)
Lemma retry_loop_retryable (remaining : nat) :
  ApiRetry.isRetryableError e codes = true ->
  forall (attempt : nat) (lastError : Js.Thrown) (r : ApiRetry.Run W),
    (Z.of_nat attempt + Z.of_nat (S remaining) = maxRetries + 1)%Z ->
    fst (loop (S remaining) attempt lastError r) = Js.Threw e /\
    ApiRetry.calls (snd (loop (S remaining) attempt lastError r))
    = (ApiRetry.calls r + S remaining)%nat.
Proof.
  intro RT.
  induction remaining as [| k IH]; intros attempt lastError r Hsum.
  - destruct (retry_loop_rejected 0 attempt lastError r) as [w1 ->].
    replace (Z.of_nat attempt >=? maxRetries)%Z with true
      by (symmetry; rewrite Z.geb_leb; apply Z.leb_le; lia).
    simpl. split; [reflexivity | lia].
  - destruct (retry_loop_rejected (S k) attempt lastError r) as [w1 ->].
    replace (Z.of_nat attempt >=? maxRetries)%Z with false
      by (symmetry; rewrite Z.geb_leb; apply Z.leb_gt; lia).
    rewrite RT. cbv beta iota zeta delta [negb].
    match goal with
    | |- context [loop (S k) (S attempt) e ?r'] =>
        destruct (IH (S attempt) e r') as [I1 I2]; [lia |];
        rewrite I1, I2; simpl
    end.
    split; [reflexivity | lia].
Qed.

End RetryLoop.

(** The policy for any configuration that allows at least one attempt:
    one invocation for an error that is not retryable, [maxRetries + 1]
    for one that is. *)
Lemma retry_policy_any_config (W T : Type)
    (requestFn : W -> Js.Outcome T * W) (random : nat -> Js.num)
    (config : ApiRetry.RetryConfig) (w : W) (e : Js.Thrown) :
  let maxRetries :=
    ApiRetry.or_default (ApiRetry.maxRetries config)
                        ApiRetry.DEFAULT_maxRetries in
  let codes :=
    ApiRetry.or_default (ApiRetry.retryableStatusCodes config)
                        ApiRetry.DEFAULT_retryableStatusCodes in
  let out := ApiRetry.apiRequestWithRetry requestFn random config w in
  (0 <= maxRetries)%Z ->
  Props.always_rejects requestFn e ->
  fst out = Js.Threw e /\
  ApiRetry.calls (snd out) =
  if ApiRetry.isRetryableError e codes
  then Z.to_nat (maxRetries + 1) else 1%nat.
Proof.
  intros maxRetries codes out Hmax Hrej.
  subst out. unfold ApiRetry.apiRequestWithRetry.
  fold maxRetries. fold codes.
  destruct (Z.to_nat (maxRetries + 1)) as [| k] eqn:K; [lia |].
  destruct (ApiRetry.isRetryableError e codes) eqn:R.
  - destruct (retry_loop_retryable random maxRetries
                (ApiRetry.or_default (ApiRetry.baseDelay config)
                                     ApiRetry.DEFAULT_baseDelay)
                (ApiRetry.or_default (ApiRetry.maxDelay config)
                                     ApiRetry.DEFAULT_maxDelay)
                codes Hrej k R 0%nat ApiRetry.undefined_thrown
                (ApiRetry.start w)) as [H1 H2]; [lia |].
    split; [exact H1 | exact H2].
  - exact (retry_loop_not_retryable random maxRetries _ _ codes Hrej k 0%nat
             ApiRetry.undefined_thrown (ApiRetry.start w) R).
Qed.

(** C2, counterexample.  A [TypeError] whose message contains "fetch" is an
    [Error]; carrying [status = 429] it is still classified as a network
    error and retried: the operation is invoked three times, not once. *)
Lemma fetch_TypeError_429_is_retried : ~ Props.status_429_attempted_once.
Proof.
  intro H.
  pose (e := Js.mkThrown Js.TypeErrorClass "TypeError" "Failed to fetch"
                         (Js.StatusNum (Js.of_Z 429))).
  specialize (H unit unit (fun w => (Js.Threw e, w)) (fun _ => Js.zero) tt e
                eq_refl eq_refl (fun _ => eq_refl)).
  vm_compute in H. discriminate.
Qed.

(** C2, as amended.  Under the default configuration, an operation that
    always rejects with an [Error] carrying [status = 429] which is not a
    [TypeError] mentioning "fetch" is invoked exactly once and its error
    rethrown; an operation that always rejects with an error carrying
    [status = 503] is invoked [maxRetries + 1] times (three) and its error
    rethrown. *)
Theorem retry_policy_default (W T : Type)
    (requestFn : W -> Js.Outcome T * W) (random : nat -> Js.num)
    (w : W) (e : Js.Thrown) :
  Props.always_rejects requestFn e ->
  let out :=
    ApiRetry.apiRequestWithRetry requestFn random ApiRetry.empty_config w in
  (Js.instanceof_Error e = true ->
   Props.status_is e 429 = true ->
   Props.is_fetch_TypeError e = false ->
   fst out = Js.Threw e /\ ApiRetry.calls (snd out) = 1%nat)
  /\
  (Props.status_is e 503 = true ->
   fst out = Js.Threw e /\
   ApiRetry.calls (snd out) = Z.to_nat (ApiRetry.DEFAULT_maxRetries + 1)).
Proof.
  intros Hrej out.
  pose proof (retry_policy_any_config random ApiRetry.empty_config w
                (ltac:(vm_compute; discriminate)) Hrej) as P.
  cbv zeta in P. fold out in P. destruct P as [P1 P2].
  split.
  - intros HE HS HF. split; [exact P1 |].
    rewrite P2. simpl ApiRetry.or_default.
    now rewrite (status_429_not_retryable e _ HE HS HF).
  - intros HS. split; [exact P1 |].
    rewrite P2. simpl ApiRetry.or_default.
    now rewrite (status_503_retryable e HS).
Qed.

(** A use of the theorem: an operation that keeps failing with HTTP 503
    is invoked three times. *)
Lemma retry_policy_default_witness :
  let e := Js.mkThrown Js.PlainError "Error" "API Error: 503"
                       (Js.StatusNum (Js.of_Z 503)) in
  let requestFn := fun w : unit => (Js.Threw (T := nat) e, w) in
  Props.always_rejects requestFn e /\
  ApiRetry.calls
    (snd (ApiRetry.apiRequestWithRetry requestFn (fun _ => Js.zero)
            ApiRetry.empty_config tt)) = 3%nat.
Proof.
  intros e requestFn.
  assert (R : Props.always_rejects requestFn e) by (intro w; reflexivity).
  split; [exact R |].
  exact (proj2 (proj2 (retry_policy_default (fun _ => Js.zero) tt R)
                      eq_refl)).
Defined.

(** ** Health prober *)

Lemma key_test_isApiKeyConfigured (key : string) :
  negb (Js.str_truthy key) || String.eqb (Js.trim key) ""
  = negb (ApiStatus.isApiKeyConfigured key).
Proof.
  unfold ApiStatus.isApiKeyConfigured.
  destruct (Js.str_truthy key), (String.eqb (Js.trim key) ""); reflexivity.
Qed.

(** A cached result younger than five minutes is returned as it is; the
    state, the count of requests included, is left alone. *)
Lemma checkApiHealth_cache_hit (key : string) (timestamp now : Z)
    (net : ApiStatus.FetchOutcome) (st : ApiStatus.State)
    (c : ApiStatus.ApiHealthResult) :
  ApiStatus.cachedHealthCheck st = Some c ->
  (now - ApiStatus.timestamp c < 5 * 60 * 1000)%Z ->
  ApiStatus.checkApiHealth key false timestamp now net st = (c, st).
Proof.
  intros Hc Hage.
  unfold ApiStatus.checkApiHealth, ApiStatus.cache_hit. simpl.
  rewrite Hc. unfold ApiStatus.isCacheValid, ApiStatus.CACHE_DURATION.
  apply Z.ltb_lt in Hage. simpl in Hage |- *. rewrite Hage. reflexivity.
Qed.

(** Past the cache: what is returned, what is stored, whether a request
    went out. *)
Lemma checkApiHealth_cache_miss (key : string) (skipCache : bool)
    (timestamp now : Z) (net : ApiStatus.FetchOutcome)
    (st : ApiStatus.State) :
  ApiStatus.cache_hit skipCache now st = None ->
  let out := ApiStatus.checkApiHealth key skipCache timestamp now net st in
  let result := fst out in
  let st' := snd out in
  ApiStatus.timestamp result = timestamp /\
  match Props.probe_kind key net with
  | Props.probe_no_key =>
      Props.summary result = (ApiStatus.mock, true, false) /\
      ApiStatus.cachedHealthCheck st' = Some result /\
      ApiStatus.fetches st' = ApiStatus.fetches st
  | Props.probe_2xx =>
      Props.summary result = (ApiStatus.online, false, true) /\
      ApiStatus.cachedHealthCheck st' = Some result /\
      ApiStatus.fetches st' = S (ApiStatus.fetches st)
  | Props.probe_429 =>
      Props.summary result = (ApiStatus.offline, true, true) /\
      ApiStatus.cachedHealthCheck st' = ApiStatus.cachedHealthCheck st /\
      ApiStatus.fetches st' = S (ApiStatus.fetches st)
  | Props.probe_other_status =>
      Props.summary result = (ApiStatus.online, true, true) /\
      ApiStatus.cachedHealthCheck st' = Some result /\
      ApiStatus.fetches st' = S (ApiStatus.fetches st)
  | Props.probe_network_error =>
      Props.summary result = (ApiStatus.mock, true, true) /\
      ApiStatus.cachedHealthCheck st' = Some result /\
      ApiStatus.fetches st' = S (ApiStatus.fetches st)
  end.
Proof.
  intros Hmiss. unfold ApiStatus.checkApiHealth, Props.probe_kind.
  rewrite Hmiss, key_test_isApiKeyConfigured.
  destruct (ApiStatus.isApiKeyConfigured key); simpl.
  - destruct net as [http | e]; simpl.
    + destruct (ApiStatus.response_ok http); simpl; [auto |].
      destruct (http =? 429)%Z; simpl; auto.
    + auto.
  - auto.
Qed.

(** A slot that gave no hit to a call that consulted it gives none to any
    later call. *)
Lemma cache_miss_persists (now now' : Z) (skipCache' : bool)
    (st : ApiStatus.State) :
  ApiStatus.cache_hit false now st = None ->
  (now <= now')%Z ->
  ApiStatus.cache_hit skipCache' now' st = None.
Proof.
  unfold ApiStatus.cache_hit. simpl.
  destruct skipCache'; simpl; [reflexivity |].
  destruct (ApiStatus.cachedHealthCheck st) as [c |]; [| reflexivity].
  unfold ApiStatus.isCacheValid.
  destruct (Z.ltb_spec (now - ApiStatus.timestamp c) ApiStatus.CACHE_DURATION);
    [discriminate |].
  intros _ Hle.
  destruct (Z.ltb_spec (now' - ApiStatus.timestamp c) ApiStatus.CACHE_DURATION);
    [lia | reflexivity].
Qed.

(** C5, counterexample.  A first call stores "online" at time 0.  A second
    call, forced with [skipCache = true] one second later, is answered by
    HTTP 429: it returns "offline" and leaves the slot as it is.  The
    third call, another second later, finds the stored "online" result
    still valid and returns it without probing. *)
Lemma forced_probe_429_keeps_old_entry : ~ Props.probes_afresh_after_429.
Proof.
  intro H.
  pose (st0 := snd (ApiStatus.checkApiHealth "secret" false 0 0
                      (ApiStatus.Responded 200) (ApiStatus.mkState None 0))).
  specialize (H "secret" true 1000%Z 1000%Z st0 2000%Z 2000%Z
                (ApiStatus.Responded 200) eq_refl eq_refl).
  assert (1000 <= 1000 <= 2000)%Z as H1 by lia.
  assert (2000 <= 2000)%Z as H2 by lia.
  specialize (H H1 H2).
  vm_compute in H. discriminate.
Qed.

(** C5, as amended.  A cached result younger than five minutes is returned
    unchanged, without a probe, when [skipCache] is false.  Otherwise the
    outcome (no API key, 2xx, other non-2xx, network error or timeout) is
    written to the slot, except for HTTP 429, which is returned as
    offline with mock data and leaves the slot as it was.  When the call
    answered by 429 had consulted the cache ([skipCache = false]), every
    later call probes afresh; a 429 answer to a forced call can leave a
    still valid older entry behind. *)
Theorem health_cache_discipline (key : string) (skipCache : bool)
    (timestamp now : Z) (net : ApiStatus.FetchOutcome)
    (st : ApiStatus.State) :
  let out := ApiStatus.checkApiHealth key skipCache timestamp now net st in
  (forall c,
     skipCache = false ->
     ApiStatus.cachedHealthCheck st = Some c ->
     (now - ApiStatus.timestamp c < 5 * 60 * 1000)%Z ->
     out = (c, st))
  /\
  (ApiStatus.cache_hit skipCache now st = None ->
   match Props.probe_kind key net with
   | Props.probe_no_key =>
       Props.summary (fst out) = (ApiStatus.mock, true, false) /\
       ApiStatus.cachedHealthCheck (snd out) = Some (fst out) /\
       ApiStatus.fetches (snd out) = ApiStatus.fetches st
   | Props.probe_2xx =>
       Props.summary (fst out) = (ApiStatus.online, false, true) /\
       ApiStatus.cachedHealthCheck (snd out) = Some (fst out) /\
       ApiStatus.fetches (snd out) = S (ApiStatus.fetches st)
   | Props.probe_429 =>
       Props.summary (fst out) = (ApiStatus.offline, true, true) /\
       ApiStatus.cachedHealthCheck (snd out)
       = ApiStatus.cachedHealthCheck st /\
       ApiStatus.fetches (snd out) = S (ApiStatus.fetches st)
   | Props.probe_other_status =>
       Props.summary (fst out) = (ApiStatus.online, true, true) /\
       ApiStatus.cachedHealthCheck (snd out) = Some (fst out) /\
       ApiStatus.fetches (snd out) = S (ApiStatus.fetches st)
   | Props.probe_network_error =>
       Props.summary (fst out) = (ApiStatus.mock, true, true) /\
       ApiStatus.cachedHealthCheck (snd out) = Some (fst out) /\
       ApiStatus.fetches (snd out) = S (ApiStatus.fetches st)
   end)
  /\
  (skipCache = false ->
   ApiStatus.cache_hit skipCache now st = None ->
   Props.probe_kind key net = Props.probe_429 ->
   forall skipCache' timestamp' now' net',
     (now <= now')%Z ->
     ApiStatus.fetches
       (snd (ApiStatus.checkApiHealth key skipCache' timestamp' now' net'
               (snd out)))
     = S (ApiStatus.fetches (snd out))).
Proof.
  intro out. split; [| split].
  - intros c -> Hc Hage. now apply checkApiHealth_cache_hit.
  - intro Hmiss.
    destruct (checkApiHealth_cache_miss key skipCache timestamp now net st
                Hmiss) as [_ H].
    exact H.
  - intros -> Hmiss Hkind skipCache' timestamp' now' net' Hle.
    pose proof (checkApiHealth_cache_miss key false timestamp now net st
                  Hmiss) as [_ H].
    rewrite Hkind in H. fold out in H. destruct H as (_ & Hcache & _).
    assert (ApiStatus.cache_hit skipCache' now' (snd out) = None) as Hmiss'.
    { apply cache_miss_persists with (now := now); [| exact Hle].
      unfold ApiStatus.cache_hit in *. simpl in *.
      rewrite Hcache. exact Hmiss. }
    pose proof (checkApiHealth_cache_miss key skipCache' timestamp' now' net'
                  (snd out) Hmiss') as [_ H'].
    assert (Props.probe_kind key net' <> Props.probe_no_key) as Hkey.
    { unfold Props.probe_kind in *.
      destruct (ApiStatus.isApiKeyConfigured key); simpl in *;
        [| discriminate].
      destruct net' as [http | e];
        [destruct (ApiStatus.response_ok http);
         [| destruct (http =? 429)%Z] |]; discriminate. }
    destruct (Props.probe_kind key net'); try tauto.
Qed.

(** A use of the theorem: a result cached 1 second earlier is returned
    and no request is made. *)
Lemma health_cache_discipline_witness :
  let c := ApiStatus.mkHealth ApiStatus.online "Connected to RapidAPI"
                              0 false true in
  let st := ApiStatus.mkState (Some c) 1 in
  ApiStatus.checkApiHealth "secret" false 1000 1000
    (ApiStatus.Responded 429) st = (c, st).
Proof.
  intros c st.
  apply (proj1 (health_cache_discipline "secret" false 1000 1000
                  (ApiStatus.Responded 429) st) c);
    [reflexivity | reflexivity | vm_compute; reflexivity].
Defined.

(** ** Flight normaliser *)

(** The clock arithmetic on the two times of the example: 02:00 is 120
    minutes, 22:00 is 1320, the difference is negative and wraps to 240
    minutes. *)
Lemma computed_duration_22_02 :
  FlightApi.computed_duration "22:00" "02:00" = "4h 0m".
Proof. vm_compute. reflexivity. Qed.

(** The [duration] field of the normalised flight, spelled out. *)
Lemma normalized_duration_eq (now : Z) (raw : ApiTypes.RawFlightData)
    (options : FlightApi.Options) :
  let f := FlightApi.normalizeFlightObject now raw options in
  let supplied :=
    FlightApi.str_or (ApiTypes.duration raw)
      (FlightApi.str_or (ApiTypes.totalDuration raw)
         (FlightApi.str_or
            (FlightApi.opt_get (ApiTypes.journey raw)
                               ApiTypes.journey_duration)
            (FlightApi.str_or (ApiTypes.raw_time raw) ""))) in
  FlightTypes.duration f =
  if negb (Js.str_truthy supplied)
     && Js.str_truthy (FlightTypes.departureTime f)
     && Js.str_truthy (FlightTypes.arrivalTime f)
  then FlightApi.computed_duration (FlightTypes.departureTime f)
                                   (FlightTypes.arrivalTime f)
  else supplied.
Proof. reflexivity. Qed.

(** C8.  A raw record with [departureTime = "22:00"],
    [arrivalTime = "02:00"] and none of [duration], [totalDuration],
    [journey.duration], [time] supplied is normalised to a flight whose
    duration is "4h 0m", whatever its other fields and the options. *)
Theorem duration_backfill_wraps_midnight (now : Z)
    (raw : ApiTypes.RawFlightData) (options : FlightApi.Options) :
  ApiTypes.departureTime raw = Some "22:00" ->
  ApiTypes.arrivalTime raw = Some "02:00" ->
  ApiTypes.duration raw = None ->
  ApiTypes.totalDuration raw = None ->
  FlightApi.opt_get (ApiTypes.journey raw) ApiTypes.journey_duration = None ->
  ApiTypes.raw_time raw = None ->
  FlightTypes.duration (FlightApi.normalizeFlightObject now raw options)
  = "4h 0m".
Proof.
  intros Hd Ha H1 H2 H3 H4.
  rewrite normalized_duration_eq. cbv zeta.
  rewrite H1, H2, H3, H4.
  unfold FlightApi.normalizeFlightObject.
  cbn [FlightTypes.departureTime FlightTypes.arrivalTime].
  rewrite Hd, Ha.
  cbn [FlightApi.str_or Js.str_truthy negb andb].
  apply computed_duration_22_02.
Qed.

(** A use of the theorem: the record that carries the two times and
    nothing else. *)
Lemma duration_backfill_wraps_midnight_witness :
  let raw :=
    ApiTypes.mkRaw None None None None None None None
      (Some "22:00") (Some "02:00")
      None None None None None None None None None None None None None None
      None None None None None None None None None None None None None None
      None None None None None None in
  FlightTypes.duration
    (FlightApi.normalizeFlightObject 1700000000000 raw FlightApi.no_options)
  = "4h 0m".
Proof.
  intro raw.
  apply (duration_backfill_wraps_midnight 1700000000000 raw
           FlightApi.no_options);
    reflexivity.
Defined.

(** [Math.max(0, x)] is at least zero when [x] is a finite number. *)
Lemma max2_zero_nonneg (q : Q) :
  Js.geb (Js.max2 Js.zero (Js.Fin q)) Js.zero = true.
Proof.
  unfold Js.max2, Js.geb, Js.leb. simpl.
  destruct (Qcompare (inject_Z 0) q) eqn:E; simpl; try reflexivity.
  now rewrite E.
Qed.

(** The [||] chain over the four price fields picks the first truthy
    one. *)
Lemma price_chain_selected (raw : ApiTypes.RawFlightData) :
  FlightApi.value_or (ApiTypes.price raw)
    (FlightApi.value_or (ApiTypes.amount raw)
       (FlightApi.value_or (ApiTypes.total raw)
          (FlightApi.value_or (ApiTypes.fare raw)
             (ApiTypes.VNum Js.zero))))
  = match Props.selected_price raw with
    | Some v => v
    | None => ApiTypes.VNum Js.zero
    end.
Proof.
  unfold Props.selected_price, FlightApi.value_or. simpl.
  destruct (ApiTypes.price raw) as [v1 |]; simpl;
    [destruct (FlightApi.value_truthy v1); [reflexivity |] |];
    (destruct (ApiTypes.amount raw) as [v2 |]; simpl;
     [destruct (FlightApi.value_truthy v2); [reflexivity |] |];
     (destruct (ApiTypes.total raw) as [v3 |]; simpl;
      [destruct (FlightApi.value_truthy v3); [reflexivity |] |];
      (destruct (ApiTypes.fare raw) as [v4 |]; simpl;
       [destruct (FlightApi.value_truthy v4); reflexivity | reflexivity]))).
Qed.

(** C1, counterexample.  A record priced -120 is normalised to a flight
    priced -120, and a record with [stops = -1] to a flight with
    [stops = -1]: a supplied number is passed on as it is.  Neither flight
    satisfies [price >= 0] and [stops >= 0]. *)
Lemma normalizer_keeps_negative_fields :
  ~ Props.nonneg_invariant
      (FlightApi.normalizeFlightObject 0
         (Props.raw_price_stops (Some (ApiTypes.VNum (Js.of_Z (-120)))) None)
         FlightApi.no_options)
  /\
  ~ Props.nonneg_invariant
      (FlightApi.normalizeFlightObject 0
         (Props.raw_price_stops (Some (ApiTypes.VNum (Js.of_Z 120)))
                                (Some (Js.of_Z (-1))))
         FlightApi.no_options).
Proof.
  repeat split; intros [Hp Hs]; vm_compute in Hp, Hs; discriminate.
Qed.

(** C1, as amended.  For every raw record and every options argument, the
    stop count of the normalised flight is the [stops] field when the
    record supplies one, and otherwise the number of segments less one,
    not below zero, or zero without segments; it is at least zero exactly
    when the record supplies no [stops] or one that is at least zero.
    When the first truthy one of [price], [amount], [total], [fare] is a
    number, or a text that [parseFloat] reads as a number, or there is
    none, the price of the flight is that number (zero when there is
    none), and it is at least zero exactly when that number is.  What the
    price is for a text that does not read as a number is not part of the
    statement. *)
Theorem normalizer_nonneg_iff (now : Z) (raw : ApiTypes.RawFlightData)
    (options : FlightApi.Options) :
  let f := FlightApi.normalizeFlightObject now raw options in
  FlightTypes.stops f = Props.stops_source raw
  /\
  (Js.geb (FlightTypes.stops f) Js.zero = true
   <-> Props.stops_source_nonneg raw)
  /\
  (Props.price_parses raw ->
   FlightTypes.price f = Props.price_source raw /\
   (Js.geb (FlightTypes.price f) Js.zero = true
    <-> Props.price_source_nonneg raw)).
Proof.
  intro f. subst f. unfold FlightApi.normalizeFlightObject.
  cbn [FlightTypes.stops FlightTypes.price].
  split; [| split].
  - unfold Props.stops_source.
    destruct (ApiTypes.stops raw) as [n |]; simpl; [reflexivity |].
    destruct (ApiTypes.segments raw) as [segs |]; reflexivity.
  - unfold Props.stops_source_nonneg.
    destruct (ApiTypes.stops raw) as [n |]; simpl; [tauto |].
    destruct (ApiTypes.segments raw) as [segs |]; simpl.
    + split; [trivial | intros _; apply max2_zero_nonneg].
    + split; [trivial | reflexivity].
  - intros _. rewrite price_chain_selected.
    unfold Props.price_source, Props.price_source_nonneg.
    destruct (Props.selected_price raw) as [[n | s] |]; simpl;
      (split; [reflexivity | tauto]).
Qed.

(** A record priced by the text ["455.50 USD"]: the text reads as a
    number, which is the price of the flight. *)
Example normalizer_reads_price_and_segments :
  let raw :=
    ApiTypes.mkRaw None None None None None None None None None None None
      None None None None None None None None None None
      (Some (ApiTypes.VStr "455.50 USD")) None None None None None
      None None None None None None None None None None None None None None
      None None in
  Props.price_parses raw /\
  FlightTypes.price
    (FlightApi.normalizeFlightObject 0 raw FlightApi.no_options)
  = Js.Fin (911 # 2).
Proof. split; vm_compute; reflexivity. Qed.

(** The text of a price that [parseFloat] makes nothing of leaves the
    flight with the price [NaN]: the default [|| 0] of the chain applies
    to the field, before the text is read, and not to the number read
    from it. *)
Example normalizer_unparsable_price :
  FlightTypes.price
    (FlightApi.normalizeFlightObject 0
       (Props.raw_price_stops (Some (ApiTypes.VStr "n/a")) None)
       FlightApi.no_options)
  = Js.NaN.
Proof. vm_compute. reflexivity. Qed.

(** ** The order on numbers *)

(** Decides the comparisons of rationals in a goal and closes the cases
    that are impossible or immediate. *)
Ltac q_compare :=
  repeat match goal with
         | |- context [Qcompare ?x ?y] => destruct (Qcompare_spec x y)
         | H : context [Qcompare ?x ?y] |- _ => destruct (Qcompare_spec x y)
         end;
  try discriminate; try reflexivity; try (exfalso; lra).

Ltac num_order :=
  unfold Js.geb, Js.gtb, Js.ltb, Js.leb, Js.eqb, Js.max2, Js.min2,
    Js.cmp, Js.is_nan in *;
  simpl in *; try discriminate; try reflexivity; q_compare.

Lemma leb_not_nan (a b : Js.num) :
  Js.leb a b = true -> Js.is_nan a = false /\ Js.is_nan b = false.
Proof. destruct a, b; intro H; split; num_order. Qed.

Lemma leb_refl (a : Js.num) : Js.is_nan a = false -> Js.leb a a = true.
Proof. destruct a; intro H; num_order. Qed.

Lemma leb_trans (a b c : Js.num) :
  Js.leb a b = true -> Js.leb b c = true -> Js.leb a c = true.
Proof. destruct a, b, c; intros H1 H2; num_order. Qed.

Lemma leb_total (a b : Js.num) :
  Js.is_nan a = false -> Js.is_nan b = false ->
  Js.leb a b = true \/ Js.leb b a = true.
Proof.
  destruct a as [| | | x], b as [| | | y]; intros H1 H2;
    try discriminate; try (left; reflexivity); try (right; reflexivity).
  unfold Js.leb, Js.cmp.
  destruct (Qcompare_spec x y); [left | left | right]; try reflexivity.
  destruct (Qcompare_spec y x); try reflexivity; exfalso; lra.
Qed.

(** Two numbers each below the other are the same number; dividing them
    by a third gives the same result. *)
Lemma leb_antisym_div (a b c : Js.num) :
  Js.leb a b = true -> Js.leb b a = true -> Js.div a c = Js.div b c.
Proof.
  destruct a as [| | | x], b as [| | | y]; intros H1 H2;
    try discriminate; try reflexivity.
  assert (x == y)%Q as E by (revert H1 H2; num_order; intros; lra).
  destruct c as [| | | z]; unfold Js.div; try reflexivity.
  destruct (Qeq_bool z 0).
  - unfold Js.Qsign. now rewrite E.
  - f_equal. apply Qred_complete. now rewrite E.
Qed.

Lemma positive_not_nan (p : Js.num) :
  Props.positive p = true -> Js.is_nan p = false.
Proof. destruct p; intro H; try reflexivity; discriminate. Qed.

Lemma min2_spec (a b : Js.num) :
  Js.is_nan a = false -> Js.is_nan b = false ->
  (Js.min2 a b = a \/ Js.min2 a b = b) /\
  Js.leb (Js.min2 a b) a = true /\ Js.leb (Js.min2 a b) b = true.
Proof.
  intros Ha Hb.
  destruct a as [| | | x], b as [| | | y]; try discriminate;
    unfold Js.min2, Js.leb, Js.cmp;
    try destruct (Qcompare_spec x y);
    repeat split; auto; q_compare.
Qed.

Lemma max2_spec (a b : Js.num) :
  Js.is_nan a = false -> Js.is_nan b = false ->
  (Js.max2 a b = a \/ Js.max2 a b = b) /\
  Js.leb a (Js.max2 a b) = true /\ Js.leb b (Js.max2 a b) = true.
Proof.
  intros Ha Hb.
  destruct a as [| | | x], b as [| | | y]; try discriminate;
    unfold Js.max2, Js.leb, Js.cmp;
    try destruct (Qcompare_spec x y);
    repeat split; auto; q_compare.
Qed.

(** ** Price range *)

Lemma min2_not_nan (a b : Js.num) :
  Js.is_nan a = false -> Js.is_nan b = false ->
  Js.is_nan (Js.min2 a b) = false.
Proof.
  intros Ha Hb. destruct (min2_spec a b Ha Hb) as [[-> | ->] _]; assumption.
Qed.

Lemma max2_not_nan (a b : Js.num) :
  Js.is_nan a = false -> Js.is_nan b = false ->
  Js.is_nan (Js.max2 a b) = false.
Proof.
  intros Ha Hb. destruct (max2_spec a b Ha Hb) as [[-> | ->] _]; assumption.
Qed.

(** The running minimum of [Math.min]: it is the start value or an
    element, and it is below the start value and every element. *)
Lemma fold_min2_spec (l : list Js.num) :
  (forall p, In p l -> Js.is_nan p = false) ->
  forall acc, Js.is_nan acc = false ->
    let m := fold_left Js.min2 l acc in
    (m = acc \/ In m l) /\
    Js.leb m acc = true /\
    forall p, In p l -> Js.leb m p = true.
Proof.
  induction l as [| x l IH]; intros Hl acc Hacc; simpl.
  - repeat split; auto using leb_refl; intros p [].
  - assert (Hx : Js.is_nan x = false) by (apply Hl; left; reflexivity).
    destruct (min2_spec acc x Hacc Hx) as (Hsel & Hle_acc & Hle_x).
    destruct (IH (fun p Hp => Hl p (or_intror Hp)) (Js.min2 acc x)
                 (min2_not_nan acc x Hacc Hx)) as (Hm & Hle & Hall).
    repeat split.
    + destruct Hm as [Hm | Hm]; [| right; right; exact Hm].
      rewrite Hm. destruct Hsel as [-> | ->]; [left | right; left];
        reflexivity.
    + eapply leb_trans; eassumption.
    + intros p [<- | Hp]; [eapply leb_trans; eassumption | now apply Hall].
Qed.

Lemma fold_max2_spec (l : list Js.num) :
  (forall p, In p l -> Js.is_nan p = false) ->
  forall acc, Js.is_nan acc = false ->
    let m := fold_left Js.max2 l acc in
    (m = acc \/ In m l) /\
    Js.leb acc m = true /\
    forall p, In p l -> Js.leb p m = true.
Proof.
  induction l as [| x l IH]; intros Hl acc Hacc; simpl.
  - repeat split; auto using leb_refl; intros p [].
  - assert (Hx : Js.is_nan x = false) by (apply Hl; left; reflexivity).
    destruct (max2_spec acc x Hacc Hx) as (Hsel & Hle_acc & Hle_x).
    destruct (IH (fun p Hp => Hl p (or_intror Hp)) (Js.max2 acc x)
                 (max2_not_nan acc x Hacc Hx)) as (Hm & Hle & Hall).
    repeat split.
    + destruct Hm as [Hm | Hm]; [| right; right; exact Hm].
      rewrite Hm. destruct Hsel as [-> | ->]; [left | right; left];
        reflexivity.
    + eapply leb_trans; eassumption.
    + intros p [<- | Hp]; [eapply leb_trans; eassumption | now apply Hall].
Qed.

Lemma leb_PosInf_inv (p : Js.num) :
  Js.leb Js.PosInf p = true -> p = Js.PosInf.
Proof. destruct p; intro H; try discriminate; reflexivity. Qed.

Lemma leb_NegInf_inv (p : Js.num) :
  Js.leb p Js.NegInf = true -> p = Js.NegInf.
Proof. destruct p; intro H; try discriminate; reflexivity. Qed.

(** On a non-empty list without [NaN], [Math.min] returns a least element
    and [Math.max] a greatest one. *)
Lemma min_list_least (l : list Js.num) :
  l <> [] ->
  (forall p, In p l -> Js.is_nan p = false) ->
  Props.is_least (Js.min_list l) l.
Proof.
  intros Hne Hl.
  destruct (fold_min2_spec l Hl Js.PosInf eq_refl) as (Hm & _ & Hall).
  fold (Js.min_list l) in Hm, Hall.
  split; [| exact Hall].
  destruct Hm as [Hm | Hm]; [| exact Hm].
  destruct l as [| x l]; [congruence |].
  pose proof (Hall x (or_introl eq_refl)) as Hx.
  rewrite Hm in Hx. apply leb_PosInf_inv in Hx.
  rewrite Hm, <- Hx. left; reflexivity.
Qed.

Lemma max_list_greatest (l : list Js.num) :
  l <> [] ->
  (forall p, In p l -> Js.is_nan p = false) ->
  Props.is_greatest (Js.max_list l) l.
Proof.
  intros Hne Hl.
  destruct (fold_max2_spec l Hl Js.NegInf eq_refl) as (Hm & _ & Hall).
  fold (Js.max_list l) in Hm, Hall.
  split; [| exact Hall].
  destruct Hm as [Hm | Hm]; [| exact Hm].
  destruct l as [| x l]; [congruence |].
  pose proof (Hall x (or_introl eq_refl)) as Hx.
  rewrite Hm in Hx. apply leb_NegInf_inv in Hx.
  rewrite Hm, <- Hx. left; reflexivity.
Qed.

(** The derived range is the same for any two least elements and any two
    greatest elements. *)
Lemma rounded_range_unique (l : list Js.num) (lo lo' hi hi' : Js.num) :
  Props.is_least lo l -> Props.is_least lo' l ->
  Props.is_greatest hi l -> Props.is_greatest hi' l ->
  Props.rounded_range lo hi = Props.rounded_range lo' hi'.
Proof.
  intros [Il Ll] [Il' Ll'] [Ih Lh] [Ih' Lh'].
  unfold Props.rounded_range, Js64.div.
  rewrite (leb_antisym_div lo lo' (Js.of_Z 100) (Ll lo' Il') (Ll' lo Il)).
  rewrite (leb_antisym_div hi hi' (Js.of_Z 100) (Lh' hi Ih) (Lh hi' Ih')).
  reflexivity.
Qed.

(** C10.  [calculatePriceRange] depends only on the strictly positive
    entries of its argument.  Without any it returns [{min: 0, max:
    10000}]; otherwise, with [lo] the least and [hi] the greatest positive
    price, it returns [min = max(0, floor(lo / 100) * 100)] and [max =
    ceil(hi / 100) * 100], the quotients and the products being those of
    doubles, as the code computes them.  On [[120, 455, 999]] that is
    [{min: 100, max: 1000}]. *)
Theorem calculatePriceRange_spec :
  (forall prices,
     let positives := filter Props.positive prices in
     (forall prices',
        filter Props.positive prices' = positives ->
        PriceRange.calculatePriceRange prices'
        = PriceRange.calculatePriceRange prices)
     /\
     (positives = [] ->
      PriceRange.calculatePriceRange prices
      = PriceRange.mkRange (Js.of_Z 0) (Js.of_Z 10000))
     /\
     (positives <> [] ->
      (exists lo hi,
         Props.is_least lo positives /\ Props.is_greatest hi positives)
      /\
      forall lo hi,
        Props.is_least lo positives -> Props.is_greatest hi positives ->
        PriceRange.calculatePriceRange prices = Props.rounded_range lo hi))
  /\
  PriceRange.calculatePriceRange [Js.of_Z 120; Js.of_Z 455; Js.of_Z 999]
  = PriceRange.mkRange (Js.of_Z 100) (Js.of_Z 1000).
Proof.
  split; [| vm_compute; reflexivity].
  intros prices positives.
  assert (Hdef : forall l,
             PriceRange.calculatePriceRange l =
             match filter Props.positive l with
             | [] => PriceRange.mkRange (Js.of_Z 0) (Js.of_Z 10000)
             | _ :: _ =>
                 Props.rounded_range
                   (Js.min_list (filter Props.positive l))
                   (Js.max_list (filter Props.positive l))
             end).
  { intro l. unfold PriceRange.calculatePriceRange.
    fold Props.positive.
    destruct (filter Props.positive l); reflexivity. }
  assert (Hnn : forall p, In p positives -> Js.is_nan p = false).
  { intros p Hp. apply filter_In in Hp. now apply positive_not_nan. }
  split; [| split].
  - intros prices' E. rewrite !Hdef, E. reflexivity.
  - intro E. rewrite Hdef. fold positives. rewrite E. reflexivity.
  - intro Hne.
    pose proof (min_list_least Hne Hnn) as Hmin.
    pose proof (max_list_greatest Hne Hnn) as Hmax.
    split; [exists (Js.min_list positives), (Js.max_list positives); auto |].
    intros lo hi Hlo Hhi. rewrite Hdef. fold positives.
    destruct positives as [| x rest] eqn:E; [congruence |].
    now apply rounded_range_unique with (l := x :: rest).
Qed.

(** ** Rounding to a double

    What the properties below need of [Js64]: rounding is monotone, it
    leaves a double as it is, and the doubles include [m * 2 ^ j] for
    every [m] below [2 ^ 53] and [j] from [-1074]. *)

Lemma pow2_pos e : (0 < Js64.pow2 e)%Q.
Proof. apply Qpower_0_lt. reflexivity. Qed.

Lemma pow2_add a b : (Js64.pow2 (a + b) == Js64.pow2 a * Js64.pow2 b)%Q.
Proof. apply Qpower_plus. discriminate. Qed.

Lemma pow2_le a b : a <= b -> (Js64.pow2 a <= Js64.pow2 b)%Q.
Proof. intro H. apply Qpower_le_compat_l; [exact H | discriminate]. Qed.

Lemma pow2_lt a b : a < b -> (Js64.pow2 a < Js64.pow2 b)%Q.
Proof. intro H. apply Qpower_lt_compat_l; [exact H | reflexivity]. Qed.

Lemma pow2_Z n : 0 <= n -> (Js64.pow2 n == inject_Z (2 ^ n))%Q.
Proof. intro H. unfold Js64.pow2. now rewrite Zpower_Qpower. Qed.

Lemma pow2_split a b : (Js64.pow2 a == Js64.pow2 (a - b) * Js64.pow2 b)%Q.
Proof. rewrite <- pow2_add. now replace (a - b + b) with a by lia. Qed.

Lemma div_pow2 (a : Q) e f :
  (a * Js64.pow2 e / Js64.pow2 f == a * Js64.pow2 (e - f))%Q.
Proof.
  rewrite (pow2_split e f). pose proof (pow2_pos f). field. lra.
Qed.

(** [a > 0] lies in its binade. *)
Lemma binade_spec (a : Q) :
  (0 < a)%Q ->
  (Js64.pow2 (Js64.binade a) <= a < Js64.pow2 (Js64.binade a + 1))%Q.
Proof.
  intro Ha. destruct a as [n d].
  assert (Hn : 0 < n) by (unfold Qlt in Ha; simpl in Ha; lia).
  unfold Js64.binade. cbn [Qnum Qden].
  set (ln := Z.log2 n). set (ld := Z.log2 (Zpos d)).
  destruct (Z.log2_spec n Hn) as [N1 N2]. fold ln in N1, N2.
  destruct (Z.log2_spec (Zpos d) (eq_refl : 0 < Zpos d)) as [D1 D2].
  fold ld in D1, D2.
  assert (Hln : 0 <= ln) by apply Z.log2_nonneg.
  assert (Hld : 0 <= ld) by apply Z.log2_nonneg.
  assert (A : (n # d == inject_Z n / inject_Z (Zpos d))%Q)
    by apply Qmake_Qdiv.
  assert (Dpos : (0 < inject_Z (Zpos d))%Q) by reflexivity.
  assert (QN1 : (Js64.pow2 ln <= inject_Z n)%Q)
    by (rewrite pow2_Z by lia; now rewrite <- Zle_Qle).
  assert (QN2 : (inject_Z n < Js64.pow2 (ln + 1))%Q).
  { rewrite pow2_Z by lia. rewrite <- Zlt_Qlt.
    now replace (ln + 1) with (Z.succ ln) by lia. }
  assert (QD1 : (Js64.pow2 ld <= inject_Z (Zpos d))%Q)
    by (rewrite pow2_Z by lia; now rewrite <- Zle_Qle).
  assert (QD2 : (inject_Z (Zpos d) < Js64.pow2 (ld + 1))%Q).
  { rewrite pow2_Z by lia. rewrite <- Zlt_Qlt.
    now replace (ld + 1) with (Z.succ ld) by lia. }
  (* the two outer bounds *)
  assert (Lo : (Js64.pow2 (ln - ld - 1) < n # d)%Q).
  { rewrite A. apply Qlt_shift_div_l; [exact Dpos |].
    apply Qlt_le_trans with (Js64.pow2 (ln - ld - 1) * Js64.pow2 (ld + 1))%Q.
    - apply Qmult_lt_l; [apply pow2_pos | exact QD2].
    - rewrite <- pow2_add. now replace (ln - ld - 1 + (ld + 1)) with ln by lia. }
  assert (Hi : (n # d < Js64.pow2 (ln - ld + 1))%Q).
  { rewrite A. apply Qlt_shift_div_r; [exact Dpos |].
    apply Qlt_le_trans with (Js64.pow2 (ln - ld + 1) * Js64.pow2 ld)%Q.
    - rewrite <- pow2_add. now replace (ln - ld + 1 + ld) with (ln + 1) by lia.
    - apply Qmult_le_l; [apply pow2_pos | exact QD1]. }
  destruct (Qle_bool (Js64.pow2 (ln - ld)) (n # d)) eqn:E.
  - apply Qle_bool_iff in E. split; assumption.
  - split.
    + apply Qlt_le_weak. exact Lo.
    + replace (ln - ld - 1 + 1) with (ln - ld) by lia.
      apply Qnot_le_lt. intro H. apply Qle_bool_iff in H. congruence.
Qed.

(** The binade is the only exponent with that property. *)
Lemma binade_unique (a : Q) (e : Z) :
  (Js64.pow2 e <= a < Js64.pow2 (e + 1))%Q -> Js64.binade a = e.
Proof.
  intros [L U].
  assert (Ha : (0 < a)%Q) by (pose proof (pow2_pos e); lra).
  destruct (binade_spec Ha) as [L' U'].
  set (b := Js64.binade a) in *.
  destruct (Z.lt_trichotomy b e) as [H | [H | H]]; [| exact H |]; exfalso.
  - assert (Js64.pow2 (b + 1) <= Js64.pow2 e)%Q by (apply pow2_le; lia). lra.
  - assert (Js64.pow2 (e + 1) <= Js64.pow2 b)%Q by (apply pow2_le; lia). lra.
Qed.

Lemma binade_monotone (a b : Q) :
  (0 < a)%Q -> (a <= b)%Q -> Js64.binade a <= Js64.binade b.
Proof.
  intros Ha Hab.
  assert (Hb : (0 < b)%Q) by lra.
  destruct (binade_spec Ha) as [La Ua]. destruct (binade_spec Hb) as [Lb Ub].
  destruct (Z_le_gt_dec (Js64.binade a) (Js64.binade b)) as [H | H];
    [exact H | exfalso].
  assert (Js64.pow2 (Js64.binade b + 1) <= Js64.pow2 (Js64.binade a))%Q
    by (apply pow2_le; lia).
  lra.
Qed.


(** ** Rounding to the nearest integer *)

#[global] Instance round_even_comp : Proper (Qeq ==> eq) Js64.round_even.
Proof.
  intros x y E. unfold Js64.round_even.
  rewrite (Qfloor_comp _ _ E).
  assert (E' : (x - inject_Z (Qfloor y) == y - inject_Z (Qfloor y))%Q)
    by now rewrite E.
  now rewrite (Qcompare_comp _ _ E' _ _ (Qeq_refl (1 # 2))).
Qed.

Lemma round_even_Z (z : Z) : Js64.round_even (inject_Z z) = z.
Proof.
  unfold Js64.round_even. rewrite Qfloor_Z.
  destruct (Qcompare_spec (inject_Z z - inject_Z z) (1 # 2));
    [exfalso; lra | reflexivity | exfalso; lra].
Qed.

Lemma round_even_bounds (x : Q) :
  Qfloor x <= Js64.round_even x <= Qfloor x + 1.
Proof.
  unfold Js64.round_even.
  destruct (x - inject_Z (Qfloor x) ?= 1 # 2)%Q; [| lia | lia].
  destruct (Z.even (Qfloor x)); lia.
Qed.

Lemma round_even_monotone (x y : Q) :
  (x <= y)%Q -> Js64.round_even x <= Js64.round_even y.
Proof.
  intro H.
  pose proof (Qfloor_resp_le _ _ H) as F.
  pose proof (round_even_bounds x) as Bx.
  pose proof (round_even_bounds y) as By.
  destruct (Z.eq_dec (Qfloor x) (Qfloor y)) as [E | NE]; [| lia].
  unfold Js64.round_even in *. rewrite <- E in *.
  set (f := Qfloor x) in *.
  destruct (Qcompare_spec (x - inject_Z f) (1 # 2));
    destruct (Qcompare_spec (y - inject_Z f) (1 # 2));
    try destruct (Z.even f); try lia; exfalso; lra.
Qed.

Lemma round_even_nonneg (x : Q) : (0 <= x)%Q -> 0 <= Js64.round_even x.
Proof.
  intro H. rewrite <- (round_even_Z 0). now apply round_even_monotone.
Qed.

(** ** Rounding a positive rational *)

Lemma quantum_lower (a : Q) : -1074 <= Js64.quantum a.
Proof. unfold Js64.quantum. lia. Qed.

Lemma round_pos_nonneg (a : Q) : (0 <= a)%Q -> (0 <= Js64.round_pos a)%Q.
Proof.
  intro H. unfold Js64.round_pos.
  apply Qmult_le_0_compat; [| apply Qlt_le_weak, pow2_pos].
  change 0%Q with (inject_Z 0). rewrite <- Zle_Qle.
  apply round_even_nonneg.
  apply Qle_shift_div_l; [apply pow2_pos | lra].
Qed.

(** A multiple of the quantum above [a] is above its rounding, and one
    below is below. *)
Lemma round_pos_below (a : Q) (m : Z) :
  (a <= inject_Z m * Js64.pow2 (Js64.quantum a))%Q ->
  (Js64.round_pos a <= inject_Z m * Js64.pow2 (Js64.quantum a))%Q.
Proof.
  intro H. unfold Js64.round_pos.
  pose proof (pow2_pos (Js64.quantum a)) as P.
  apply Qmult_le_compat_r; [| lra].
  rewrite <- Zle_Qle. rewrite <- (round_even_Z m).
  apply round_even_monotone.
  apply Qle_shift_div_r; [exact P | exact H].
Qed.

Lemma round_pos_above (a : Q) (m : Z) :
  (inject_Z m * Js64.pow2 (Js64.quantum a) <= a)%Q ->
  (inject_Z m * Js64.pow2 (Js64.quantum a) <= Js64.round_pos a)%Q.
Proof.
  intro H. unfold Js64.round_pos.
  pose proof (pow2_pos (Js64.quantum a)) as P.
  apply Qmult_le_compat_r; [| lra].
  rewrite <- Zle_Qle. rewrite <- (round_even_Z m) at 1.
  apply round_even_monotone.
  apply Qle_shift_div_l; [exact P | exact H].
Qed.

(** A power of two at or above the quantum is a multiple of it. *)
Lemma pow2_multiple (e f : Z) :
  f <= e -> (Js64.pow2 e == inject_Z (2 ^ (e - f)) * Js64.pow2 f)%Q.
Proof.
  intro H. rewrite <- pow2_Z by lia. apply pow2_split.
Qed.

Lemma round_pos_monotone (a b : Q) :
  (0 < a)%Q -> (a <= b)%Q -> (Js64.round_pos a <= Js64.round_pos b)%Q.
Proof.
  intros Ha Hab.
  assert (Hb : (0 < b)%Q) by lra.
  pose proof (binade_monotone Ha Hab) as Hbin.
  destruct (Z.eq_dec (Js64.quantum a) (Js64.quantum b)) as [E | NE].
  - unfold Js64.round_pos. rewrite E.
    pose proof (pow2_pos (Js64.quantum b)) as P.
    apply Qmult_le_compat_r; [| lra].
    rewrite <- Zle_Qle. apply round_even_monotone.
    apply Qmult_le_compat_r; [exact Hab |].
    apply Qlt_le_weak, Qinv_lt_0_compat, P.
  - destruct (binade_spec Ha) as [La Ua]. destruct (binade_spec Hb) as [Lb Ub].
    set (B := Js64.binade b) in *.
    assert (Hq : Js64.quantum a < Js64.quantum b /\ Js64.binade a < B /\
                 Js64.quantum b <= B).
    { unfold Js64.quantum in *. fold B. fold B in NE. lia. }
    destruct Hq as (Hq & Hlt & HqB).
    assert (Hmid : (Js64.pow2 (Js64.binade a + 1) <= Js64.pow2 B)%Q)
      by (apply pow2_le; lia).
    apply Qle_trans with (Js64.pow2 B).
    + rewrite (pow2_multiple (e := B) (f := Js64.quantum a)) by lia.
      apply round_pos_below.
      rewrite <- pow2_multiple by lia. lra.
    + rewrite (pow2_multiple (e := B) (f := Js64.quantum b)) by lia.
      apply round_pos_above.
      rewrite <- pow2_multiple by lia. lra.
Qed.


(** ** Rounding to a double *)

Lemma binade_comp (a b : Q) :
  (0 < a)%Q -> (a == b)%Q -> Js64.binade a = Js64.binade b.
Proof.
  intros Ha E. symmetry. apply binade_unique. rewrite <- E.
  now apply binade_spec.
Qed.

Lemma round_pos_comp (a b : Q) :
  (0 < a)%Q -> (a == b)%Q -> (Js64.round_pos a == Js64.round_pos b)%Q.
Proof.
  intros Ha E. unfold Js64.round_pos, Js64.quantum.
  rewrite <- (binade_comp Ha E).
  set (e := Z.max (Js64.binade a - 52) (-1074)).
  assert (R : Js64.round_even (a / Js64.pow2 e)
              = Js64.round_even (b / Js64.pow2 e))
    by (apply round_even_comp; now rewrite E).
  now rewrite R.
Qed.

Lemma round64_comp (p q : Q) :
  (p == q)%Q -> Js64.round64 p = Js64.round64 q.
Proof.
  intro E. unfold Js64.round64.
  rewrite <- (Qcompare_comp _ _ E _ _ (Qeq_refl 0)).
  destruct (Qcompare_spec p 0) as [H | H | H]; [reflexivity | |].
  - assert (R : (Js64.round_pos (- p) == Js64.round_pos (- q))%Q)
      by (apply round_pos_comp; [lra | now rewrite E]).
    rewrite <- (Qleb_comp _ _ (Qeq_refl (Js64.pow2 1024)) _ _ R).
    destruct (Qle_bool _ _); [reflexivity |].
    f_equal. apply Qred_complete. now rewrite R.
  - assert (R : (Js64.round_pos p == Js64.round_pos q)%Q)
      by (now apply round_pos_comp).
    rewrite <- (Qleb_comp _ _ (Qeq_refl (Js64.pow2 1024)) _ _ R).
    destruct (Qle_bool _ _); [reflexivity |].
    f_equal. now apply Qred_complete.
Qed.

Lemma round64_pos (q : Q) :
  (0 < q)%Q ->
  Js64.round64 q =
  if Qle_bool (Js64.pow2 1024) (Js64.round_pos q) then Js.PosInf
  else Js.Fin (Qred (Js64.round_pos q)).
Proof.
  intro H. unfold Js64.round64.
  destruct (Qcompare_spec q 0); [exfalso; lra | exfalso; lra | reflexivity].
Qed.

Lemma round64_zero (q : Q) : (q == 0)%Q -> Js64.round64 q = Js.Fin 0.
Proof.
  intro H. unfold Js64.round64.
  destruct (Qcompare_spec q 0); [reflexivity | exfalso; lra | exfalso; lra].
Qed.

(** Rounding keeps a number that is not negative so. *)
Lemma round64_nonneg (q : Q) :
  (0 <= q)%Q -> Js.leb (Js.Fin 0) (Js64.round64 q) = true.
Proof.
  intro H. destruct (Qlt_le_dec 0 q) as [P | P].
  - rewrite (round64_pos P).
    destruct (Qle_bool _ _); [reflexivity |].
    pose proof (round_pos_nonneg H) as N.
    pose proof (Qred_correct (Js64.round_pos q)) as R.
    unfold Js.leb, Js.cmp.
    destruct (Qcompare_spec 0 (Qred (Js64.round_pos q)));
      [reflexivity | reflexivity | exfalso; lra].
  - rewrite round64_zero by lra. reflexivity.
Qed.

(** Rounding is monotone. *)
Lemma round64_monotone (p q : Q) :
  (0 <= p)%Q -> (p <= q)%Q ->
  Js.leb (Js64.round64 p) (Js64.round64 q) = true.
Proof.
  intros Hp Hpq. destruct (Qlt_le_dec 0 p) as [P | P].
  - assert (Q0 : (0 < q)%Q) by lra.
    rewrite (round64_pos P), (round64_pos Q0).
    pose proof (round_pos_monotone P Hpq) as M.
    pose proof (Qred_correct (Js64.round_pos p)) as Rp.
    pose proof (Qred_correct (Js64.round_pos q)) as Rq.
    destruct (Qle_bool (Js64.pow2 1024) (Js64.round_pos p)) eqn:Ep;
      destruct (Qle_bool (Js64.pow2 1024) (Js64.round_pos q)) eqn:Eq;
      try reflexivity.
    + exfalso. apply Qle_bool_iff in Ep.
      assert (Qle_bool (Js64.pow2 1024) (Js64.round_pos q) = true)
        by (apply Qle_bool_iff; lra).
      congruence.
    + unfold Js.leb, Js.cmp.
      destruct (Qcompare_spec (Qred (Js64.round_pos p))
                              (Qred (Js64.round_pos q)));
        [reflexivity | reflexivity | exfalso; lra].
  - rewrite (round64_zero (q := p)) by lra. apply round64_nonneg. lra.
Qed.

(** ** Numbers that rounding leaves as they are *)

Lemma round_pos_dyadic (m j : Z) :
  0 < m < 2 ^ 53 -> -1074 <= j ->
  (Js64.round_pos (inject_Z m * Js64.pow2 j) == inject_Z m * Js64.pow2 j)%Q.
Proof.
  intros [M0 M1] Hj.
  set (a := (inject_Z m * Js64.pow2 j)%Q).
  set (b := Z.log2 m).
  destruct (Z.log2_spec m M0) as [B1 B2]. fold b in B1, B2.
  assert (Hb0 : 0 <= b) by apply Z.log2_nonneg.
  assert (Hb : b <= 52).
  { destruct (Z_le_gt_dec b 52) as [H | H]; [exact H | exfalso].
    assert (2 ^ 53 <= 2 ^ b) by (apply Z.pow_le_mono_r; lia). lia. }
  pose proof (pow2_pos j) as Pj.
  assert (Hbin : Js64.binade a = b + j).
  { apply binade_unique. unfold a. split.
    - rewrite pow2_add. apply Qmult_le_compat_r; [| lra].
      rewrite pow2_Z by lia. now rewrite <- Zle_Qle.
    - replace (b + j + 1) with (b + 1 + j) by lia. rewrite pow2_add.
      apply Qmult_lt_compat_r; [exact Pj |].
      rewrite pow2_Z by lia. rewrite <- Zlt_Qlt.
      now replace (b + 1) with (Z.succ b) by lia. }
  unfold Js64.round_pos.
  set (e := Js64.quantum a).
  assert (He : e <= j) by (unfold e, Js64.quantum; rewrite Hbin; lia).
  assert (E : (a / Js64.pow2 e == inject_Z (m * 2 ^ (j - e)))%Q).
  { unfold a. rewrite div_pow2. rewrite inject_Z_mult.
    now rewrite pow2_Z by lia. }
  rewrite E, round_even_Z, inject_Z_mult, <- pow2_Z by lia.
  unfold a. rewrite <- Qmult_assoc, <- pow2_split. reflexivity.
Qed.

Lemma round64_dyadic (m j : Z) :
  0 <= m < 2 ^ 53 -> -1074 <= j ->
  (inject_Z m * Js64.pow2 j < Js64.pow2 1024)%Q ->
  Js64.round64 (inject_Z m * Js64.pow2 j)
  = Js.Fin (Qred (inject_Z m * Js64.pow2 j)).
Proof.
  intros [M0 M1] Hj Hlt.
  destruct (Z.eq_dec m 0) as [-> | NZ].
  - rewrite round64_zero by (rewrite Qmult_0_l; reflexivity).
    apply (f_equal Js.Fin). symmetry.
    transitivity (Qred 0); [| reflexivity].
    apply Qred_complete. now rewrite Qmult_0_l.
  - pose proof (pow2_pos j) as Pj.
    assert (Pm : (0 < inject_Z m)%Q)
      by (change 0%Q with (inject_Z 0); rewrite <- Zlt_Qlt; lia).
    assert (P : (0 < inject_Z m * Js64.pow2 j)%Q)
      by (apply Qmult_lt_0_compat; assumption).
    rewrite (round64_pos P).
    pose proof (@round_pos_dyadic m j ltac:(lia) Hj) as R.
    assert (L : Qle_bool (Js64.pow2 1024)
                  (Js64.round_pos (inject_Z m * Js64.pow2 j)) = false).
    { destruct (Qle_bool _ _) eqn:E; [exfalso | reflexivity].
      apply Qle_bool_iff in E. rewrite R in E. lra. }
    rewrite L. f_equal. now apply Qred_complete.
Qed.

(** Whole numbers up to [2 ^ 53] are doubles. *)
Lemma round64_of_Z (z : Z) :
  0 <= z <= 2 ^ 53 -> Js64.round64 (inject_Z z) = Js.Fin (inject_Z z).
Proof.
  intro H.
  destruct (Z.eq_dec z (2 ^ 53)) as [-> | NE].
  - vm_compute. reflexivity.
  - rewrite (round64_comp (q := inject_Z z * Js64.pow2 0))
      by (change (Js64.pow2 0) with 1%Q; ring).
    rewrite round64_dyadic;
      [| lia | lia
       | change (Js64.pow2 0) with 1%Q; rewrite Qmult_1_r;
         apply Qlt_trans with (inject_Z (2 ^ 53));
         [rewrite <- Zlt_Qlt; lia | reflexivity]].
    f_equal.
    transitivity (Qred (inject_Z z)).
    + apply Qred_complete. change (Js64.pow2 0) with 1%Q. ring.
    + unfold Qred, inject_Z. cbn [Qnum Qden].
      pose proof (Z.ggcd_gcd z 1) as G. pose proof (Z.ggcd_correct_divisors z 1) as D.
      destruct (Z.ggcd z 1) as [g [aa bb]]. cbn [fst snd] in *.
      rewrite Z.gcd_1_r in G. subst g. destruct D as [D1 D2].
      rewrite Z.mul_1_l in D1, D2. subst. reflexivity.
Qed.

(** The result of a rounding is a double: rounding it again changes
    nothing. *)
Lemma round_even_scaled_bound (q : Q) :
  (0 < q)%Q ->
  0 <= Js64.round_even (q / Js64.pow2 (Js64.quantum q)) <= 2 ^ 53.
Proof.
  intro P. set (e := Js64.quantum q).
  pose proof (pow2_pos e) as Pe.
  destruct (binade_spec P) as [_ U].
  split.
  - apply round_even_nonneg. apply Qle_shift_div_l; [exact Pe | lra].
  - rewrite <- (round_even_Z (2 ^ 53)). apply round_even_monotone.
    apply Qle_shift_div_r; [exact Pe |].
    rewrite <- pow2_Z, <- pow2_add by lia.
    assert (Js64.pow2 (Js64.binade q + 1) <= Js64.pow2 (53 + e))%Q
      by (apply pow2_le; unfold e, Js64.quantum; lia).
    lra.
Qed.

Lemma round64_fixed (q v : Q) :
  (0 <= q)%Q -> Js64.round64 q = Js.Fin v -> Js64.round64 v = Js.Fin v.
Proof.
  intros H0 E. destruct (Qlt_le_dec 0 q) as [P | P].
  2:{ rewrite round64_zero in E by lra. injection E as <-. reflexivity. }
  rewrite (round64_pos P) in E.
  destruct (Qle_bool _ _) eqn:L; [discriminate |].
  assert (Ev : v = Qred (Js64.round_pos q)) by congruence.
  clear E. subst v.
  assert (Hlt : (Js64.round_pos q < Js64.pow2 1024)%Q).
  { apply Qnot_le_lt. intro C. apply Qle_bool_iff in C. congruence. }
  pose proof (round_even_scaled_bound P) as [N0 N1].
  pose proof (quantum_lower q) as He.
  unfold Js64.round_pos in *.
  set (e := Js64.quantum q) in *.
  set (n := Js64.round_even (q / Js64.pow2 e)) in *.
  destruct (Z.eq_dec n (2 ^ 53)) as [En | NE].
  - assert (R : (inject_Z n * Js64.pow2 e
                 == inject_Z (2 ^ 52) * Js64.pow2 (e + 1))%Q).
    { rewrite En, pow2_add. change (Js64.pow2 1) with 2%Q.
      change (inject_Z (2 ^ 53)) with (inject_Z (2 ^ 52) * 2)%Q. ring. }
    rewrite (@round64_comp (Qred (inject_Z n * Js64.pow2 e))
               (inject_Z (2 ^ 52) * Js64.pow2 (e + 1)))
      by (eapply Qeq_trans; [apply Qred_correct | exact R]).
    rewrite round64_dyadic; [| lia | lia | now rewrite <- R].
    f_equal. apply Qred_complete. now rewrite R.
  - rewrite (@round64_comp (Qred (inject_Z n * Js64.pow2 e))
               (inject_Z n * Js64.pow2 e))
      by apply Qred_correct.
    rewrite round64_dyadic; [reflexivity | lia | lia | exact Hlt].
Qed.

(** ** Stable sorting *)

Section SortFacts.

Variable A : Type.
Variable compareFn : A -> A -> Js.num.

Let ord (a b : A) : Prop := Props.in_order compareFn a b = true.

(** The comparator never asks for both orders of a pair. *)
Hypothesis asymmetric :
  forall a b, Props.in_order compareFn a b = false ->
              Props.in_order compareFn b a = true.

Lemma insert_cons_in_order (x y : A) (l : list A) :
  Props.in_order compareFn x y = true ->
  SearchContext.insert compareFn x (y :: l) = x :: y :: l.
Proof.
  unfold Props.in_order. simpl.
  destruct (Js.gtb (compareFn x y) Js.zero); [discriminate | reflexivity].
Qed.

Lemma insert_cons_after (x y : A) (l : list A) :
  Props.in_order compareFn x y = false ->
  SearchContext.insert compareFn x (y :: l)
  = y :: SearchContext.insert compareFn x l.
Proof.
  unfold Props.in_order. simpl.
  destruct (Js.gtb (compareFn x y) Js.zero); [reflexivity | discriminate].
Qed.

Lemma insert_perm (x : A) (l : list A) :
  Permutation (SearchContext.insert compareFn x l) (x :: l).
Proof.
  induction l as [| y l IH]; simpl; [reflexivity |].
  destruct (Js.gtb (compareFn x y) Js.zero); [| reflexivity].
  rewrite IH. apply perm_swap.
Qed.

(** The result of [sort] is a rearrangement of its argument. *)
Lemma sort_perm (l : list A) :
  Permutation (SearchContext.sort compareFn l) l.
Proof.
  induction l as [| x l IH]; simpl; [reflexivity |].
  rewrite insert_perm. now constructor.
Qed.

Lemma insert_Sorted (x : A) (l : list A) :
  Sorted ord l -> Sorted ord (SearchContext.insert compareFn x l).
Proof.
  induction l as [| y l IH]; intro HS.
  - repeat constructor.
  - destruct (Props.in_order compareFn x y) eqn:E.
    + rewrite insert_cons_in_order by exact E.
      constructor; [exact HS | constructor; exact E].
    + rewrite insert_cons_after by exact E.
      inversion HS as [| ? ? HS' Hd]; subst.
      constructor; [now apply IH |].
      destruct l as [| z l'].
      * simpl. constructor. now apply asymmetric.
      * inversion Hd; subst.
        destruct (Props.in_order compareFn x z) eqn:E'.
        -- rewrite insert_cons_in_order by exact E'.
           constructor. now apply asymmetric.
        -- rewrite insert_cons_after by exact E'.
           now constructor.
Qed.

(** Adjacent elements of a sorted array are in order. *)
Lemma sort_Sorted (l : list A) :
  Sorted ord (SearchContext.sort compareFn l).
Proof.
  induction l as [| x l IH]; simpl; [constructor | now apply insert_Sorted].
Qed.

(** An array whose adjacent elements are in order is left as it is. *)
Lemma sort_fixpoint (l : list A) :
  Sorted ord l -> SearchContext.sort compareFn l = l.
Proof.
  induction l as [| x l IH]; intro HS; [reflexivity |].
  inversion HS as [| ? ? HS' Hd]; subst.
  simpl. rewrite (IH HS').
  destruct Hd as [| y l' Hxy]; [reflexivity |].
  now apply insert_cons_in_order.
Qed.

Lemma sort_idempotent (l : list A) :
  SearchContext.sort compareFn (SearchContext.sort compareFn l)
  = SearchContext.sort compareFn l.
Proof. apply sort_fixpoint, sort_Sorted. Qed.

(** *** With a comparator that is transitive on a class of elements *)

Variable dom : A -> Prop.

Hypothesis transitive :
  forall a b c, dom a -> dom b -> dom c ->
    Props.in_order compareFn a b = true ->
    Props.in_order compareFn b c = true ->
    Props.in_order compareFn a c = true.

Lemma insert_StronglySorted (x : A) (l : list A) :
  dom x -> Forall dom l ->
  StronglySorted ord l ->
  StronglySorted ord (SearchContext.insert compareFn x l).
Proof.
  intros Hx.
  induction l as [| y l IH]; intros Hl HS.
  - repeat constructor.
  - inversion Hl as [| ? ? Hy Hl']; subst.
    inversion HS as [| ? ? HS' Hall]; subst.
    destruct (Props.in_order compareFn x y) eqn:E.
    + rewrite insert_cons_in_order by exact E.
      constructor; [exact HS |].
      constructor; [exact E |].
      rewrite Forall_forall in *. intros z Hz.
      apply (transitive (b := y)); auto.
      apply Hall, Hz.
    + rewrite insert_cons_after by exact E.
      constructor; [now apply IH |].
      rewrite Forall_forall in *. intros z Hz.
      apply (Permutation_in _ (insert_perm x l)) in Hz.
      destruct Hz as [<- | Hz]; [now apply asymmetric | now apply Hall].
Qed.

(** Every element of a sorted array is in order with all that follow. *)
Lemma sort_StronglySorted (l : list A) :
  Forall dom l -> StronglySorted ord (SearchContext.sort compareFn l).
Proof.
  induction l as [| x l IH]; intro Hl; simpl; [constructor |].
  inversion Hl; subst.
  apply insert_StronglySorted; auto.
  apply (Permutation_Forall (Permutation_sym (sort_perm l))); assumption.
Qed.

Lemma insert_stable (k x : A) (l : list A) :
  dom k -> dom x -> Forall dom l ->
  filter (Props.ties compareFn k) (SearchContext.insert compareFn x l)
  = filter (Props.ties compareFn k) (x :: l).
Proof.
  intros Hk Hx.
  induction l as [| y l IH]; intro Hl; [reflexivity |].
  inversion Hl as [| ? ? Hy Hl']; subst.
  destruct (Props.in_order compareFn x y) eqn:E.
  - now rewrite insert_cons_in_order.
  - rewrite insert_cons_after by exact E.
    cbn [filter]. rewrite (IH Hl'). cbn [filter].
    destruct (Props.ties compareFn k x) eqn:Tx;
      destruct (Props.ties compareFn k y) eqn:Ty; try reflexivity.
    exfalso.
    unfold Props.ties in Tx, Ty.
    apply andb_true_iff in Tx, Ty. destruct Tx as [_ Tx], Ty as [Ty _].
    rewrite (transitive Hx Hk Hy Tx Ty) in E. discriminate.
Qed.

(** The sort is stable: elements that tie keep their relative order. *)
Lemma sort_stable (k : A) (l : list A) :
  dom k -> Forall dom l ->
  filter (Props.ties compareFn k) (SearchContext.sort compareFn l)
  = filter (Props.ties compareFn k) l.
Proof.
  intros Hk.
  induction l as [| x l IH]; intro Hl; [reflexivity |].
  inversion Hl; subst. simpl SearchContext.sort.
  rewrite insert_stable; auto.
  - cbn [filter]. now rewrite IH.
  - apply (Permutation_Forall (Permutation_sym (sort_perm l))); assumption.
Qed.

End SortFacts.

(** *** The sorted array is determined by the comparator

    When the comparator is consistent on the elements (it never asks for
    both orders of a pair and is transitive), there is one stable sorted
    rearrangement, so [sort] returns what any stable sort returns. *)

Section SortUnique.

Variable A : Type.
Variable compareFn : A -> A -> Js.num.
Variable dom : A -> Prop.

Let ord (a b : A) : Prop := Props.in_order compareFn a b = true.

Hypothesis asymmetric :
  forall a b, Props.in_order compareFn a b = false ->
              Props.in_order compareFn b a = true.

Hypothesis transitive :
  forall a b c, dom a -> dom b -> dom c ->
    Props.in_order compareFn a b = true ->
    Props.in_order compareFn b c = true ->
    Props.in_order compareFn a c = true.

Lemma in_order_refl (a : A) : Props.in_order compareFn a a = true.
Proof.
  destruct (Props.in_order compareFn a a) eqn:E; [reflexivity |].
  rewrite <- E. now apply asymmetric.
Qed.

Lemma sorted_stable_unique (l1 : list A) :
  forall l2,
    Forall dom l1 ->
    Permutation l1 l2 ->
    StronglySorted ord l1 -> StronglySorted ord l2 ->
    (forall k, dom k ->
       filter (Props.ties compareFn k) l1
       = filter (Props.ties compareFn k) l2) ->
    l1 = l2.
Proof.
  induction l1 as [| x r1 IH]; intros l2 Hdom Hperm S1 S2 Hst.
  - now apply Permutation_nil in Hperm.
  - destruct l2 as [| y r2];
      [apply Permutation_sym, Permutation_nil in Hperm; discriminate |].
    inversion Hdom as [| ? ? Dx Dr1]; subst.
    inversion S1 as [| ? ? S1' H1]; subst.
    inversion S2 as [| ? ? S2' H2]; subst.
    assert (Oxy : Props.in_order compareFn x y = true).
    { assert (In y (x :: r1)) as Hy
        by (apply (Permutation_in _ (Permutation_sym Hperm)); now left).
      destruct Hy as [<- | Hy]; [apply in_order_refl |].
      rewrite Forall_forall in H1. now apply H1. }
    assert (Oyx : Props.in_order compareFn y x = true).
    { assert (In x (y :: r2)) as Hx
        by (apply (Permutation_in _ Hperm); now left).
      destruct Hx as [<- | Hx]; [apply in_order_refl |].
      rewrite Forall_forall in H2. now apply H2. }
    assert (x = y) as <-.
    { pose proof (Hst x Dx) as E. cbn [filter] in E.
      assert (Props.ties compareFn x x = true) as Txx
        by (unfold Props.ties; now rewrite in_order_refl).
      assert (Props.ties compareFn x y = true) as Txy
        by (unfold Props.ties; now rewrite Oxy, Oyx).
      rewrite Txx, Txy in E. congruence. }
    f_equal. apply IH; auto.
    + now apply Permutation_cons_inv in Hperm.
    + intros k Dk. pose proof (Hst k Dk) as E. cbn [filter] in E.
      destruct (Props.ties compareFn k x); congruence.
Qed.

(** Any list that is a stable sorted rearrangement of [l] is [sort l]. *)
Lemma sort_is_the_stable_sort (l l' : list A) :
  Forall dom l ->
  Permutation l' l ->
  StronglySorted ord l' ->
  (forall k, dom k ->
     filter (Props.ties compareFn k) l'
     = filter (Props.ties compareFn k) l) ->
  l' = SearchContext.sort compareFn l.
Proof.
  intros Hdom Hperm HS Hst.
  pose proof (sort_perm compareFn l) as Hp.
  apply sorted_stable_unique; auto.
  - apply (Permutation_Forall (Permutation_sym Hperm)); exact Hdom.
  - rewrite Hperm. now apply Permutation_sym.
  - now apply sort_StronglySorted with (dom := dom).
  - intros k Dk. rewrite Hst by exact Dk. symmetry.
    now apply sort_stable with (dom := dom).
Qed.

End SortUnique.

(** ** The comparators *)

(** The sign of a difference. *)
Lemma sub_positive_iff (a b : Js.num) :
  Js.is_nan a = false -> Js.is_nan b = false ->
  Js.gtb (Js.sub a b) Js.zero = negb (Js.leb a b).
Proof.
  destruct a as [| | | x], b as [| | | y]; intros Ha Hb;
    try discriminate; try reflexivity.
  unfold Js.sub, Js.neg, Js.add, Js.gtb, Js.ltb, Js.leb, Js.cmp, Js.zero,
    Js.of_Z.
  pose proof (Qred_correct (x + - y)) as R.
  change (inject_Z 0) with 0%Q.
  destruct (Qcompare_spec 0 (Qred (x + - y)));
    destruct (Qcompare_spec x y); try reflexivity; exfalso; lra.
Qed.

(** A difference and its opposite are not both positive. *)
Lemma sub_asymmetric (a b : Js.num) :
  Js.gtb (Js.sub a b) Js.zero = true ->
  Js.gtb (Js.sub b a) Js.zero = false.
Proof.
  destruct a as [| | | x], b as [| | | y]; try discriminate;
    try reflexivity.
  unfold Js.sub, Js.neg, Js.add, Js.gtb, Js.ltb, Js.cmp, Js.zero, Js.of_Z.
  pose proof (Qred_correct (x + - y)) as R1.
  pose proof (Qred_correct (y + - x)) as R2.
  change (inject_Z 0) with 0%Q.
  destruct (Qcompare_spec 0 (Qred (x + - y)));
    destruct (Qcompare_spec 0 (Qred (y + - x)));
    try discriminate; try reflexivity; intros _; exfalso; lra.
Qed.

Lemma compare_cheapest_asymmetric (a b : FlightTypes.Flight) :
  Props.in_order SearchContext.compare_cheapest a b = false ->
  Props.in_order SearchContext.compare_cheapest b a = true.
Proof.
  unfold Props.in_order, SearchContext.compare_cheapest.
  rewrite negb_false_iff, negb_true_iff. apply sub_asymmetric.
Qed.

Lemma compare_fastest_asymmetric (a b : FlightTypes.Flight) :
  Props.in_order SearchContext.compare_fastest a b = false ->
  Props.in_order SearchContext.compare_fastest b a = true.
Proof.
  unfold Props.in_order, SearchContext.compare_fastest.
  rewrite negb_false_iff, negb_true_iff. apply sub_asymmetric.
Qed.

Lemma compare_best_asymmetric (a b : FlightTypes.Flight) :
  Props.in_order SearchContext.compare_best a b = false ->
  Props.in_order SearchContext.compare_best b a = true.
Proof.
  unfold Props.in_order, SearchContext.compare_best.
  rewrite negb_false_iff, negb_true_iff.
  destruct (SearchContext.is_best a), (SearchContext.is_best b); simpl;
    try discriminate; try reflexivity;
    (destruct (Js.eqb (FlightTypes.stops a) Js.zero) eqn:Ea,
              (Js.gtb (FlightTypes.stops b) Js.zero) eqn:Gb,
              (Js.gtb (FlightTypes.stops a) Js.zero) eqn:Ga,
              (Js.eqb (FlightTypes.stops b) Js.zero) eqn:Eb; simpl;
     try discriminate; try reflexivity; try apply sub_asymmetric).
Qed.

(** ** Filter and sort *)

Lemma filter_twice {A : Type} (p q : A -> bool) (l : list A) :
  filter q (filter p l) = filter (fun x => p x && q x) l.
Proof.
  induction l as [| x l IH]; simpl; [reflexivity |].
  destruct (p x); simpl; [destruct (q x) |]; now rewrite IH.
Qed.

Lemma filter_true {A : Type} (l : list A) :
  filter (fun _ => true) l = l.
Proof. induction l; simpl; congruence. Qed.

(** A filter that is switched on by a non-empty list of wanted values. *)
Lemma optional_filter {A B : Type} (wanted : list B) (p : A -> bool)
    (l : list A) :
  (if (0 <? List.length wanted)%nat then filter p l else l)
  = filter (fun x => match wanted with [] => true | _ => p x end) l.
Proof.
  destruct wanted; simpl; [now rewrite filter_true | reflexivity].
Qed.

Lemma conditional_filter {A : Type} (c : bool) (p : A -> bool)
    (l : list A) :
  (if c then filter p l else l)
  = filter (fun x => if c then p x else true) l.
Proof.
  destruct c; [reflexivity | now rewrite filter_true].
Qed.

(** The filters, applied one after the other, keep exactly the flights
    that pass all of them. *)
Lemma apply_filters_keeps (flights : list FlightTypes.Flight)
    (filters : FlightTypes.FlightFilters) :
  SearchContext.apply_filters flights filters
  = filter (Props.keeps filters) flights.
Proof.
  unfold SearchContext.apply_filters.
  rewrite !optional_filter.
  rewrite conditional_filter.
  rewrite !filter_twice.
  apply filter_ext. intro flight. unfold Props.keeps.
  rewrite !andb_assoc.
  destruct (FlightTypes.filter_stops filters),
    (FlightTypes.airlines filters),
    (FlightTypes.departureTimes filters),
    (FlightTypes.arrivalTimes filters); reflexivity.
Qed.

Lemma filter_all {A : Type} (p : A -> bool) (l : list A) :
  Forall (fun x => p x = true) l -> filter p l = l.
Proof.
  induction 1 as [| x l Hx Hl IH]; simpl; [reflexivity |].
  now rewrite Hx, IH.
Qed.

(** Sorting a filtered list and filtering again changes nothing. *)
Lemma filter_sort_filter {A : Type} (compareFn : A -> A -> Js.num)
    (p : A -> bool) (l : list A) :
  filter p (SearchContext.sort compareFn (filter p l))
  = SearchContext.sort compareFn (filter p l).
Proof.
  apply filter_all.
  apply (Permutation_Forall (Permutation_sym (sort_perm compareFn _))).
  apply Forall_forall. intros x Hx. now apply filter_In in Hx.
Qed.

(** One pass of filtering and sorting applied to the result of another,
    for a comparator that never asks for both orders of a pair. *)
Lemma filter_sort_twice {A : Type} (compareFn : A -> A -> Js.num)
    (p : A -> bool) (l : list A) :
  (forall a b, Props.in_order compareFn a b = false ->
               Props.in_order compareFn b a = true) ->
  SearchContext.sort compareFn
    (filter p (SearchContext.sort compareFn (filter p l)))
  = SearchContext.sort compareFn (filter p l).
Proof.
  intro Hasym. rewrite filter_sort_filter. now apply sort_idempotent.
Qed.

Lemma comparator_asymmetric (sortOption : FlightTypes.SortOption)
    (a b : FlightTypes.Flight) :
  Props.in_order (Props.comparator sortOption) a b = false ->
  Props.in_order (Props.comparator sortOption) b a = true.
Proof.
  destruct sortOption; simpl;
    auto using compare_best_asymmetric, compare_cheapest_asymmetric,
               compare_fastest_asymmetric.
Qed.

(** The derivation in one line: keep the flights that pass the filters,
    sort them with the comparator of the sort option. *)
Lemma getFilteredFlights_eq (flights : list FlightTypes.Flight)
    (filters : FlightTypes.FlightFilters)
    (sortOption : FlightTypes.SortOption) :
  SearchContext.getFilteredFlights flights filters sortOption
  = SearchContext.sort (Props.comparator sortOption)
      (filter (Props.keeps filters) flights).
Proof.
  unfold SearchContext.getFilteredFlights.
  rewrite apply_filters_keeps.
  destruct flights as [| f rest]; [reflexivity |].
  destruct sortOption; reflexivity.
Qed.

(** ** Consistent comparators *)

(** The sign of a number that is not [NaN], read from either side. *)
Lemma cmp_zero_flip (v : Js.num) :
  Js.is_nan v = false ->
  exists c, Js.cmp v Js.zero = Some c /\
            Js.cmp Js.zero v = Some (CompOpp c).
Proof.
  destruct v as [| | | q]; intro H; try discriminate.
  - exists Lt. split; reflexivity.
  - exists Gt. split; reflexivity.
  - exists (Qcompare q (inject_Z 0)). split; [reflexivity |].
    unfold Js.cmp, Js.zero, Js.of_Z. now rewrite Qcompare_antisym.
Qed.

Section ConsistentFacts.

Variable A : Type.
Variable compareFn : A -> A -> Js.num.
Variable l : list A.

Hypothesis Hc : Props.consistent compareFn l = true.

Let sg (a b : A) : comparison :=
  match Js.cmp (compareFn a b) Js.zero with
  | Some c => c
  | None => Eq
  end.

Lemma consistent_inv (a b c : A) :
  In a l -> In b l -> In c l ->
  Props.same compareFn a a = true /\
  Js.is_nan (compareFn a b) = false /\
  (Props.same compareFn a b = true -> Props.same compareFn b a = true) /\
  (Props.same compareFn a b = true -> Props.same compareFn b c = true ->
   Props.same compareFn a c = true) /\
  (Props.before compareFn a b = true -> Props.before compareFn b c = true ->
   Props.before compareFn a c = true) /\
  (Props.after compareFn a b = true -> Props.after compareFn b c = true ->
   Props.after compareFn a c = true).
Proof.
  intros Ha Hb Hc'. unfold Props.consistent in Hc.
  rewrite forallb_forall in Hc. specialize (Hc a Ha).
  apply andb_true_iff in Hc. destruct Hc as [Haa Hc1].
  rewrite forallb_forall in Hc1. specialize (Hc1 b Hb).
  apply andb_true_iff in Hc1. destruct Hc1 as [Hc1 Hc2].
  apply andb_true_iff in Hc1. destruct Hc1 as [Hnan Hsym].
  rewrite forallb_forall in Hc2. specialize (Hc2 c Hc').
  apply andb_true_iff in Hc2. destruct Hc2 as [Hc2 Hgt].
  apply andb_true_iff in Hc2. destruct Hc2 as [Heq Hlt].
  rewrite implb_true_iff in Hsym, Heq, Hlt, Hgt.
  rewrite andb_true_iff in Heq, Hlt, Hgt.
  rewrite negb_true_iff in Hnan.
  repeat split; auto.
Qed.

(** The three relations in terms of the sign. *)
Lemma sg_spec (a b : A) :
  In a l -> In b l ->
  Props.before compareFn a b = true <-> sg a b = Lt.
Proof.
  intros Ha Hb. destruct (consistent_inv a b a Ha Hb Ha) as (_ & N & _).
  destruct (cmp_zero_flip _ N) as (c & E & _).
  unfold Props.before, Js.ltb, sg. rewrite E.
  destruct c; split; congruence.
Qed.

Lemma sg_same (a b : A) :
  In a l -> In b l ->
  Props.same compareFn a b = true <-> sg a b = Eq.
Proof.
  intros Ha Hb. destruct (consistent_inv a b a Ha Hb Ha) as (_ & N & _).
  destruct (cmp_zero_flip _ N) as (c & E & _).
  unfold Props.same, Js.eqb, sg. rewrite E.
  destruct c; split; congruence.
Qed.

Lemma sg_after (a b : A) :
  In a l -> In b l ->
  Props.after compareFn a b = true <-> sg a b = Gt.
Proof.
  intros Ha Hb. destruct (consistent_inv a b a Ha Hb Ha) as (_ & N & _).
  destruct (cmp_zero_flip _ N) as (c & E & E').
  unfold Props.after, Js.gtb, Js.ltb, sg. rewrite E, E'.
  destruct c; split; simpl; congruence.
Qed.

Lemma sg_refl (a : A) : In a l -> sg a a = Eq.
Proof.
  intro Ha. apply sg_same; [exact Ha | exact Ha |].
  now destruct (consistent_inv a a a Ha Ha Ha).
Qed.

Lemma sg_sym (a b : A) : In a l -> In b l -> sg a b = Eq -> sg b a = Eq.
Proof.
  intros Ha Hb E. apply sg_same; [exact Hb | exact Ha |].
  destruct (consistent_inv a b a Ha Hb Ha) as (_ & _ & S & _).
  apply S. now apply sg_same.
Qed.

Lemma sg_trans (s : comparison) (a b c : A) :
  In a l -> In b l -> In c l ->
  sg a b = s -> sg b c = s -> sg a c = s.
Proof.
  intros Ha Hb Hc' E1 E2.
  destruct (consistent_inv a b c Ha Hb Hc') as (_ & _ & _ & TE & TL & TG).
  destruct s.
  - apply sg_same; auto. apply TE; now apply sg_same.
  - apply sg_spec; auto. apply TL; now apply sg_spec.
  - apply sg_after; auto. apply TG; now apply sg_after.
Qed.

(** Swapping the arguments swaps the sign. *)
Lemma sg_flip (a b : A) : In a l -> In b l -> sg b a = CompOpp (sg a b).
Proof.
  intros Ha Hb.
  pose proof (sg_refl a Ha) as Raa.
  pose proof (@sg_sym a b Ha Hb) as S1.
  pose proof (@sg_sym b a Hb Ha) as S2.
  pose proof (fun s => @sg_trans s a b a Ha Hb Ha) as T.
  destruct (sg a b) eqn:E1; destruct (sg b a) eqn:E2; simpl;
    try reflexivity;
    try (specialize (S1 eq_refl); congruence);
    try (specialize (S2 eq_refl); congruence);
    try (specialize (T Lt eq_refl eq_refl); congruence);
    try (specialize (T Gt eq_refl eq_refl); congruence).
Qed.

Lemma in_order_sg (a b : A) :
  In a l -> In b l ->
  Props.in_order compareFn a b = true <-> sg a b <> Gt.
Proof.
  intros Ha Hb. unfold Props.in_order. rewrite negb_true_iff.
  pose proof (sg_after a b Ha Hb) as G. fold (Props.after compareFn a b).
  destruct (Props.after compareFn a b); split; intro H;
    try discriminate; try reflexivity.
  - exfalso. apply H. now apply G.
  - intro E. apply G in E. discriminate.
Qed.

(** The comparator never asks for both orders of a pair of elements. *)
Lemma consistent_asymmetric (a b : A) :
  In a l -> In b l ->
  Props.in_order compareFn a b = false ->
  Props.in_order compareFn b a = true.
Proof.
  intros Ha Hb H. apply in_order_sg; auto.
  rewrite (sg_flip a b Ha Hb).
  assert (E : sg a b = Gt).
  { destruct (sg a b) eqn:E; [| | reflexivity]; exfalso;
      assert (Props.in_order compareFn a b = true)
        by (apply in_order_sg; auto; congruence); congruence. }
  rewrite E. discriminate.
Qed.

(** The order it asks for is transitive. *)
Lemma consistent_transitive (a b c : A) :
  In a l -> In b l -> In c l ->
  Props.in_order compareFn a b = true ->
  Props.in_order compareFn b c = true ->
  Props.in_order compareFn a c = true.
Proof.
  intros Ha Hb Hc' H1 H2.
  apply in_order_sg in H1; auto. apply in_order_sg in H2; auto.
  apply in_order_sg; auto. intro G.
  pose proof (sg_flip a c Ha Hc') as Fca. rewrite G in Fca. simpl in Fca.
  destruct (sg a b) eqn:E1; [| | congruence];
    destruct (sg b c) eqn:E2; try congruence.
  - pose proof (@sg_trans Eq a b c Ha Hb Hc' E1 E2). congruence.
  - (* a = b < c < a *)
    pose proof (@sg_trans Lt b c a Hb Hc' Ha E2 Fca) as Hba.
    pose proof (@sg_sym a b Ha Hb E1). congruence.
  - (* c < a < b = c *)
    pose proof (@sg_trans Lt c a b Hc' Ha Hb Fca E1) as Hcb.
    pose proof (@sg_sym b c Hb Hc' E2). congruence.
  - pose proof (@sg_trans Lt a b c Ha Hb Hc' E1 E2). congruence.
Qed.

(** The test of the merge: the head of the right run goes first exactly
    when the two heads are out of order. *)
Lemma consistent_before (a b : A) :
  In a l -> In b l ->
  Js.ltb (compareFn b a) Js.zero = negb (Props.in_order compareFn a b).
Proof.
  intros Ha Hb.
  pose proof (sg_spec b a Hb Ha) as L. unfold Props.before in L.
  pose proof (in_order_sg a b Ha Hb) as O.
  pose proof (sg_flip a b Ha Hb) as F.
  destruct (Js.ltb (compareFn b a) Js.zero);
    destruct (Props.in_order compareFn a b); try reflexivity; exfalso.
  - assert (sg b a = Lt) as E by now apply L.
    assert (sg a b <> Gt) as N by now apply O.
    rewrite E in F. destruct (sg a b); simpl in F; congruence.
  - assert (sg a b = Gt) as E.
    { destruct (sg a b) eqn:E; [| | reflexivity]; exfalso;
        assert (false = true) by (apply O; congruence); discriminate. }
    rewrite E in F. simpl in F. apply L in F. discriminate.
Qed.

End ConsistentFacts.

(** Consistency is a property of the set of elements. *)
Lemma consistent_incl {A : Type} (compareFn : A -> A -> Js.num)
    (l l' : list A) :
  (forall x, In x l' -> In x l) ->
  Props.consistent compareFn l = true ->
  Props.consistent compareFn l' = true.
Proof.
  intros Hin H. unfold Props.consistent in *.
  rewrite forallb_forall in *. intros a Ha. specialize (H a (Hin a Ha)).
  apply andb_true_iff in H. destruct H as [H1 H2].
  rewrite H1. cbn [andb].
  rewrite forallb_forall in *. intros b Hb. specialize (H2 b (Hin b Hb)).
  apply andb_true_iff in H2. destruct H2 as [H2 H3].
  rewrite H2. cbn [andb].
  rewrite forallb_forall in *. intros c Hc. exact (H3 c (Hin c Hc)).
Qed.

(** ** The merge sort meets the contract *)

Section MergeFacts.

Variable A : Type.
Variable compareFn : A -> A -> Js.num.
Variable dom : A -> Prop.

Let ord (a b : A) : Prop := Props.in_order compareFn a b = true.

Hypothesis before_out_of_order :
  forall a b, dom a -> dom b ->
    Js.ltb (compareFn b a) Js.zero = negb (Props.in_order compareFn a b).

Hypothesis asymmetric_on :
  forall a b, dom a -> dom b ->
    Props.in_order compareFn a b = false ->
    Props.in_order compareFn b a = true.

Hypothesis transitive_on :
  forall a b c, dom a -> dom b -> dom c ->
    Props.in_order compareFn a b = true ->
    Props.in_order compareFn b c = true ->
    Props.in_order compareFn a c = true.

Lemma filter_none (p : A -> bool) (l : list A) :
  (forall z, In z l -> p z = false) -> filter p l = [].
Proof.
  induction l as [| x l IH]; intro H; [reflexivity |].
  cbn [filter]. rewrite (H x (or_introl eq_refl)).
  apply IH. intros z Hz. apply H. now right.
Qed.

Lemma merge_nil_r (left : list A) : Props.merge compareFn left [] = left.
Proof. destruct left; reflexivity. Qed.

Lemma merge_nil_l (right : list A) : Props.merge compareFn [] right = right.
Proof. destruct right; reflexivity. Qed.

Lemma merge_cons (x y : A) (left right : list A) :
  Props.merge compareFn (x :: left) (y :: right)
  = if Js.ltb (compareFn y x) Js.zero
    then y :: Props.merge compareFn (x :: left) right
    else x :: Props.merge compareFn left (y :: right).
Proof. reflexivity. Qed.

Lemma merge_perm (left right : list A) :
  Permutation (Props.merge compareFn left right) (left ++ right).
Proof.
  revert right. induction left as [| x left IHl]; intro right.
  - now rewrite merge_nil_l.
  - induction right as [| y right IHr].
    + rewrite merge_nil_r, app_nil_r. reflexivity.
    + rewrite merge_cons. destruct (Js.ltb (compareFn y x) Js.zero).
      * rewrite IHr. apply Permutation_middle with (l1 := x :: left).
      * rewrite IHl. reflexivity.
Qed.

Lemma merge_dom (left right : list A) :
  Forall dom left -> Forall dom right ->
  Forall dom (Props.merge compareFn left right).
Proof.
  intros Hl Hr.
  apply (Permutation_Forall (Permutation_sym (merge_perm left right))).
  apply Forall_app. now split.
Qed.

Lemma merge_sorted (left right : list A) :
  Forall dom left -> Forall dom right ->
  StronglySorted ord left -> StronglySorted ord right ->
  StronglySorted ord (Props.merge compareFn left right).
Proof.
  revert right. induction left as [| x left IHl]; intros right Dl Dr Sl Sr.
  - now rewrite merge_nil_l.
  - induction right as [| y right IHr].
    + now rewrite merge_nil_r.
    + inversion Dl as [| ? ? Dx Dl']; subst.
      inversion Dr as [| ? ? Dy Dr']; subst.
      inversion Sl as [| ? ? Sl' Hx]; subst.
      inversion Sr as [| ? ? Sr' Hy]; subst.
      pose proof (proj1 (Forall_forall _ _) Hx) as Hx'.
      pose proof (proj1 (Forall_forall _ _) Hy) as Hy'.
      pose proof (proj1 (Forall_forall _ _) Dl') as Dl''.
      pose proof (proj1 (Forall_forall _ _) Dr') as Dr''.
      rewrite merge_cons, (before_out_of_order Dx Dy).
      destruct (Props.in_order compareFn x y) eqn:E; cbn [negb].
      * constructor; [now apply IHl |].
        apply Forall_forall. intros z Hz.
        apply (Permutation_in _ (merge_perm left (y :: right))) in Hz.
        apply in_app_or in Hz. destruct Hz as [Hz | [<- | Hz]].
        -- now apply Hx'.
        -- exact E.
        -- apply (transitive_on (b := y)); auto. now apply Hy'.
      * pose proof (asymmetric_on Dx Dy E) as E'.
        constructor; [now apply IHr |].
        apply Forall_forall. intros z Hz.
        apply (Permutation_in _ (merge_perm (x :: left) right)) in Hz.
        apply in_app_or in Hz. destruct Hz as [[<- | Hz] | Hz].
        -- exact E'.
        -- apply (transitive_on (b := x)); auto. now apply Hx'.
        -- now apply Hy'.
Qed.

(** Elements that tie come out of a merge in the order of the two runs
    put one after the other. *)
Lemma merge_stable (k : A) (left right : list A) :
  dom k -> Forall dom left -> Forall dom right ->
  StronglySorted ord left ->
  filter (Props.ties compareFn k) (Props.merge compareFn left right)
  = filter (Props.ties compareFn k) (left ++ right).
Proof.
  intro Dk.
  revert right. induction left as [| x left IHl]; intros right Dl Dr Sl.
  - now rewrite merge_nil_l.
  - induction right as [| y right IHr].
    + now rewrite merge_nil_r, app_nil_r.
    + inversion Dl as [| ? ? Dx Dl']; subst.
      inversion Dr as [| ? ? Dy Dr']; subst.
      inversion Sl as [| ? ? Sl' Hx]; subst.
      rewrite merge_cons, (before_out_of_order Dx Dy).
      destruct (Props.in_order compareFn x y) eqn:E; cbn [negb].
      * cbn [filter app]. now rewrite IHl.
      * cbn [filter]. rewrite (IHr Dr').
        rewrite !filter_app. cbn [filter].
        destruct (Props.ties compareFn k y) eqn:Ty; [| reflexivity].
        (* no element of the left run ties with [k] *)
        assert (N : filter (Props.ties compareFn k) (x :: left) = []).
        { apply filter_none. intros z Hz.
          destruct (Props.ties compareFn k z) eqn:Tz; [exfalso | reflexivity].
          unfold Props.ties in Ty, Tz.
          apply andb_true_iff in Ty, Tz.
          destruct Ty as [Ky _], Tz as [_ Zk].
          assert (Dz : dom z).
          { destruct Hz as [<- | Hz]; [exact Dx |].
            rewrite Forall_forall in Dl'. now apply Dl'. }
          assert (Xz : Props.in_order compareFn x z = true).
          { destruct Hz as [<- | Hz].
            - destruct (Props.in_order compareFn x x) eqn:R;
                [reflexivity |].
              rewrite <- R. now apply asymmetric_on.
            - rewrite Forall_forall in Hx. now apply Hx. }
          pose proof (transitive_on Dx Dz Dk Xz Zk) as Xk.
          pose proof (transitive_on Dx Dk Dy Xk Ky) as Xy.
          congruence. }
        change (filter (Props.ties compareFn k) (x :: left)) with
          (if Props.ties compareFn k x
           then x :: filter (Props.ties compareFn k) left
           else filter (Props.ties compareFn k) left) in N.
        cbn [filter] in N. rewrite N. reflexivity.
Qed.

(** *** The passes *)

Let run_ok (run : list A) : Prop := Forall dom run /\ StronglySorted ord run.

Lemma pairs_ind (P : list (list A) -> Prop) :
  P [] -> (forall a, P [a]) ->
  (forall a b rest, P rest -> P (a :: b :: rest)) ->
  forall runs, P runs.
Proof.
  intros H0 H1 H2.
  fix F 1. intros [| a [| b rest]]; [exact H0 | apply H1 |].
  apply H2, F.
Qed.

Lemma merge_pairs_ok (runs : list (list A)) :
  Forall run_ok runs -> Forall run_ok (Props.merge_pairs compareFn runs).
Proof.
  induction runs as [| a | a b rest IH] using pairs_ind; intro H;
    [exact H | exact H |].
  inversion H as [| ? ? [Da Sa] H']; subst.
  inversion H' as [| ? ? [Db Sb] H'']; subst.
  cbn [Props.merge_pairs]. constructor; [| now apply IH].
  split; [now apply merge_dom | now apply merge_sorted].
Qed.

Lemma merge_pairs_perm (runs : list (list A)) :
  Permutation (List.concat (Props.merge_pairs compareFn runs)) (List.concat runs).
Proof.
  induction runs as [| a | a b rest IH] using pairs_ind;
    [reflexivity | reflexivity |].
  cbn [Props.merge_pairs List.concat].
  rewrite IH, merge_perm, app_assoc. reflexivity.
Qed.

Lemma merge_pairs_stable (k : A) (runs : list (list A)) :
  dom k -> Forall run_ok runs ->
  filter (Props.ties compareFn k) (List.concat (Props.merge_pairs compareFn runs))
  = filter (Props.ties compareFn k) (List.concat runs).
Proof.
  intro Dk.
  induction runs as [| a | a b rest IH] using pairs_ind; intro H;
    [reflexivity | reflexivity |].
  inversion H as [| ? ? [Da Sa] H']; subst.
  inversion H' as [| ? ? [Db Sb] H'']; subst.
  cbn [Props.merge_pairs List.concat].
  rewrite filter_app, (IH H''), merge_stable by assumption.
  now rewrite app_assoc, <- filter_app.
Qed.

Lemma merge_pairs_length (runs : list (list A)) :
  (2 * List.length (Props.merge_pairs compareFn runs)
   <= S (List.length runs))%nat.
Proof.
  induction runs as [| a | a b rest IH] using pairs_ind;
    cbn [Props.merge_pairs List.length]; lia.
Qed.

(** With as many passes as there are runs, the runs end up merged into
    one that is sorted, the ties in the order of the runs. *)
Lemma merge_passes_spec (passes : nat) :
  forall runs,
    (List.length runs <= S passes)%nat -> Forall run_ok runs ->
    Permutation (Props.merge_passes compareFn passes runs) (List.concat runs) /\
    StronglySorted ord (Props.merge_passes compareFn passes runs) /\
    forall k, dom k ->
      filter (Props.ties compareFn k)
             (Props.merge_passes compareFn passes runs)
      = filter (Props.ties compareFn k) (List.concat runs).
Proof.
  induction passes as [| passes IH]; intros runs Hlen Hok.
  - destruct runs as [| a [| b rest]]; cbn [List.length] in Hlen;
      [| | lia].
    + repeat split; constructor.
    + inversion Hok as [| ? ? [Da Sa] _]; subst.
      cbn [Props.merge_passes List.concat]. rewrite app_nil_r.
      repeat split; [reflexivity | exact Sa].
  - destruct runs as [| a [| b rest]].
    + repeat split; constructor.
    + inversion Hok as [| ? ? [Da Sa] _]; subst.
      cbn [Props.merge_passes List.concat]. rewrite app_nil_r.
      repeat split; [reflexivity | exact Sa].
    + change (Props.merge_passes compareFn (S passes) (a :: b :: rest))
        with (Props.merge_passes compareFn passes
                (Props.merge_pairs compareFn (a :: b :: rest))).
      pose proof (merge_pairs_length (a :: b :: rest)) as L.
      destruct (IH (Props.merge_pairs compareFn (a :: b :: rest)))
        as (P & S & T).
      * cbn [List.length] in *. lia.
      * now apply merge_pairs_ok.
      * split; [| split].
        -- rewrite P. apply merge_pairs_perm.
        -- exact S.
        -- intros k Dk. rewrite (T k Dk). now apply merge_pairs_stable.
Qed.

Lemma concat_singletons (l : list A) : List.concat (map (fun x => [x]) l) = l.
Proof. induction l as [| x l IH]; [reflexivity |]. cbn. now rewrite IH. Qed.

Lemma merge_sort_spec (l : list A) :
  Forall dom l ->
  Permutation (Props.merge_sort compareFn l) l /\
  StronglySorted ord (Props.merge_sort compareFn l) /\
  forall k, dom k ->
    filter (Props.ties compareFn k) (Props.merge_sort compareFn l)
    = filter (Props.ties compareFn k) l.
Proof.
  intro Hdom. unfold Props.merge_sort.
  pose proof (@merge_passes_spec (List.length l) (map (fun x => [x]) l))
    as H.
  rewrite concat_singletons in H. apply H.
  - rewrite length_map. lia.
  - clear - Hdom. induction Hdom as [| x l Dx _ IH]; constructor; [| exact IH].
    split; repeat constructor. exact Dx.
Qed.

(** *** The insertion sort

    Placing an element in a sorted array is merging the array with a run
    of that element alone. *)
Lemma insert_is_merge (x : A) (l : list A) :
  dom x -> Forall dom l ->
  SearchContext.insert compareFn x l = Props.merge compareFn [x] l.
Proof.
  intros Dx. induction l as [| y l IH]; intro Dl; [reflexivity |].
  inversion Dl as [| ? ? Dy Dl']; subst.
  rewrite merge_cons, (before_out_of_order Dx Dy), merge_nil_l.
  cbn [SearchContext.insert]. rewrite (IH Dl').
  unfold Props.in_order. rewrite negb_involutive. reflexivity.
Qed.

Lemma sort_spec_on (l : list A) :
  Forall dom l ->
  Permutation (SearchContext.sort compareFn l) l /\
  StronglySorted ord (SearchContext.sort compareFn l) /\
  forall k, dom k ->
    filter (Props.ties compareFn k) (SearchContext.sort compareFn l)
    = filter (Props.ties compareFn k) l.
Proof.
  induction 1 as [| x l Dx Dl (P & S & T)].
  - repeat split; constructor.
  - assert (D : Forall dom (SearchContext.sort compareFn l))
      by (apply (Permutation_Forall (Permutation_sym P)); exact Dl).
    cbn [SearchContext.sort fold_right].
    fold (SearchContext.sort compareFn l).
    rewrite (insert_is_merge Dx D).
    split; [| split].
    + rewrite merge_perm. cbn [app]. now constructor.
    + apply merge_sorted; auto; repeat constructor; exact Dx.
    + intros k Dk. rewrite merge_stable; auto; try (repeat constructor).
      cbn [app filter]. now rewrite (T k Dk).
Qed.

End MergeFacts.

(** The bottom-up merge sort and the insertion sort both do what the
    language asks of [Array.prototype.sort]. *)
Lemma merge_sort_conforms : Props.conforms (@Props.merge_sort).
Proof.
  intros A compareFn l Hc.
  destruct (@merge_sort_spec A compareFn (fun a => In a l)
              (consistent_before compareFn l Hc)
              (consistent_asymmetric compareFn l Hc)
              (consistent_transitive compareFn l Hc) l) as (P & S & T).
  - apply Forall_forall. auto.
  - split; [exact P | split; [exact S | exact T]].
Qed.

Lemma insertion_sort_conforms : Props.conforms (@SearchContext.sort).
Proof.
  intros A compareFn l Hc.
  destruct (@sort_spec_on A compareFn (fun a => In a l)
              (consistent_before compareFn l Hc)
              (consistent_asymmetric compareFn l Hc)
              (consistent_transitive compareFn l Hc) l) as (P & S & T).
  - apply Forall_forall. auto.
  - split; [exact P | split; [exact S | exact T]].
Qed.

(** *** The default sort *)

(** A number that is at least zero is either zero or positive. *)
Lemma nonneg_gtb_eqb (s : Js.num) :
  Js.geb s Js.zero = true -> Js.gtb s Js.zero = negb (Js.eqb s Js.zero).
Proof.
  destruct s as [| | | q]; intro H; try discriminate; try reflexivity.
  revert H. unfold Js.geb, Js.gtb, Js.ltb, Js.leb, Js.eqb, Js.cmp, Js.zero,
    Js.of_Z.
  change (inject_Z 0) with 0%Q. rewrite <- (Qcompare_antisym 0 q).
  destruct (Qcompare 0 q); simpl; intro H; try reflexivity; discriminate.
Qed.

(** On flights with [stops >= 0] and a price that is a number, the
    comparator of the default sort decides the order on (best flag,
    non-stop flag, price). *)
Lemma in_order_best_le (a b : FlightTypes.Flight) :
  Props.stops_nonneg a -> Props.stops_nonneg b ->
  Js.is_nan (FlightTypes.price a) = false ->
  Js.is_nan (FlightTypes.price b) = false ->
  Props.in_order SearchContext.compare_best a b = Props.best_le a b.
Proof.
  unfold Props.stops_nonneg. intros Sa Sb Pa Pb.
  unfold Props.in_order, SearchContext.compare_best, Props.best_le,
    Props.best_rank, Props.nonstop_rank.
  rewrite (nonneg_gtb_eqb _ Sa), (nonneg_gtb_eqb _ Sb).
  destruct (SearchContext.is_best a), (SearchContext.is_best b);
    destruct (Js.eqb (FlightTypes.stops a) Js.zero),
             (Js.eqb (FlightTypes.stops b) Js.zero);
    simpl; try reflexivity;
    rewrite (sub_positive_iff _ _ Pa Pb), negb_involutive; reflexivity.
Qed.

Lemma best_le_trans (a b c : FlightTypes.Flight) :
  Props.best_le a b = true -> Props.best_le b c = true ->
  Props.best_le a c = true.
Proof.
  unfold Props.best_le, Props.best_rank, Props.nonstop_rank.
  destruct (SearchContext.is_best a), (SearchContext.is_best b),
    (SearchContext.is_best c);
    destruct (Js.eqb (FlightTypes.stops a) Js.zero),
             (Js.eqb (FlightTypes.stops b) Js.zero),
             (Js.eqb (FlightTypes.stops c) Js.zero);
    simpl; try discriminate; try reflexivity; apply leb_trans.
Qed.

(** The flights the filters keep have a price that is a number. *)
Lemma keeps_price_not_nan (filters : FlightTypes.FlightFilters)
    (f : FlightTypes.Flight) :
  Props.keeps filters f = true -> Js.is_nan (FlightTypes.price f) = false.
Proof.
  unfold Props.keeps. rewrite !andb_true_iff.
  intros [[[[[[_ H] _] _] _] _] _].
  now apply leb_not_nan in H.
Qed.

(** C4, counterexample.  Two flights, neither marked best: A with one
    stop at 200 and B with two stops at 100.  Under the default sort the
    result is B, A: ordered by price, although A has the lower stop
    count. *)
Lemma two_stops_before_one_stop :
  let A := Props.sample_flight "A" "Delta" 1 200 false in
  let B := Props.sample_flight "B" "United" 2 100 false in
  SearchContext.getFilteredFlights [A; B] SearchContext.defaultFilters
                                   FlightTypes.sort_best = [B; A]
  /\
  ~ Props.ordered_by_stop_count [A; B] SearchContext.defaultFilters.
Proof.
  intros A B.
  assert (E : SearchContext.getFilteredFlights [A; B]
                SearchContext.defaultFilters FlightTypes.sort_best = [B; A])
    by (vm_compute; reflexivity).
  split; [exact E |].
  unfold Props.ordered_by_stop_count. rewrite E. intro H.
  inversion H as [| ? ? _ Hall]; subst.
  inversion Hall as [| ? ? Hba _]; subst.
  vm_compute in Hba. discriminate.
Qed.

(** C4, as amended.  On flights with [stops >= 0], the default sort
    returns the flights that pass the filters, rearranged in the
    lexicographic order on (best flag, non-stop flag, price): flights
    marked best first, then non-stop flights before flights with one or
    more stops (whose stop counts are not compared with each other), then
    ascending price; flights that tie keep their relative order. *)
Theorem best_sort_order (flights : list FlightTypes.Flight)
    (filters : FlightTypes.FlightFilters) :
  Forall Props.stops_nonneg flights ->
  let kept := SearchContext.apply_filters flights filters in
  let out :=
    SearchContext.getFilteredFlights flights filters FlightTypes.sort_best in
  Permutation out kept /\
  StronglySorted (fun a b => Props.best_le a b = true) out /\
  forall k, In k kept ->
    filter (fun f => Props.best_le k f && Props.best_le f k) out
    = filter (fun f => Props.best_le k f && Props.best_le f k) kept.
Proof.
  intros Hstops kept out.
  subst out kept. rewrite getFilteredFlights_eq, apply_filters_keeps.
  simpl Props.comparator.
  set (kept := filter (Props.keeps filters) flights).
  set (dom := fun f => Props.stops_nonneg f /\
                       Js.is_nan (FlightTypes.price f) = false).
  assert (Hdom : Forall dom kept).
  { apply Forall_forall. intros f Hf. apply filter_In in Hf.
    destruct Hf as [Hin Hk]. split.
    - rewrite Forall_forall in Hstops. now apply Hstops.
    - now apply keeps_price_not_nan in Hk. }
  assert (Hle : forall a b, dom a -> dom b ->
                  Props.in_order SearchContext.compare_best a b
                  = Props.best_le a b).
  { intros a b [Sa Pa] [Sb Pb]. now apply in_order_best_le. }
  assert (Htrans : forall a b c, dom a -> dom b -> dom c ->
            Props.in_order SearchContext.compare_best a b = true ->
            Props.in_order SearchContext.compare_best b c = true ->
            Props.in_order SearchContext.compare_best a c = true).
  { intros a b c Da Db Dc. rewrite !Hle by assumption.
    apply best_le_trans. }
  pose proof (sort_perm SearchContext.compare_best kept) as Hperm.
  assert (Hdom' : Forall dom (SearchContext.sort SearchContext.compare_best
                                kept))
    by (apply (Permutation_Forall (Permutation_sym Hperm)); exact Hdom).
  split; [exact Hperm | split].
  - pose proof (@sort_StronglySorted _ SearchContext.compare_best
                  compare_best_asymmetric dom Htrans kept Hdom)
      as HS.
    revert Hdom' HS.
    generalize (SearchContext.sort SearchContext.compare_best kept).
    induction l as [| x l IH]; intros Hd HS; [constructor |].
    inversion Hd as [| ? ? Hx Hl]; subst.
    inversion HS as [| ? ? HS' Hall]; subst.
    constructor; [now apply IH |].
    rewrite Forall_forall in *. intros y Hy.
    rewrite <- Hle by auto. now apply Hall.
  - intros k Hk.
    assert (Dk : dom k) by (rewrite Forall_forall in Hdom; now apply Hdom).
    pose proof (@sort_stable _ SearchContext.compare_best
                  dom Htrans k kept Dk Hdom)
      as Hst.
    rewrite (filter_ext_in _ (Props.ties SearchContext.compare_best k)
               (SearchContext.sort SearchContext.compare_best kept)).
    + rewrite (filter_ext_in _ (Props.ties SearchContext.compare_best k)
                 kept); [exact Hst |].
      intros f Hf. unfold Props.ties.
      rewrite Forall_forall in Hdom. rewrite !Hle; auto.
    + intros f Hf. unfold Props.ties.
      rewrite Forall_forall in Hdom'. rewrite !Hle; auto.
Qed.

(** A use of the theorem: three flights with [stops >= 0]. *)
Lemma best_sort_order_witness :
  let A := Props.sample_flight "A" "Delta" 1 200 false in
  let B := Props.sample_flight "B" "United" 0 300 false in
  let C := Props.sample_flight "C" "KLM" 2 250 true in
  Forall Props.stops_nonneg [A; B; C] /\
  StronglySorted (fun a b => Props.best_le a b = true)
    (SearchContext.getFilteredFlights [A; B; C]
       SearchContext.defaultFilters FlightTypes.sort_best).
Proof.
  intros A B C.
  assert (H : Forall Props.stops_nonneg [A; B; C])
    by (repeat constructor).
  split; [exact H |].
  exact (proj1 (proj2 (best_sort_order SearchContext.defaultFilters H))).
Defined.

(** *** Comparators that are consistent *)

(** A comparator whose sign is that of the lexicographic comparison of a
    rank and a rational is consistent. *)
Lemma consistent_lexicographic {A : Type} (compareFn : A -> A -> Js.num)
    (rank : A -> nat) (value : A -> Q) (l : list A) :
  (forall a b, In a l -> In b l ->
     Js.cmp (compareFn a b) Js.zero
     = Some (match Nat.compare (rank a) (rank b) with
             | Eq => Qcompare (value a) (value b)
             | c => c
             end)) ->
  Props.consistent compareFn l = true.
Proof.
  intro H.
  set (lex := fun a b =>
                match Nat.compare (rank a) (rank b) with
                | Eq => Qcompare (value a) (value b)
                | c => c
                end) in *.
  assert (Lrefl : forall a, lex a a = Eq).
  { intro a. unfold lex. rewrite Nat.compare_refl.
    apply Qeq_alt. reflexivity. }
  assert (Lsym : forall a b, lex a b = Eq -> lex b a = Eq).
  { intros a b. unfold lex.
    destruct (Nat.compare_spec (rank a) (rank b));
      destruct (Nat.compare_spec (rank b) (rank a));
      destruct (Qcompare_spec (value a) (value b));
      destruct (Qcompare_spec (value b) (value a));
      intro E; try discriminate; try reflexivity; exfalso;
      try lia; try lra. }
  assert (Ltrans : forall a b c, lex a b = lex b c -> lex a c = lex a b).
  { intros a b c. unfold lex.
    destruct (Nat.compare_spec (rank a) (rank b));
      destruct (Nat.compare_spec (rank b) (rank c));
      destruct (Nat.compare_spec (rank a) (rank c));
      try (exfalso; lia);
      destruct (Qcompare_spec (value a) (value b));
      destruct (Qcompare_spec (value b) (value c));
      destruct (Qcompare_spec (value a) (value c));
      intro E; try discriminate; try reflexivity; exfalso; lra. }
  assert (Hnan : forall a b, In a l -> In b l ->
                             Js.is_nan (compareFn a b) = false).
  { intros a b Ha Hb. specialize (H a b Ha Hb).
    destruct (compareFn a b); [discriminate | reflexivity ..]. }
  assert (Hbefore : forall a b, In a l -> In b l ->
            Props.before compareFn a b
            = match lex a b with Lt => true | _ => false end).
  { intros a b Ha Hb. unfold Props.before, Js.ltb. now rewrite H. }
  assert (Hsame : forall a b, In a l -> In b l ->
            Props.same compareFn a b
            = match lex a b with Eq => true | _ => false end).
  { intros a b Ha Hb. unfold Props.same, Js.eqb. now rewrite H. }
  assert (Hafter : forall a b, In a l -> In b l ->
            Props.after compareFn a b
            = match lex a b with Gt => true | _ => false end).
  { intros a b Ha Hb. unfold Props.after, Js.gtb, Js.ltb.
    destruct (cmp_zero_flip _ (Hnan a b Ha Hb)) as (c & E & ->).
    rewrite H in E by assumption. injection E as E. subst c.
    unfold lex.
    destruct (Nat.compare (rank a) (rank b));
      [destruct (Qcompare (value a) (value b)) | |]; reflexivity. }
  unfold Props.consistent.
  apply forallb_forall. intros a Ha.
  rewrite Hsame, Lrefl by assumption. cbn [andb].
  apply forallb_forall. intros b Hb.
  rewrite (Hnan a b Ha Hb). cbn [negb andb].
  rewrite (Hsame a b), (Hsame b a) by assumption.
  apply andb_true_iff. split.
  { pose proof (Lsym a b) as S.
    destruct (lex a b); try reflexivity. now rewrite S. }
  apply forallb_forall. intros c Hc'.
  rewrite (Hsame b c), (Hsame a c), (Hbefore a b), (Hbefore b c),
    (Hbefore a c), (Hafter a b), (Hafter b c), (Hafter a c) by assumption.
  pose proof (Ltrans a b c) as T.
  destruct (lex a b); destruct (lex b c); cbn [andb implb];
    try reflexivity; now rewrite T.
Qed.

(** The sign of a difference of finite numbers. *)
Lemma sub_sign (x y : Q) :
  Js.cmp (Js.sub (Js.Fin x) (Js.Fin y)) Js.zero = Some (Qcompare x y).
Proof.
  unfold Js.sub, Js.neg, Js.add, Js.cmp, Js.zero, Js.of_Z. f_equal.
  pose proof (Qred_correct (x + - y)) as R.
  change (inject_Z 0) with 0%Q.
  destruct (Qcompare_spec (Qred (x + - y)) 0);
    destruct (Qcompare_spec x y); try reflexivity; exfalso; lra.
Qed.

Lemma finite_inv (n : Js.num) :
  Props.finite n = true -> exists q, n = Js.Fin q.
Proof. destruct n; try discriminate. eauto. Qed.

Lemma compare_best_consistent (flights : list FlightTypes.Flight) :
  Forall (fun f => Props.finite (FlightTypes.price f) = true) flights /\
  Forall Props.stops_nonneg flights ->
  Props.consistent SearchContext.compare_best flights = true.
Proof.
    intros [Hp Hs]. rewrite Forall_forall in Hp, Hs.
    apply consistent_lexicographic
      with (rank := fun f => (2 * Props.best_rank f
                              + Props.nonstop_rank f)%nat)
           (value := fun f => match FlightTypes.price f with
                              | Js.Fin q => q
                              | _ => 0%Q
                              end).
    intros a b Ha Hb.
    destruct (finite_inv _ (Hp a Ha)) as (x & Ex).
    destruct (finite_inv _ (Hp b Hb)) as (y & Ey).
    pose proof (nonneg_gtb_eqb _ (Hs a Ha)) as Ga.
    pose proof (nonneg_gtb_eqb _ (Hs b Hb)) as Gb.
    unfold SearchContext.compare_best, Props.best_rank, Props.nonstop_rank.
    rewrite Ga, Gb, Ex, Ey.
    destruct (SearchContext.is_best a), (SearchContext.is_best b);
      destruct (Js.eqb (FlightTypes.stops a) Js.zero),
               (Js.eqb (FlightTypes.stops b) Js.zero);
      cbn [andb negb Nat.mul Nat.add Nat.compare];
      try reflexivity; apply sub_sign.
Qed.

(** On flights whose keys are regular the comparator of the sort option
    is consistent. *)
Lemma regular_keys_consistent (sortOption : FlightTypes.SortOption)
    (flights : list FlightTypes.Flight) :
  Props.regular_keys sortOption flights ->
  Props.consistent (Props.comparator sortOption) flights = true.
Proof.
  destruct sortOption; cbn [Props.regular_keys Props.comparator];
    try apply compare_best_consistent.
  - (* cheapest *)
    intro Hp. rewrite Forall_forall in Hp.
    apply consistent_lexicographic
      with (rank := fun _ => 0%nat)
           (value := fun f => match FlightTypes.price f with
                              | Js.Fin q => q
                              | _ => 0%Q
                              end).
    intros a b Ha Hb.
    destruct (finite_inv _ (Hp a Ha)) as (x & Ex).
    destruct (finite_inv _ (Hp b Hb)) as (y & Ey).
    unfold SearchContext.compare_cheapest. rewrite Ex, Ey.
    cbn [Nat.compare]. apply sub_sign.
  - (* fastest *)
    intro Hp. rewrite Forall_forall in Hp.
    apply consistent_lexicographic
      with (rank := fun _ => 0%nat)
           (value := fun f =>
                       match ParseDuration.parseDuration
                               (FlightTypes.duration f) with
                       | Js.Fin q => q
                       | _ => 0%Q
                       end).
    intros a b Ha Hb.
    destruct (finite_inv _ (Hp a Ha)) as (x & Ex).
    destruct (finite_inv _ (Hp b Hb)) as (y & Ey).
    unfold SearchContext.compare_fastest. rewrite Ex, Ey.
    cbn [Nat.compare]. apply sub_sign.
Qed.

(** *** The derivation over an engine's sort *)

(** [getFilteredFlights] is the derivation over the insertion sort. *)
Lemma getFilteredFlights_on_sort (flights : list FlightTypes.Flight)
    (filters : FlightTypes.FlightFilters)
    (sortOption : FlightTypes.SortOption) :
  SearchContext.getFilteredFlightsOn (@SearchContext.sort)
    flights filters sortOption
  = SearchContext.getFilteredFlights flights filters sortOption.
Proof. reflexivity. Qed.

Lemma getFilteredFlightsOn_eq (engine_sort : SearchContext.EngineSort)
    (flights : list FlightTypes.Flight)
    (filters : FlightTypes.FlightFilters)
    (sortOption : FlightTypes.SortOption) :
  SearchContext.getFilteredFlightsOn engine_sort flights filters sortOption
  = match flights with
    | [] => []
    | _ :: _ =>
        engine_sort _ (Props.comparator sortOption)
                    (filter (Props.keeps filters) flights)
    end.
Proof.
  unfold SearchContext.getFilteredFlightsOn.
  rewrite apply_filters_keeps.
  destruct flights as [| f rest]; [reflexivity |].
  destruct sortOption; reflexivity.
Qed.

(** A conforming sort leaves a sorted array of elements the comparator is
    consistent on as it is. *)
Lemma conforming_sort_fixpoint (engine_sort : SearchContext.EngineSort)
    (sortOption : FlightTypes.SortOption)
    (l : list FlightTypes.Flight) :
  Props.conforms engine_sort ->
  Props.consistent (Props.comparator sortOption) l = true ->
  StronglySorted
    (fun a b => Props.in_order (Props.comparator sortOption) a b = true) l ->
  engine_sort _ (Props.comparator sortOption) l = l.
Proof.
  intros Hconf Hc HS.
  destruct (Hconf _ (Props.comparator sortOption) l Hc) as (P & S & T).
  apply (@sorted_stable_unique _ (Props.comparator sortOption)
           (fun a => In a l) (comparator_asymmetric sortOption)).
  - apply Forall_forall. intros x Hx. exact (Permutation_in _ P Hx).
  - exact P.
  - exact S.
  - exact HS.
  - exact T.
Qed.

(** C9, as amended.  The filter-and-sort derivation is a function of the
    flight list, the filter state and the sort option, over the sort of
    the engine.  When the comparator of the sort option is a consistent comparison
    function for the flights that pass the filters, the derivation is
    idempotent on every engine whose sort does what the language asks:
    applied to its own output with the same filters and sort option, it
    returns that output.  The comparator is consistent whenever the keys
    it reads are regular on those flights: finite prices under
    "cheapest", durations that parse to finite numbers under "fastest",
    finite prices and stop counts of at least zero under "best". *)
Theorem getFilteredFlights_idempotent
    (engine_sort : SearchContext.EngineSort)
    (flights : list FlightTypes.Flight)
    (filters : FlightTypes.FlightFilters)
    (sortOption : FlightTypes.SortOption) :
  Props.conforms engine_sort ->
  let kept := SearchContext.apply_filters flights filters in
  let derived :=
    SearchContext.getFilteredFlightsOn engine_sort flights filters
                                       sortOption in
  (Props.consistent (Props.comparator sortOption) kept = true ->
   SearchContext.getFilteredFlightsOn engine_sort derived filters sortOption
   = derived)
  /\
  (Props.regular_keys sortOption kept ->
   Props.consistent (Props.comparator sortOption) kept = true).
Proof.
  intros Hconf kept0 derived.
  split; [| apply regular_keys_consistent].
  intro Hc. subst kept0 derived.
  rewrite apply_filters_keeps in Hc.
  rewrite (getFilteredFlightsOn_eq engine_sort flights).
  destruct flights as [| f rest]; [reflexivity |].
  set (kept := filter (Props.keeps filters) (f :: rest)) in *.
  destruct (Hconf _ (Props.comparator sortOption) kept Hc) as (P & S & _).
  set (r := engine_sort _ (Props.comparator sortOption) kept) in *.
  rewrite getFilteredFlightsOn_eq.
  destruct r as [| g r'] eqn:Er; [reflexivity |]. rewrite <- Er in *.
  assert (Hin : forall x, In x r -> In x kept)
    by (intros x Hx; exact (Permutation_in _ P Hx)).
  assert (Hk : filter (Props.keeps filters) r = r).
  { apply filter_all, Forall_forall. intros x Hx.
    apply Hin in Hx. unfold kept in Hx. now apply filter_In in Hx. }
  rewrite Hk.
  apply conforming_sort_fixpoint; [exact Hconf | | exact S].
  now apply consistent_incl with (l := kept).
Qed.

(** A use of the theorem: three flights with zero, one and two stops
    under the default sort, on the merge sort. *)
Lemma getFilteredFlights_idempotent_witness :
  let flights :=
    [Props.sample_flight "A" "Delta" 1 200 false;
     Props.sample_flight "B" "United" 0 300 false;
     Props.sample_flight "C" "Delta" 2 100 true] in
  let derived :=
    SearchContext.getFilteredFlightsOn (@Props.merge_sort) flights
      SearchContext.defaultFilters FlightTypes.sort_best in
  SearchContext.getFilteredFlightsOn (@Props.merge_sort) derived
    SearchContext.defaultFilters FlightTypes.sort_best
  = derived.
Proof.
  intros flights.
  apply (proj1 (@getFilteredFlights_idempotent (@Props.merge_sort) flights
                  SearchContext.defaultFilters FlightTypes.sort_best
                  merge_sort_conforms)).
  vm_compute. reflexivity.
Defined.

(** C9, counterexample.  Without the condition the derivation need not
    be idempotent.  With a negative stop count the comparator of the
    default sort is not consistent: [F2] (non-stop) precedes [F3] (one
    stop) whatever the prices, [F3] precedes [F0] and [F0] precedes [F2]
    by price.  On the merge sort, which does what the language asks, the
    derivation then returns a different order when it is applied to its
    own output. *)
Lemma getFilteredFlights_depends_on_engine :
  let F0 := Props.sample_flight "F0" "Delta" (-1) 200 false in
  let F1 := Props.sample_flight "F1" "Delta" (-1) 400 false in
  let F2 := Props.sample_flight "F2" "United" 0 300 false in
  let F3 := Props.sample_flight "F3" "United" 1 100 false in
  let derive flights :=
    SearchContext.getFilteredFlightsOn (@Props.merge_sort) flights
      SearchContext.defaultFilters FlightTypes.sort_best in
  Props.conforms (@Props.merge_sort) /\
  Props.consistent SearchContext.compare_best [F0; F1; F2; F3] = false /\
  derive [F0; F1; F2; F3] = [F0; F2; F3; F1] /\
  derive (derive [F0; F1; F2; F3]) = [F3; F0; F2; F1] /\
  derive (derive [F0; F1; F2; F3]) <> derive [F0; F1; F2; F3].
Proof.
  intros F0 F1 F2 F3 derive.
  split; [exact merge_sort_conforms |].
  split; [vm_compute; reflexivity |].
  split; [vm_compute; reflexivity |].
  split; [vm_compute; reflexivity |].
  vm_compute. discriminate.
Qed.

(** The order then depends on the engine.  On the insertion sort the
    derivation is idempotent whatever the comparator does with the
    flights: an array whose neighbours are in order is left as it is. *)
Lemma getFilteredFlights_idempotent_on_sort
    (flights : list FlightTypes.Flight)
    (filters : FlightTypes.FlightFilters)
    (sortOption : FlightTypes.SortOption) :
  SearchContext.getFilteredFlights
    (SearchContext.getFilteredFlights flights filters sortOption)
    filters sortOption
  = SearchContext.getFilteredFlights flights filters sortOption.
Proof.
  rewrite !getFilteredFlights_eq.
  apply filter_sort_twice, comparator_asymmetric.
Qed.

(** On a consistent comparator every engine that does what the language
    asks derives what [getFilteredFlights] derives. *)
Lemma getFilteredFlightsOn_conforming
    (engine_sort : SearchContext.EngineSort)
    (flights : list FlightTypes.Flight)
    (filters : FlightTypes.FlightFilters)
    (sortOption : FlightTypes.SortOption) :
  Props.conforms engine_sort ->
  Props.consistent (Props.comparator sortOption)
                   (SearchContext.apply_filters flights filters) = true ->
  SearchContext.getFilteredFlightsOn engine_sort flights filters sortOption
  = SearchContext.getFilteredFlights flights filters sortOption.
Proof.
  intros Hconf Hc. rewrite apply_filters_keeps in Hc.
  rewrite getFilteredFlightsOn_eq, getFilteredFlights_eq.
  destruct flights as [| f rest]; [reflexivity |].
  set (kept := filter (Props.keeps filters) (f :: rest)) in *.
  destruct (Hconf _ (Props.comparator sortOption) kept Hc) as (P & S & T).
  destruct (insertion_sort_conforms (Props.comparator sortOption) kept Hc)
    as (P' & S' & T').
  apply (@sorted_stable_unique _ (Props.comparator sortOption)
           (fun a => In a kept) (comparator_asymmetric sortOption)).
  - apply Forall_forall. intros x Hx. exact (Permutation_in _ P Hx).
  - rewrite P. now apply Permutation_sym.
  - exact S.
  - exact S'.
  - intros k Hk. now rewrite (T k Hk), (T' k Hk).
Qed.

(* ================================================================== *)
(** * Further properties of the retry executor                          *)
(* ================================================================== *)

Section RetryRuns.

Variables W T : Type.
Variable requestFn : W -> Js.Outcome T * W.
Variable random : nat -> Js.num.
Variable maxRetries : Z.
Variables baseDelay maxDelay : Js.num.
Variable codes : list Js.num.

Let loop :=
  ApiRetry.retry_loop requestFn random maxRetries baseDelay maxDelay codes.

Let world_after := MoreProps.world_after requestFn.

Lemma world_after_shift (i : nat) (w : W) :
  world_after i (snd (requestFn w)) = world_after (S i) w.
Proof.
  unfold world_after.
  induction i as [| i IH]; simpl; [reflexivity |].
  now rewrite IH.
Qed.

(** One iteration of the loop. *)
Lemma retry_loop_step (n attempt : nat) (lastError : Js.Thrown)
    (r : ApiRetry.Run W) :
  loop (S n) attempt lastError r =
  let '(res, w1) := requestFn (ApiRetry.world r) in
  let r1 := ApiRetry.mkRun w1 (S (ApiRetry.calls r)) (ApiRetry.sleeps r) in
  match res with
  | Js.Returned v => (Js.Returned v, r1)
  | Js.Threw error =>
      if (Z.of_nat attempt >=? maxRetries)%Z then (Js.Threw error, r1)
      else if negb (ApiRetry.isRetryableError error codes)
      then (Js.Threw error, r1)
      else
        loop n (S attempt) error
          (ApiRetry.mkRun w1 (S (ApiRetry.calls r))
             (ApiRetry.calculateDelay (random attempt) attempt
                baseDelay maxDelay :: ApiRetry.sleeps r))
  end.
Proof. reflexivity. Qed.

(** While iterations are left, the loop invokes the operation at least
    once and at most once per iteration, and sleeps once between two
    invocations. *)
Lemma retry_loop_counts (remaining : nat) :
  forall (attempt : nat) (lastError : Js.Thrown) (r : ApiRetry.Run W),
    (Z.of_nat attempt + Z.of_nat (S remaining) = maxRetries + 1)%Z ->
    let out := snd (loop (S remaining) attempt lastError r) in
    (ApiRetry.calls r < ApiRetry.calls out)%nat /\
    (ApiRetry.calls out <= ApiRetry.calls r + S remaining)%nat /\
    (List.length (ApiRetry.sleeps out) + S (ApiRetry.calls r)
     = List.length (ApiRetry.sleeps r) + ApiRetry.calls out)%nat.
Proof.
  induction remaining as [| k IH]; intros attempt lastError r Hsum;
    rewrite retry_loop_step;
    destruct (requestFn (ApiRetry.world r)) as [[v | e] w1];
    cbv zeta; cbn [snd ApiRetry.calls ApiRetry.sleeps]; try lia.
  - replace (Z.of_nat attempt >=? maxRetries)%Z with true
      by (symmetry; rewrite Z.geb_leb; apply Z.leb_le; lia).
    cbn [snd ApiRetry.calls ApiRetry.sleeps]. lia.
  - replace (Z.of_nat attempt >=? maxRetries)%Z with false
      by (symmetry; rewrite Z.geb_leb; apply Z.leb_gt; lia).
    destruct (negb (ApiRetry.isRetryableError e codes));
      cbn [snd ApiRetry.calls ApiRetry.sleeps]; [lia |].
    match goal with
    | |- context [loop (S k) (S attempt) e ?r'] =>
        specialize (IH (S attempt) e r');
        remember (loop (S k) (S attempt) e r') as res
    end.
    cbn [ApiRetry.calls ApiRetry.sleeps List.length] in IH.
    lia.
Qed.

(** An operation that fails [k] times with retryable errors and then
    succeeds is invoked [k + 1] times, and its result is returned. *)
Lemma retry_loop_recovers (k : nat) (v : T) :
  forall (remaining attempt : nat) (lastError : Js.Thrown)
         (r : ApiRetry.Run W),
    (Z.of_nat attempt + Z.of_nat remaining = maxRetries + 1)%Z ->
    (k < remaining)%nat ->
    (forall i, (i < k)%nat ->
       exists e,
         fst (requestFn (world_after i (ApiRetry.world r))) = Js.Threw e /\
         ApiRetry.isRetryableError e codes = true) ->
    fst (requestFn (world_after k (ApiRetry.world r))) = Js.Returned v ->
    let out := loop remaining attempt lastError r in
    fst out = Js.Returned v /\
    ApiRetry.calls (snd out) = (ApiRetry.calls r + S k)%nat /\
    List.length (ApiRetry.sleeps (snd out))
    = (List.length (ApiRetry.sleeps r) + k)%nat /\
    ApiRetry.world (snd out) = world_after (S k) (ApiRetry.world r).
Proof.
  induction k as [| k IH]; intros remaining attempt lastError r Hsum Hk
                                  Hfail Hok;
    (destruct remaining as [| n]; [lia |]); rewrite retry_loop_step.
  - unfold world_after in *. simpl in Hok |- *.
    destruct (requestFn (ApiRetry.world r)) as [res w1].
    simpl in Hok. subst res. simpl. repeat split; lia.
  - destruct (Hfail 0%nat ltac:(lia)) as (e & He & Hre).
    unfold world_after in He. simpl in He.
    pose proof (world_after_shift) as Hshift.
    destruct (requestFn (ApiRetry.world r)) as [res w1] eqn:E.
    simpl in He. subst res.
    replace (Z.of_nat attempt >=? maxRetries)%Z with false
      by (symmetry; rewrite Z.geb_leb; apply Z.leb_gt; lia).
    rewrite Hre. cbn [negb].
    match goal with
    | |- context [loop n (S attempt) e ?r'] =>
        destruct (IH n (S attempt) e r') as (I1 & I2 & I3 & I4)
    end.
    + lia.
    + lia.
    + intros i Hi. cbn [ApiRetry.world].
      replace w1 with (snd (requestFn (ApiRetry.world r)))
        by (now rewrite E).
      rewrite Hshift. apply Hfail. lia.
    + cbn [ApiRetry.world].
      replace w1 with (snd (requestFn (ApiRetry.world r)))
        by (now rewrite E).
      rewrite Hshift. exact Hok.
    + rewrite I1, I2, I3, I4. cbn [ApiRetry.calls ApiRetry.sleeps
                                    ApiRetry.world List.length].
      replace w1 with (snd (requestFn (ApiRetry.world r)))
        by (now rewrite E).
      rewrite Hshift. repeat split; lia.
Qed.

End RetryRuns.

(** X1.  Whatever the operation does, [apiRequestWithRetry] invokes it at
    most [maxRetries + 1] times (never when that is not positive) and
    sleeps exactly once between two consecutive invocations. *)
Theorem apiRequestWithRetry_call_budget (W T : Type)
    (requestFn : W -> Js.Outcome T * W) (random : nat -> Js.num)
    (config : ApiRetry.RetryConfig) (w : W) :
  let maxRetries :=
    ApiRetry.or_default (ApiRetry.maxRetries config)
                        ApiRetry.DEFAULT_maxRetries in
  let out := snd (ApiRetry.apiRequestWithRetry requestFn random config w) in
  (ApiRetry.calls out <= Z.to_nat (maxRetries + 1))%nat /\
  List.length (ApiRetry.sleeps out) = Nat.pred (ApiRetry.calls out).
Proof.
  intros maxRetries out. subst out.
  unfold ApiRetry.apiRequestWithRetry. fold maxRetries.
  destruct (Z.to_nat (maxRetries + 1)) as [| n] eqn:E.
  - simpl. split; reflexivity.
  - match goal with
    | |- context [ApiRetry.retry_loop ?f ?rnd ?m ?b ?d ?c (S n) 0 ?le ?r] =>
        pose proof (@retry_loop_counts W T f rnd m b d c n 0%nat le r) as H
    end.
    cbv zeta in H. cbn [ApiRetry.start ApiRetry.calls ApiRetry.sleeps
                        List.length] in H.
    destruct H as (H1 & H2 & H3); [lia |]. split; lia.
Qed.

(** X2.  When the operation fails [k <= maxRetries] times in a row with
    retryable errors and then succeeds, [apiRequestWithRetry] returns the
    value of the successful invocation after [k + 1] invocations and [k]
    sleeps. *)
Theorem apiRequestWithRetry_recovers (W T : Type)
    (requestFn : W -> Js.Outcome T * W) (random : nat -> Js.num)
    (config : ApiRetry.RetryConfig) (w : W) (k : nat) (v : T) :
  let maxRetries :=
    ApiRetry.or_default (ApiRetry.maxRetries config)
                        ApiRetry.DEFAULT_maxRetries in
  let codes :=
    ApiRetry.or_default (ApiRetry.retryableStatusCodes config)
                        ApiRetry.DEFAULT_retryableStatusCodes in
  (Z.of_nat k <= maxRetries)%Z ->
  (forall i, (i < k)%nat ->
     exists e,
       fst (requestFn (MoreProps.world_after requestFn i w)) = Js.Threw e /\
       ApiRetry.isRetryableError e codes = true) ->
  fst (requestFn (MoreProps.world_after requestFn k w)) = Js.Returned v ->
  let out := ApiRetry.apiRequestWithRetry requestFn random config w in
  fst out = Js.Returned v /\
  ApiRetry.calls (snd out) = S k /\
  List.length (ApiRetry.sleeps (snd out)) = k.
Proof.
  intros maxRetries codes Hk Hfail Hok out. subst out.
  unfold ApiRetry.apiRequestWithRetry. fold maxRetries. fold codes.
  match goal with
  | |- context [ApiRetry.retry_loop ?f ?rnd ?m ?b ?d ?c ?n 0 ?le ?r] =>
      destruct (@retry_loop_recovers W T f rnd m b d c k v n 0%nat le r)
        as (H1 & H2 & H3 & _)
  end; try assumption; try lia.
  repeat split; assumption.
Qed.

(** A use of the theorem: two failures with HTTP 503, then the value 42. *)
Lemma apiRequestWithRetry_recovers_witness :
  let e := Js.mkThrown Js.PlainError "Error" "API request failed: 503"
                       (Js.StatusNum (Js.of_Z 503)) in
  let requestFn :=
    fun n : nat =>
      (if (n <? 2)%nat then Js.Threw e else Js.Returned 42%nat, S n) in
  let out :=
    ApiRetry.apiRequestWithRetry requestFn (fun _ => Js.zero)
      ApiRetry.empty_config 0%nat in
  fst out = Js.Returned 42%nat /\
  ApiRetry.calls (snd out) = 3%nat /\
  List.length (ApiRetry.sleeps (snd out)) = 2%nat.
Proof.
  intros e requestFn.
  apply (@apiRequestWithRetry_recovers nat nat requestFn (fun _ => Js.zero)
           ApiRetry.empty_config 0%nat 2%nat 42%nat).
  - vm_compute. discriminate.
  - intros i Hi. exists e.
    destruct i as [| [| i]]; [split; reflexivity | split; reflexivity | lia].
  - reflexivity.
Defined.

(** A status in [400..403] or 429 is never retryable, whatever the list
    of retryable codes holds. *)
Lemma client_error_not_retryable (e : Js.Thrown) (codes : list Js.num) :
  Js.instanceof_Error e = true ->
  Props.is_fetch_TypeError e = false ->
  MoreProps.client_error_status e = true ->
  ApiRetry.isRetryableError e codes = false.
Proof.
  intros HE HF HS.
  unfold ApiRetry.isRetryableError.
  unfold Props.is_fetch_TypeError in HF. rewrite HF.
  unfold Js.has_status. rewrite HE.
  unfold MoreProps.client_error_status in HS.
  destruct (Js.err_status e) as [| | s]; try discriminate. simpl.
  destruct (Js.geb s (Js.of_Z 400) && Js.leb s (Js.of_Z 403));
    [reflexivity |].
  simpl in HS. now rewrite HS.
Qed.

(** X3.  Listing a client status among [retryableStatusCodes] has no
    effect: for every configuration that allows an attempt, an operation
    that always rejects with an [Error] (not a [TypeError] mentioning
    "fetch") whose status is in [400..403] or is 429 is invoked exactly
    once and its error rethrown. *)
Theorem client_errors_never_retried (W T : Type)
    (requestFn : W -> Js.Outcome T * W) (random : nat -> Js.num)
    (config : ApiRetry.RetryConfig) (w : W) (e : Js.Thrown) :
  (0 <= ApiRetry.or_default (ApiRetry.maxRetries config)
                            ApiRetry.DEFAULT_maxRetries)%Z ->
  Js.instanceof_Error e = true ->
  Props.is_fetch_TypeError e = false ->
  MoreProps.client_error_status e = true ->
  Props.always_rejects requestFn e ->
  let out := ApiRetry.apiRequestWithRetry requestFn random config w in
  fst out = Js.Threw e /\ ApiRetry.calls (snd out) = 1%nat.
Proof.
  intros Hmax HE HF HS Hrej out.
  destruct (retry_policy_any_config random config w Hmax Hrej) as [P1 P2].
  fold out in P1, P2. split; [exact P1 |].
  rewrite P2. now rewrite (client_error_not_retryable e _ HE HF HS).
Qed.

(** A use of the theorem: 429 is listed as retryable and five retries are
    allowed, yet the rate-limited operation is invoked once. *)
Lemma client_errors_never_retried_witness :
  let e := Js.mkThrown Js.PlainError "Error" "Too Many Requests"
                       (Js.StatusNum (Js.of_Z 429)) in
  let config :=
    ApiRetry.mkConfig (Some 5%Z) None None
                      (Some [Js.of_Z 429; Js.of_Z 503]) in
  ApiRetry.calls
    (snd (ApiRetry.apiRequestWithRetry
            (fun w : unit => (Js.Threw (T := nat) e, w))
            (fun _ => Js.zero) config tt)) = 1%nat.
Proof.
  intros e config.
  refine (proj2 (@client_errors_never_retried unit nat
                   (fun w : unit => (Js.Threw e, w)) (fun _ => Js.zero)
                   config tt e _ _ _ _ _)).
  - vm_compute. discriminate.
  - reflexivity.
  - reflexivity.
  - reflexivity.
  - intro w. reflexivity.
Defined.

(** A number that is not negative rounds to one, or overflows. *)
Lemma round64_nonneg_cases (q : Q) :
  (0 <= q)%Q ->
  Js64.round64 q = Js.PosInf \/
  exists v, Js64.round64 q = Js.Fin v /\ (0 <= v)%Q.
Proof.
  intro H. pose proof (round64_nonneg H) as N.
  destruct (Qlt_le_dec 0 q) as [P | P].
  - rewrite (round64_pos P) in *.
    destruct (Qle_bool _ _); [now left | right].
    eexists; split; [reflexivity |].
    unfold Js.leb, Js.cmp in N. q_compare; lra.
  - right. exists 0%Q. split; [apply round64_zero; lra | lra].
Qed.

(** Rounding does not take a number across a double. *)
Lemma round64_le_double (q v : Q) :
  (0 <= q)%Q -> (q <= v)%Q -> Js64.round64 v = Js.Fin v ->
  exists w, Js64.round64 q = Js.Fin w /\ (0 <= w <= v)%Q.
Proof.
  intros H0 Hle Hv.
  pose proof (round64_monotone H0 Hle) as M. rewrite Hv in M.
  destruct (round64_nonneg_cases H0) as [E | (w & E & Hw)];
    rewrite E in M; [discriminate |].
  exists w. split; [exact E |].
  unfold Js.leb, Js.cmp in M. split; [exact Hw | q_compare; lra].
Qed.

Lemma round64_ge_double (q v : Q) :
  (0 <= v)%Q -> (v <= q)%Q -> Js64.round64 v = Js.Fin v ->
  Js.leb (Js.Fin v) (Js64.round64 q) = true.
Proof.
  intros H0 Hle Hv. rewrite <- Hv at 1. now apply round64_monotone.
Qed.

(** X4.  For a base delay that is not negative, a random draw in
    [[0, 1]] and an attempt for which [baseDelay * 2 ^ attempt] is a
    finite double [e] (the product does not overflow, so the attempt is
    below 1024), the delay computed is never above [maxDelay] and never
    below the smaller of [e] and [maxDelay]. *)
Theorem calculateDelay_bounds (random baseDelay maxDelay e : Q)
    (attempt : nat) :
  (0 <= random <= 1)%Q -> (0 <= baseDelay)%Q ->
  Js64.mul (Js.Fin baseDelay) (Js.pow2 attempt) = Js.Fin e ->
  let delay :=
    ApiRetry.calculateDelay (Js.Fin random) attempt (Js.Fin baseDelay)
                            (Js.Fin maxDelay) in
  Js.leb delay (Js.Fin maxDelay) = true /\
  Js.leb (Js.min2 (Js.Fin e) (Js.Fin maxDelay)) delay = true.
Proof.
  intros [Hr0 Hr1] Hb HE delay. subst delay.
  unfold ApiRetry.calculateDelay. rewrite HE.
  (* the exponential delay is a double that is not negative *)
  assert (He : (0 <= e)%Q /\ Js64.round64 e = Js.Fin e).
  { unfold Js.pow2 in HE.
    destruct (attempt <? 1024)%nat.
    - unfold Js64.mul, Js.mul, Js.of_Z, Js64.rounded in HE.
      set (P := inject_Z (2 ^ Z.of_nat attempt)) in HE.
      assert (HP : (0 < P)%Q).
      { unfold P. change 0%Q with (inject_Z 0). rewrite <- Zlt_Qlt.
        apply Z.pow_pos_nonneg; lia. }
      assert (H0 : (0 <= Qred (baseDelay * P))%Q).
      { rewrite Qred_correct.
        apply Qmult_le_0_compat; [exact Hb | now apply Qlt_le_weak]. }
      split; [| now apply round64_fixed with (q := Qred (baseDelay * P))].
      pose proof (round64_nonneg H0) as N. rewrite HE in N.
      unfold Js.leb, Js.cmp in N. q_compare; lra.
    - exfalso. unfold Js64.mul, Js.mul, Js.sign_of, Js.cmp, Js.zero,
        Js.of_Z in HE.
      destruct (baseDelay ?= inject_Z 0)%Q; discriminate. }
  destruct He as [He0 Hfix].
  (* a quarter of the draw *)
  assert (Hq : exists r, Js64.mul (Js.Fin random) (Js.Fin (25 # 100))
                         = Js.Fin r /\ (0 <= r <= 1)%Q).
  { unfold Js64.mul, Js.mul, Js64.rounded.
    apply round64_le_double.
    - rewrite Qred_correct. nra.
    - rewrite Qred_correct. nra.
    - reflexivity. }
  destruct Hq as (r & -> & Hr).
  (* the jitter *)
  assert (Hj : exists j, Js64.mul (Js.Fin r) (Js.Fin e) = Js.Fin j /\
                         (0 <= j <= e)%Q).
  { unfold Js64.mul, Js.mul, Js64.rounded.
    apply round64_le_double.
    - rewrite Qred_correct. nra.
    - rewrite Qred_correct. nra.
    - exact Hfix. }
  destruct Hj as (j & -> & Hj).
  (* the sum *)
  unfold Js64.add, Js.add, Js64.rounded.
  assert (Hs : Js.leb (Js.Fin e) (Js64.round64 (Qred (e + j))) = true).
  { apply round64_ge_double; [exact He0 | | exact Hfix].
    rewrite Qred_correct. lra. }
  assert (Hs0 : (0 <= Qred (e + j))%Q) by (rewrite Qred_correct; lra).
  destruct (round64_nonneg_cases Hs0) as [E | (d & E & Hd)];
    rewrite E in *.
  - unfold Js.min2, Js.leb, Js.cmp. split; q_compare.
  - unfold Js.min2, Js.leb, Js.cmp in *.
    destruct (Qcompare_spec d maxDelay);
      destruct (Qcompare_spec e maxDelay); split; q_compare.
Qed.

(** A use of the theorem: third attempt, one second base delay, ten
    seconds cap, a draw of 1/2. *)
Lemma calculateDelay_bounds_witness :
  Js.leb (ApiRetry.calculateDelay (Js.Fin (1 # 2)) 2 (Js.Fin 1000)
                                  (Js.Fin 10000))
         (Js.Fin 10000) = true.
Proof.
  refine (proj1 (@calculateDelay_bounds (1 # 2) 1000 10000 4000 2 _ _ _)).
  - split; discriminate.
  - discriminate.
  - vm_compute. reflexivity.
Defined.

(** Outside those conditions the delay need not be a number: from the
    attempt 1024 the power overflows, and an infinite product with a draw
    of zero gives [NaN], which [Math.min] returns. *)
Example calculateDelay_overflow :
  ApiRetry.calculateDelay (Js.Fin 0) 1024 (Js.of_Z 1000) (Js.of_Z 10000)
  = Js.NaN /\
  ApiRetry.calculateDelay (Js.Fin (1 # 2)) 1024 (Js.of_Z 0) (Js.of_Z 10000)
  = Js.NaN.
Proof. split; vm_compute; reflexivity. Qed.

(* ================================================================== *)
(** * Further properties of the fallback wrappers and the health prober *)
(* ================================================================== *)

(** X5.  [withFallback] never throws.  Without a key it answers [null]
    and does not invoke [apiCall]; it answers a value exactly when the key
    is set and [apiCall] returned that value. *)
Theorem withFallback_total (W T : Type) (key : string)
    (apiCall : W -> Js.Outcome T * W) (context : string) (w : W) :
  (exists r,
     fst (MockFallback.withFallback key apiCall context w) = Js.Returned r)
  /\
  (Js.str_truthy key = false ->
   MockFallback.withFallback key (MockFallback.spy apiCall) context
                             (0%nat, w)
   = (Js.Returned None, (0%nat, w)))
  /\
  (forall v,
     fst (MockFallback.withFallback key apiCall context w)
     = Js.Returned (Some v)
     <-> Js.str_truthy key = true /\ fst (apiCall w) = Js.Returned v).
Proof.
  unfold MockFallback.withFallback.
  repeat split.
  - destruct (Js.str_truthy key); simpl; [| eexists; reflexivity].
    destruct (apiCall w) as [[v | e] w1]; eexists; reflexivity.
  - intros K. now rewrite K.
  - destruct (Js.str_truthy key); simpl in *; [reflexivity |]. discriminate.
  - destruct (Js.str_truthy key); simpl in *; [| discriminate].
    destruct (apiCall w) as [[v' | e] w1]; simpl in *; congruence.
  - intros [K E]. rewrite K. simpl.
    destruct (apiCall w) as [[v' | e] w1]; simpl in *; congruence.
Qed.

(** X6.  After [invalidateHealthCache], the next [checkApiHealth] does not
    answer from the cache, whatever [skipCache] is: its result carries the
    time of that call, and with a configured key a request is sent. *)
Theorem invalidate_forces_fresh_check (key : string) (skipCache : bool)
    (timestamp now : Z) (net : ApiStatus.FetchOutcome)
    (st : ApiStatus.State) :
  let out :=
    ApiStatus.checkApiHealth key skipCache timestamp now net
      (ApiStatus.invalidateHealthCache st) in
  ApiStatus.timestamp (fst out) = timestamp /\
  ApiStatus.fetches (snd out)
  = if ApiStatus.isApiKeyConfigured key
    then S (ApiStatus.fetches st) else ApiStatus.fetches st.
Proof.
  intro out.
  assert (Hmiss : ApiStatus.cache_hit skipCache now
                    (ApiStatus.invalidateHealthCache st) = None)
    by (unfold ApiStatus.cache_hit; destruct skipCache; reflexivity).
  destruct (checkApiHealth_cache_miss key skipCache timestamp now net
              (ApiStatus.invalidateHealthCache st) Hmiss) as [Ht H].
  fold out in Ht, H. split; [exact Ht |].
  unfold Props.probe_kind in H.
  destruct (ApiStatus.isApiKeyConfigured key); simpl in H.
  - destruct net as [http | e];
      [destruct (ApiStatus.response_ok http);
       [| destruct (http =? 429)%Z] |];
      destruct H as (_ & _ & H); exact H.
  - destruct H as (_ & _ & H); exact H.
Qed.

(** X7.  A result that [checkApiHealth] stores (any outcome but HTTP 429,
    reached past the cache) is what [getCachedHealthStatus] returns during
    the five minutes after the call and no longer afterwards; during those
    five minutes a further [checkApiHealth()] returns it without sending a
    request. *)
Theorem stored_result_is_served (key : string) (skipCache : bool)
    (timestamp now : Z) (net : ApiStatus.FetchOutcome)
    (st : ApiStatus.State) :
  ApiStatus.cache_hit skipCache now st = None ->
  Props.probe_kind key net <> Props.probe_429 ->
  let out := ApiStatus.checkApiHealth key skipCache timestamp now net st in
  forall now' : Z,
    ApiStatus.getCachedHealthStatus now' (snd out)
    = (if (now' - timestamp <? 5 * 60 * 1000)%Z
       then Some (fst out) else None)
    /\
    ((now' - timestamp < 5 * 60 * 1000)%Z ->
     forall timestamp' net',
       ApiStatus.checkApiHealth key false timestamp' now' net' (snd out)
       = (fst out, snd out)).
Proof.
  intros Hmiss Hkind out now'.
  destruct (checkApiHealth_cache_miss key skipCache timestamp now net st
              Hmiss) as [Ht H].
  fold out in Ht, H.
  assert (Hc : ApiStatus.cachedHealthCheck (snd out) = Some (fst out)).
  { destruct (Props.probe_kind key net); try tauto. }
  split.
  - unfold ApiStatus.getCachedHealthStatus. rewrite Hc.
    unfold ApiStatus.isCacheValid. rewrite Ht. reflexivity.
  - intros Hage timestamp' net'.
    apply checkApiHealth_cache_hit; [exact Hc |]. now rewrite Ht.
Qed.

(** A use of the theorem: an empty slot, a probe answered by HTTP 200. *)
Lemma stored_result_is_served_witness :
  let out :=
    ApiStatus.checkApiHealth "secret" false 1000 1000
      (ApiStatus.Responded 200) (ApiStatus.mkState None 0) in
  ApiStatus.getCachedHealthStatus 2000 (snd out) = Some (fst out).
Proof.
  intro out.
  refine (proj1 (@stored_result_is_served "secret" false 1000 1000
                   (ApiStatus.Responded 200) (ApiStatus.mkState None 0)
                   _ _ 2000%Z)).
  - reflexivity.
  - vm_compute. discriminate.
Defined.

(** X8.  After a call of [checkApiHealth] that went past the cache,
    [isUsingMockData] reports the [usingMockData] flag of the result the
    call returned, unless the call was answered by HTTP 429: then the slot
    is as before, and with an empty slot and a key [isUsingMockData]
    answers [false] although the result says [usingMockData: true]. *)
Theorem isUsingMockData_after_check (key : string) (skipCache : bool)
    (timestamp now : Z) (net : ApiStatus.FetchOutcome)
    (st : ApiStatus.State) :
  ApiStatus.cache_hit skipCache now st = None ->
  let out := ApiStatus.checkApiHealth key skipCache timestamp now net st in
  (Props.probe_kind key net <> Props.probe_429 ->
   ApiStatus.isUsingMockData key (snd out)
   = ApiStatus.usingMockData (fst out))
  /\
  (Props.probe_kind key net = Props.probe_429 ->
   ApiStatus.cachedHealthCheck st = None ->
   ApiStatus.usingMockData (fst out) = true /\
   ApiStatus.isUsingMockData key (snd out) = false).
Proof.
  intros Hmiss out.
  destruct (checkApiHealth_cache_miss key skipCache timestamp now net st
              Hmiss) as [Ht H].
  fold out in Ht, H.
  assert (Hkey : ApiStatus.isApiKeyConfigured key = true ->
                 Js.str_truthy key = true).
  { unfold ApiStatus.isApiKeyConfigured.
    destruct (Js.str_truthy key); [reflexivity | discriminate]. }
  unfold Props.probe_kind in *. unfold ApiStatus.isUsingMockData.
  unfold Props.summary in H.
  destruct (ApiStatus.isApiKeyConfigured key) eqn:K; simpl in *.
  - rewrite (Hkey eq_refl). simpl. rewrite orb_false_r.
    destruct net as [http | e];
      [destruct (ApiStatus.response_ok http);
       [| destruct (http =? 429)%Z] |];
      destruct H as (Hs & Hc & _); rewrite Hc; injection Hs as _ Hu _;
      split; try congruence; try (intros _; exact Hu).
    intros _ Hnone. rewrite Hnone. split; [exact Hu | reflexivity].
  - destruct H as (Hs & Hc & _). rewrite Hc. injection Hs as _ Hu _.
    rewrite Hu. split; [reflexivity | discriminate].
Qed.

(** A use of the theorem: no key, hence mock data. *)
Lemma isUsingMockData_after_check_witness :
  ApiStatus.isUsingMockData ""
    (snd (ApiStatus.checkApiHealth "" false 0 0 (ApiStatus.Responded 200)
            (ApiStatus.mkState None 0))) = true.
Proof.
  refine (eq_trans
            (proj1 (@isUsingMockData_after_check "" false 0%Z 0%Z
                      (ApiStatus.Responded 200) (ApiStatus.mkState None 0)
                      _) _) _).
  - reflexivity.
  - vm_compute. discriminate.
  - reflexivity.
Defined.

(* ================================================================== *)
(** * Further properties of the price range and the search provider     *)
(* ================================================================== *)

Lemma round64_dyadic_small (m j : Z) :
  0 <= m < 2 ^ 53 -> -1074 <= j <= 970 ->
  let v := Qred (inject_Z m * Js64.pow2 j) in
  Js64.round64 v = Js.Fin v.
Proof.
  intros Hm Hj v.
  assert (L : (inject_Z m * Js64.pow2 j < Js64.pow2 1024)%Q).
  { pose proof (pow2_pos j) as Pj.
    apply Qlt_le_trans with (Js64.pow2 53 * Js64.pow2 j)%Q.
    - apply Qmult_lt_compat_r; [exact Pj |].
      rewrite pow2_Z by lia. rewrite <- Zlt_Qlt. lia.
    - rewrite <- pow2_add. apply pow2_le. lia. }
  unfold v.
  rewrite (@round64_comp (Qred (inject_Z m * Js64.pow2 j))
             (inject_Z m * Js64.pow2 j)) by apply Qred_correct.
  apply round64_dyadic; [exact Hm | lia | exact L].
Qed.

Lemma Qfloor_between (w : Q) (k : Z) :
  (inject_Z k <= w)%Q -> (w < inject_Z (k + 1))%Q -> Qfloor w = k.
Proof.
  intros L U.
  pose proof (Qfloor_le w) as F. pose proof (Qlt_floor w) as G.
  assert (inject_Z (Qfloor w) < inject_Z (k + 1))%Q as A by lra.
  assert (inject_Z k < inject_Z (Qfloor w + 1))%Q as B by lra.
  rewrite <- Zlt_Qlt in A, B. lia.
Qed.

Lemma Qceiling_between (w : Q) (c : Z) :
  (inject_Z (c - 1) < w)%Q -> (w <= inject_Z c)%Q -> Qceiling w = c.
Proof.
  intros L U.
  pose proof (Qle_ceiling w) as F. pose proof (Qceiling_lt w) as G.
  assert (inject_Z (Qceiling w - 1) < inject_Z c)%Q as A by lra.
  assert (inject_Z (c - 1) < inject_Z (Qceiling w))%Q as B by lra.
  rewrite <- Zlt_Qlt in A, B. lia.
Qed.

(** The product of two whole numbers that stays within [2 ^ 53]. *)
Lemma mul64_of_Z (a b : Z) :
  0 <= a * b <= 2 ^ 53 ->
  Js64.mul (Js.of_Z a) (Js.of_Z b) = Js.of_Z (a * b).
Proof.
  intro H. unfold Js64.mul, Js.mul, Js.of_Z, Js64.rounded.
  rewrite (@round64_comp (Qred (inject_Z a * inject_Z b))
             (inject_Z (a * b)))
    by (rewrite Qred_correct, inject_Z_mult; reflexivity).
  now apply round64_of_Z.
Qed.

(** A hundredth of a whole number of at most [2 ^ 52], as a double: it
    lies with the exact quotient between the same two whole numbers. *)
Lemma div64_hundred (z : Z) :
  0 < z <= 2 ^ 52 ->
  exists w,
    Js64.div (Js.of_Z z) (Js.of_Z 100) = Js.Fin w /\
    Qfloor w = z / 100 /\ Qceiling w = (z + 99) / 100.
Proof.
  intros [Z0 Z1].
  assert (B52 : 2 ^ 52 = 4503599627370496) by reflexivity.
  set (k := z / 100). set (r := z mod 100).
  assert (Hz : z = 100 * k + r) by (apply Z.div_mod; lia).
  assert (Hr : 0 <= r < 100) by (apply Z.mod_pos_bound; lia).
  assert (Hk : 0 <= k) by (apply Z.div_pos; lia).
  unfold Js64.div, Js.div, Js.of_Z, Js64.rounded.
  change (Qeq_bool (inject_Z 100) 0) with false. cbv iota.
  set (q := Qred (inject_Z z / inject_Z 100)).
  assert (Eq : (q == inject_Z k + inject_Z r * (1 # 100))%Q).
  { unfold q. rewrite Qred_correct, Hz, inject_Z_plus, inject_Z_mult.
    change (inject_Z 100) with 100%Q. field. }
  assert (Qr0 : (0 <= inject_Z r)%Q)
    by (change 0%Q with (inject_Z 0); rewrite <- Zle_Qle; lia).
  assert (Qr1 : (inject_Z r <= 99)%Q)
    by (change 99%Q with (inject_Z 99); rewrite <- Zle_Qle; lia).
  assert (Qk0 : (0 <= inject_Z k)%Q)
    by (change 0%Q with (inject_Z 0); rewrite <- Zle_Qle; lia).
  assert (P128 : Js64.pow2 (-7) = (1 # 128)%Q) by reflexivity.
  (* the doubles [k], [k + 1 - 1/128], [k + 1/128] and [k + 1] *)
  pose proof (@round64_of_Z k ltac:(lia)) as Dk.
  pose proof (@round64_of_Z (k + 1) ltac:(lia)) as Dk1.
  pose proof (@round64_dyadic_small (128 * (k + 1) - 1) (-7)
                ltac:(lia) ltac:(lia)) as Dup.
  pose proof (@round64_dyadic_small (128 * k + 1) (-7)
                ltac:(lia) ltac:(lia)) as Dlo.
  cbv zeta in Dup, Dlo. rewrite P128 in Dup, Dlo.
  set (up := Qred (inject_Z (128 * (k + 1) - 1) * (1 # 128))) in Dup.
  set (lo := Qred (inject_Z (128 * k + 1) * (1 # 128))) in Dlo.
  assert (Eup : (up == inject_Z k + 1 - (1 # 128))%Q).
  { unfold up. rewrite Qred_correct.
    unfold Z.sub. rewrite inject_Z_plus, inject_Z_mult, inject_Z_plus.
    change (inject_Z 128) with 128%Q. change (inject_Z 1) with 1%Q.
    change (inject_Z (- (1))) with (- 1)%Q. field. }
  assert (Elo : (lo == inject_Z k + (1 # 128))%Q).
  { unfold lo. rewrite Qred_correct, inject_Z_plus, inject_Z_mult.
    change (inject_Z 128) with 128%Q. change (inject_Z 1) with 1%Q. field. }
  assert (Ek1 : (inject_Z (k + 1) == inject_Z k + 1)%Q)
    by (rewrite inject_Z_plus; reflexivity).
  assert (Q0 : (0 <= q)%Q) by lra.
  destruct (@round64_le_double q up Q0 ltac:(lra) Dup) as (w & Ew & W0 & Wup).
  pose proof (@round64_ge_double q (inject_Z k) Qk0 ltac:(lra) Dk) as Wk.
  rewrite Ew in Wk. unfold Js.leb, Js.cmp in Wk.
  assert (Wk' : (inject_Z k <= w)%Q) by (q_compare; lra).
  exists w. split; [exact Ew |]. split.
  - apply Qfloor_between; lra.
  - destruct (Z.eq_dec r 0) as [R0 | R0].
    + (* an exact multiple of 100 *)
      replace ((z + 99) / 100) with k
        by (apply Z.div_unique with (r := 99); lia).
      assert (Eqk : (q == inject_Z k)%Q).
      { rewrite Eq, R0. change (inject_Z 0) with 0%Q. ring. }
      rewrite (@round64_comp q (inject_Z k) Eqk), Dk in Ew.
      assert (w = inject_Z k) by congruence. subst w.
      apply Qceiling_Z.
    + replace ((z + 99) / 100) with (k + 1)
        by (apply Z.div_unique with (r := r - 1); lia).
      assert (Qr2 : (1 <= inject_Z r)%Q)
        by (change 1%Q with (inject_Z 1); rewrite <- Zle_Qle; lia).
      assert (L0 : (0 <= lo)%Q) by lra.
      pose proof (@round64_ge_double q lo L0 ltac:(lra) Dlo) as Wlo.
      rewrite Ew in Wlo. unfold Js.leb, Js.cmp in Wlo.
      assert (Wlo' : (lo <= w)%Q) by (q_compare; lra).
      assert (Wk1 : (w <= inject_Z (k + 1))%Q) by lra.
      apply Qceiling_between; [| exact Wk1].
      replace (k + 1 - 1) with k by lia. lra.
Qed.

(** The bounds derived from a whole price of at most [2 ^ 52] are the
    multiples of 100 around it. *)
Lemma rounded_whole (z : Z) :
  0 < z <= 2 ^ 52 ->
  Js64.mul (Js.floor (Js64.div (Js.of_Z z) (Js.of_Z 100))) (Js.of_Z 100)
  = Js.of_Z (z / 100 * 100) /\
  Js64.mul (Js.ceil (Js64.div (Js.of_Z z) (Js.of_Z 100))) (Js.of_Z 100)
  = Js.of_Z ((z + 99) / 100 * 100).
Proof.
  intro H. destruct (div64_hundred H) as (w & -> & F & C).
  assert (B52 : 2 ^ 52 = 4503599627370496) by reflexivity.
  assert (B53 : 2 ^ 53 = 9007199254740992) by reflexivity.
  unfold Js.floor, Js.ceil. rewrite F, C.
  pose proof (Z.div_mod z 100 ltac:(lia)) as D1.
  pose proof (Z.mod_pos_bound z 100 ltac:(lia)) as M1.
  pose proof (Z.div_mod (z + 99) 100 ltac:(lia)) as D2.
  pose proof (Z.mod_pos_bound (z + 99) 100 ltac:(lia)) as M2.
  split; apply mul64_of_Z; lia.
Qed.

Lemma whole_number_inv (p : Js.num) :
  MoreProps.whole_number p = true ->
  exists z, p = Js.of_Z z /\ z <= 2 ^ 52.
Proof.
  destruct p as [| | | [n d]]; try discriminate.
  unfold MoreProps.whole_number. cbn [Qnum Qden]. intro H.
  apply andb_true_iff in H. destruct H as [Hd Hn].
  apply Pos.eqb_eq in Hd. apply Z.leb_le in Hn. subst d.
  exists n. split; [reflexivity | exact Hn].
Qed.

Lemma whole_prices_inv (prices : list Js.num) (p : Js.num) :
  MoreProps.whole_prices prices = true ->
  In p prices -> Js.gtb p Js.zero = true ->
  exists z, p = Js.of_Z z /\ 0 < z <= 2 ^ 52.
Proof.
  intros H Hin Hpos. unfold MoreProps.whole_prices in H.
  rewrite forallb_forall in H. specialize (H p Hin).
  rewrite Hpos in H. cbn [negb orb] in H.
  destruct (whole_number_inv p H) as (z & -> & Hz).
  exists z. split; [reflexivity |]. split; [| exact Hz].
  unfold Js.gtb, Js.ltb, Js.cmp, Js.zero, Js.of_Z in Hpos.
  destruct (Qcompare_spec (inject_Z 0) (inject_Z z)) as [E | E | E];
    try discriminate.
  now rewrite <- Zlt_Qlt in E.
Qed.

(** Rounding a whole positive price down to a multiple of 100, and not
    below zero, does not exceed the price. *)
Lemma rounded_down_below (z : Z) :
  0 < z <= 2 ^ 52 ->
  Js.leb (Js.max2 Js.zero
            (Js64.mul (Js.floor (Js64.div (Js.of_Z z) (Js.of_Z 100)))
                      (Js.of_Z 100)))
         (Js.of_Z z) = true.
Proof.
  intro H. rewrite (proj1 (rounded_whole H)).
  pose proof (Z.div_mod z 100 ltac:(lia)) as D.
  pose proof (Z.mod_pos_bound z 100 ltac:(lia)) as M.
  assert (K : 0 <= z / 100) by (apply Z.div_pos; lia).
  unfold Js.max2, Js.leb, Js.cmp, Js.zero, Js.of_Z.
  rewrite Qcompare_inject_Z.
  destruct (Z.compare_spec 0 (z / 100 * 100)); rewrite Qcompare_inject_Z;
    match goal with
    | |- context [Z.compare ?a ?b] => destruct (Z.compare_spec a b)
    end; try reflexivity; lia.
Qed.

(** Rounding it up to a multiple of 100 does not go below it. *)
Lemma rounded_up_above (z : Z) :
  0 < z <= 2 ^ 52 ->
  Js.leb (Js.of_Z z)
         (Js64.mul (Js.ceil (Js64.div (Js.of_Z z) (Js.of_Z 100)))
                   (Js.of_Z 100)) = true.
Proof.
  intro H. rewrite (proj2 (rounded_whole H)).
  pose proof (Z.div_mod (z + 99) 100 ltac:(lia)) as D.
  pose proof (Z.mod_pos_bound (z + 99) 100 ltac:(lia)) as M.
  unfold Js.leb, Js.cmp, Js.of_Z. rewrite Qcompare_inject_Z.
  destruct (Z.compare_spec z ((z + 99) / 100 * 100)); try reflexivity; lia.
Qed.

Lemma calculatePriceRange_covers_aux (prices : list Js.num) (p : Js.num) :
  MoreProps.whole_prices prices = true ->
  In p prices -> Js.gtb p Js.zero = true ->
  let r := PriceRange.calculatePriceRange prices in
  Js.leb (PriceRange.min r) p = true /\ Js.leb p (PriceRange.max r) = true.
Proof.
  intros Hw Hin Hpos r. subst r.
  unfold PriceRange.calculatePriceRange. fold Props.positive.
  set (positives := filter Props.positive prices).
  assert (Hp : In p positives) by (apply filter_In; split; assumption).
  assert (Hne : positives <> []) by (intro E; rewrite E in Hp; destruct Hp).
  assert (Hnn : forall q, In q positives -> Js.is_nan q = false).
  { intros q Hq. apply filter_In in Hq. now apply positive_not_nan. }
  destruct (min_list_least Hne Hnn) as [Hlo_in Hlo].
  destruct (max_list_greatest Hne Hnn) as [Hhi_in Hhi].
  assert (Hlen : Nat.eqb (List.length positives) 0 = false)
    by (destruct positives; [congruence | reflexivity]).
  rewrite Hlen. cbn [PriceRange.min PriceRange.max].
  apply filter_In in Hlo_in, Hhi_in.
  destruct (@whole_prices_inv prices _ Hw (proj1 Hlo_in) (proj2 Hlo_in))
    as (zlo & Elo & Zlo).
  destruct (@whole_prices_inv prices _ Hw (proj1 Hhi_in) (proj2 Hhi_in))
    as (zhi & Ehi & Zhi).
  split.
  - apply leb_trans with (b := Js.min_list positives); [| now apply Hlo].
    rewrite Elo. now apply rounded_down_below.
  - apply leb_trans with (b := Js.max_list positives); [now apply Hhi |].
    rewrite Ehi. now apply rounded_up_above.
Qed.

(** X9.  When the strictly positive prices of its argument are whole
    numbers of at most [2 ^ 52], the range [calculatePriceRange] derives
    contains every one of them: [min <= p <= max]. *)
Theorem calculatePriceRange_covers (prices : list Js.num) (p : Js.num) :
  MoreProps.whole_prices prices = true ->
  In p prices -> Js.gtb p Js.zero = true ->
  let r := PriceRange.calculatePriceRange prices in
  Js.leb (PriceRange.min r) p = true /\ Js.leb p (PriceRange.max r) = true.
Proof. exact (@calculatePriceRange_covers_aux prices p). Qed.

(** A use of the theorem: the price 455 among 120, 455 and 999. *)
Lemma calculatePriceRange_covers_witness :
  let r := PriceRange.calculatePriceRange
             [Js.of_Z 120; Js.of_Z 455; Js.of_Z 999] in
  Js.leb (PriceRange.min r) (Js.of_Z 455) = true /\
  Js.leb (Js.of_Z 455) (PriceRange.max r) = true.
Proof.
  apply (@calculatePriceRange_covers
           [Js.of_Z 120; Js.of_Z 455; Js.of_Z 999] (Js.of_Z 455)).
  - reflexivity.
  - right; left; reflexivity.
  - reflexivity.
Defined.

(** Without the condition the range can miss a price: the quotient of
    the smallest positive double by 100 underflows to zero, and the range
    of that price alone is [{min: 0, max: 0}]. *)
Example calculatePriceRange_underflow :
  let p := Js.Fin (Js64.pow2 (-1074)) in
  Js64.round64 (Js64.pow2 (-1074)) = Js.Fin (Qred (Js64.pow2 (-1074))) /\
  Js.gtb p Js.zero = true /\
  PriceRange.calculatePriceRange [p]
  = PriceRange.mkRange (Js.Fin 0) (Js.Fin 0).
Proof. vm_compute. repeat split; reflexivity. Qed.

(** With only the price filter active, a flight is kept when its price
    lies in the range. *)
Lemma keeps_only_price (filters : FlightTypes.FlightFilters)
    (f : FlightTypes.Flight) :
  MoreProps.only_price_filter filters ->
  Js.geb (FlightTypes.price f)
         (FlightTypes.min (FlightTypes.priceRange filters)) = true ->
  Js.leb (FlightTypes.price f)
         (FlightTypes.max (FlightTypes.priceRange filters)) = true ->
  Props.keeps filters f = true.
Proof.
  intros (Hs & Ha & Hd & Hr & Hdur) Hmin Hmax.
  unfold Props.keeps. now rewrite Hs, Ha, Hd, Hr, Hdur, Hmin, Hmax.
Qed.

Lemma in_getFilteredFlights (flights : list FlightTypes.Flight)
    (filters : FlightTypes.FlightFilters)
    (sortOption : FlightTypes.SortOption) (f : FlightTypes.Flight) :
  In f (SearchContext.getFilteredFlights flights filters sortOption)
  <-> In f flights /\ Props.keeps filters f = true.
Proof.
  rewrite getFilteredFlights_eq, <- filter_In.
  split; apply Permutation_in;
    [| apply Permutation_sym]; apply sort_perm.
Qed.

(** X10.  When the strictly positive prices of the current result set
    are whole numbers of at most [2 ^ 52], every flight of the set with a
    strictly positive price is in [filteredFlights] after
    [clearFilters]. *)
Theorem clearFilters_shows_priced_flights (st : SearchProvider.State)
    (f : FlightTypes.Flight) :
  MoreProps.whole_prices
    (map FlightTypes.price (SearchProvider.flights st)) = true ->
  In f (SearchProvider.flights st) ->
  Js.gtb (FlightTypes.price f) Js.zero = true ->
  In f (SearchProvider.filteredFlights (SearchProvider.clearFilters st)).
Proof.
  intros Hw Hin Hpos.
  unfold SearchProvider.filteredFlights, SearchProvider.clearFilters.
  cbn [SearchProvider.flights SearchProvider.filters
       SearchProvider.sortOption].
  apply in_getFilteredFlights. split; [exact Hin |].
  unfold SearchContext.calculatePriceRangeFromFlights.
  destruct (SearchProvider.flights st) as [| g rest] eqn:E; [destruct Hin |].
  cbn [List.length Nat.ltb Nat.leb].
  destruct (@calculatePriceRange_covers_aux
              (map FlightTypes.price (g :: rest)) (FlightTypes.price f))
    as [H1 H2]; [exact Hw | now apply in_map | exact Hpos |].
  apply keeps_only_price; [repeat split | exact H1 | exact H2].
Qed.

(** A use of the theorem: two flights, one of them selected by a stops
    filter before the filters are cleared. *)
Lemma clearFilters_shows_priced_flights_witness :
  let A := Props.sample_flight "A" "Delta" 1 200 false in
  let B := Props.sample_flight "B" "United" 0 300 false in
  let st :=
    SearchProvider.mkState None [A; B] false None
      (FlightTypes.mkFilters (FlightTypes.mkBounds Js.zero (Js.of_Z 250))
         [Js.of_Z 1] [] [] [] Js.zero)
      FlightTypes.sort_cheapest in
  In B (SearchProvider.filteredFlights (SearchProvider.clearFilters st)).
Proof.
  intros A B st.
  apply (@clearFilters_shows_priced_flights st B).
  - reflexivity.
  - right; left; reflexivity.
  - reflexivity.
Defined.

(** X11.  [performSearch] always ends with [isLoading] off.  When the
    search fails, the result set is emptied and the error message is set
    (the message of the error, or a fixed text for a value that is not an
    [Error]), so nothing is displayed.  When it succeeds, the error is
    cleared, the result set replaced, and with no filter other than the
    price range active and the strictly positive prices of the results
    whole numbers of at most [2 ^ 52], every result with a strictly
    positive price is in [filteredFlights]. *)
Theorem performSearch_outcome (params : SearchParams.FlightSearchParams)
    (outcome : Js.Outcome (list FlightTypes.Flight))
    (st : SearchProvider.State) :
  let st' := SearchProvider.performSearch params outcome st in
  SearchProvider.isLoading st' = false /\
  SearchProvider.searchParams st' = Some params /\
  match outcome with
  | Js.Threw err =>
      SearchProvider.flights st' = [] /\
      SearchProvider.filteredFlights st' = [] /\
      SearchProvider.filters st' = SearchProvider.filters st /\
      exists message, SearchProvider.error st' = Some message
  | Js.Returned results =>
      SearchProvider.flights st' = results /\
      SearchProvider.error st' = None /\
      (MoreProps.only_price_filter (SearchProvider.filters st) ->
       MoreProps.whole_prices (map FlightTypes.price results) = true ->
       forall f, In f results ->
                 Js.gtb (FlightTypes.price f) Js.zero = true ->
                 In f (SearchProvider.filteredFlights st'))
  end.
Proof.
  intro st'. subst st'.
  unfold SearchProvider.performSearch, SearchProvider.performSearch_end,
    SearchProvider.performSearch_begin.
  destruct outcome as [results | err];
    cbn [SearchProvider.isLoading SearchProvider.searchParams
         SearchProvider.flights SearchProvider.error
         SearchProvider.filters SearchProvider.sortOption];
    repeat split.
  - intros (Hs & Ha & Hd & Hr & Hdur) Hw f Hin Hpos.
    unfold SearchProvider.filteredFlights.
    cbn [SearchProvider.flights SearchProvider.filters
         SearchProvider.sortOption].
    apply in_getFilteredFlights. split; [exact Hin |].
    destruct results as [| g rest]; [destruct Hin |].
    cbn [List.length Nat.ltb Nat.leb].
    destruct (@calculatePriceRange_covers_aux
                (map FlightTypes.price (g :: rest)) (FlightTypes.price f))
      as [H1 H2]; [exact Hw | now apply in_map | exact Hpos |].
    apply keeps_only_price; [repeat split; assumption | exact H1 | exact H2].
  - eexists; reflexivity.
Qed.

(* ================================================================== *)
(** * Further properties: airport codes                                 *)
(* ================================================================== *)

(** Runs a statement about one character through the 256 characters. *)
Ltac each_char c :=
  destruct c as [[] [] [] [] [] [] [] []]; vm_compute;
  try reflexivity; try discriminate; auto.

Lemma upper_char_idempotent (c : ascii) :
  JsText.upper_char (JsText.upper_char c) = JsText.upper_char c.
Proof. each_char c. Qed.

Lemma upper_char_letter (c : ascii) :
  JsText.is_letter c = true ->
  JsText.is_upper (JsText.upper_char c) = true.
Proof. each_char c. Qed.

Lemma upper_char_of_upper (c : ascii) :
  JsText.is_upper c = true -> JsText.upper_char c = c.
Proof. each_char c. Qed.

Lemma is_upper_letter (c : ascii) :
  JsText.is_upper c = true -> JsText.is_letter c = true.
Proof. unfold JsText.is_letter. now intros ->. Qed.

Lemma letter_not_paren (c : ascii) :
  JsText.is_letter c = true -> Ascii.eqb c "(" = false.
Proof. each_char c. Qed.

Lemma toUpperCase_idempotent (s : string) :
  JsText.toUpperCase (JsText.toUpperCase s) = JsText.toUpperCase s.
Proof.
  unfold JsText.toUpperCase.
  induction s as [| c r IH]; simpl; [reflexivity |].
  now rewrite upper_char_idempotent, IH.
Qed.

(** The pattern can only match at an opening parenthesis. *)
Lemma paren_code_here_head (ci : bool) (c : ascii) (r g : string) :
  JsText.paren_code_here ci (String c r) = Some g -> Ascii.eqb c "(" = true.
Proof.
  destruct c as [[] [] [] [] [] [] [] []]; simpl; try discriminate.
  reflexivity.
Qed.

Lemma paren_code_here_not_paren (ci : bool) (c : ascii) (r : string) :
  Ascii.eqb c "(" = false -> JsText.paren_code_here ci (String c r) = None.
Proof.
  intro H. destruct (JsText.paren_code_here ci (String c r)) eqn:E;
    [| reflexivity].
  apply paren_code_here_head in E. congruence.
Qed.

(** A group captured by the pattern is a three-letter code. *)
Lemma paren_code_here_is_code (ci : bool) (s g : string) :
  JsText.paren_code_here ci s = Some g -> JsText.is_code ci g = true.
Proof.
  intro H. destruct s as [| p s1]; [discriminate |].
  pose proof (paren_code_here_head _ _ _ H) as P.
  apply Ascii.eqb_eq in P. subst p.
  destruct s1 as [| a [| b [| c [| q r]]]]; try discriminate.
  destruct q as [[] [] [] [] [] [] [] []]; try discriminate.
  unfold JsText.paren_code_here in H. unfold JsText.is_code.
  destruct ci;
    match type of H with
    | (if ?t then _ else _) = _ => destruct t eqn:E; [| discriminate]
    end.
  all: injection H as H; subst g; exact E.
Qed.

Lemma paren_code_is_code (ci : bool) (s g : string) :
  JsText.paren_code ci s = Some g -> JsText.is_code ci g = true.
Proof.
  induction s as [| c r IH]; cbn [JsText.paren_code].
  - discriminate.
  - destruct (JsText.paren_code_here ci (String c r)) as [h |] eqn:E.
    + intro H. assert (h = g) by congruence. subst h.
      now apply paren_code_here_is_code in E.
    + exact IH.
Qed.

(** The code of a string made of three letters is its upper-case form. *)
Lemma extractIATACode_of_code (t : string) :
  JsText.is_code true t = true ->
  FormatAirport.extractIATACode t = JsText.toUpperCase t.
Proof.
  intro H. unfold FormatAirport.extractIATACode.
  destruct t as [| a [| b [| c [| d r]]]]; try discriminate.
  simpl in H. apply andb_true_iff in H. destruct H as [H Hc].
  apply andb_true_iff in H. destruct H as [Ha Hb].
  cbn [Js.str_truthy negb].
  assert (JsText.paren_code true (String a (String b (String c "")))
          = None) as ->.
  { cbn [JsText.paren_code].
    rewrite !paren_code_here_not_paren by (now apply letter_not_paren).
    reflexivity. }
  simpl. now rewrite Ha, Hb, Hc.
Qed.

Lemma toUpperCase_code (t : string) :
  JsText.is_code true t = true ->
  JsText.is_code true (JsText.toUpperCase t) = true.
Proof.
  destruct t as [| a [| b [| c [| d r]]]]; try discriminate.
  simpl. rewrite !andb_true_iff. intros [[Ha Hb] Hc].
  repeat split; apply is_upper_letter, upper_char_letter; assumption.
Qed.

(** X12.  [extractIATACode] is idempotent: extracting the code from a
    string it returned gives the same string. *)
Theorem extractIATACode_idempotent (s : string) :
  FormatAirport.extractIATACode (FormatAirport.extractIATACode s)
  = FormatAirport.extractIATACode s.
Proof.
  unfold FormatAirport.extractIATACode at 2 3.
  destruct (Js.str_truthy s) eqn:T; cbn [negb]; [| reflexivity].
  destruct (JsText.paren_code true s) as [g |] eqn:E.
  - apply paren_code_is_code in E.
    rewrite extractIATACode_of_code by (now apply toUpperCase_code).
    apply toUpperCase_idempotent.
  - destruct (JsText.is_code true s) eqn:C.
    + rewrite extractIATACode_of_code by (now apply toUpperCase_code).
      apply toUpperCase_idempotent.
    + unfold FormatAirport.extractIATACode. now rewrite T, E, C.
Qed.

(** Text without an opening parenthesis in front of a string does not
    change what the pattern finds. *)
Lemma paren_code_skip_prefix (ci : bool) (prefix rest : string) :
  MoreProps.no_open_paren prefix = true ->
  JsText.paren_code ci (prefix ++ rest) = JsText.paren_code ci rest.
Proof.
  induction prefix as [| c r IH]; intro H; [reflexivity |].
  cbn [MoreProps.no_open_paren] in H.
  apply andb_true_iff in H. destruct H as [Hc Hr].
  apply negb_true_iff in Hc.
  cbn [append JsText.paren_code].
  rewrite (@paren_code_here_not_paren ci _ _ Hc). now apply IH.
Qed.

Lemma paren_code_of_display (ci : bool) (prefix code : string) :
  MoreProps.no_open_paren prefix = true ->
  JsText.is_code ci code = true ->
  JsText.paren_code ci (prefix ++ " (" ++ code ++ ")") = Some code.
Proof.
  intros Hp Hc. rewrite paren_code_skip_prefix by exact Hp.
  destruct code as [| a [| b [| c [| d r]]]]; try (destruct ci; discriminate).
  simpl in Hc |- *. destruct ci; now rewrite Hc.
Qed.

Lemma append_truthy (s t : string) :
  Js.str_truthy s = true -> Js.str_truthy (s ++ t) = true.
Proof. destruct s; [discriminate | reflexivity]. Qed.

Lemma is_code_truthy (ci : bool) (t : string) :
  JsText.is_code ci t = true -> Js.str_truthy t = true.
Proof. destruct t; [destruct ci; discriminate | reflexivity]. Qed.

Lemma is_code_case (t : string) :
  JsText.is_code false t = true -> JsText.is_code true t = true.
Proof.
  destruct t as [| a [| b [| c [| d r]]]]; try discriminate.
  simpl. rewrite !andb_true_iff. intros [[Ha Hb] Hc].
  repeat split; now apply is_upper_letter.
Qed.

(** The text [formatAirportDisplay] produces for an airport with a city
    and a three-letter code: the IATA code when there is one, else a
    [skyId] of three capitals. *)
Lemma formatAirportDisplay_with_code (airport : FormatAirport.Airport)
    (code : string) :
  Js.str_truthy (FormatAirport.city airport) = true ->
  (FormatAirport.iata airport = Some code /\ JsText.is_code true code = true)
  \/ (FormatAirport.opt_truthy (FormatAirport.iata airport) = false /\
      FormatAirport.skyId airport = code /\
      JsText.is_code false code = true) ->
  FormatAirport.formatAirportDisplay airport
  = FormatAirport.city airport ++ " (" ++ code ++ ")".
Proof.
  intros Hcity [[Hi Hc] | (Hi & Hs & Hc)];
    unfold FormatAirport.formatAirportDisplay; rewrite Hcity.
  - rewrite Hi. simpl. now rewrite (is_code_truthy _ _ Hc).
  - rewrite Hi, Hs, Hc. simpl. now rewrite (is_code_truthy _ _ Hc).
Qed.

(** The code is read back from the display text of an airport. *)
Lemma extractIATACode_formatAirportDisplay (airport : FormatAirport.Airport)
    (code : string) :
  Js.str_truthy (FormatAirport.city airport) = true ->
  MoreProps.no_open_paren (FormatAirport.city airport) = true ->
  (FormatAirport.iata airport = Some code /\ JsText.is_code true code = true)
  \/ (FormatAirport.opt_truthy (FormatAirport.iata airport) = false /\
      FormatAirport.skyId airport = code /\
      JsText.is_code false code = true) ->
  FormatAirport.extractIATACode (FormatAirport.formatAirportDisplay airport)
  = JsText.toUpperCase code.
Proof.
  intros Hcity Hparen Hcode.
  rewrite (formatAirportDisplay_with_code airport Hcity Hcode).
  assert (Hc : JsText.is_code true code = true)
    by (destruct Hcode as [[_ H] | (_ & _ & H)];
        [exact H | now apply is_code_case]).
  unfold FormatAirport.extractIATACode.
  rewrite append_truthy by exact Hcity. cbn [negb].
  now rewrite paren_code_of_display.
Qed.

(** X13.  For an airport with a non-empty city name free of "(" and a
    three-letter code (its IATA code, or for want of one a [skyId] of
    three capitals), [extractIATACode] applied to the text
    [formatAirportDisplay] produces returns that code in capitals. *)
Theorem extractIATACode_of_display (airport : FormatAirport.Airport)
    (code : string) :
  Js.str_truthy (FormatAirport.city airport) = true ->
  MoreProps.no_open_paren (FormatAirport.city airport) = true ->
  (FormatAirport.iata airport = Some code /\ JsText.is_code true code = true)
  \/ (FormatAirport.opt_truthy (FormatAirport.iata airport) = false /\
      FormatAirport.skyId airport = code /\
      JsText.is_code false code = true) ->
  FormatAirport.extractIATACode (FormatAirport.formatAirportDisplay airport)
  = JsText.toUpperCase code.
Proof.
  intros Hcity Hparen Hcode.
  exact (extractIATACode_formatAirportDisplay airport Hcity Hparen Hcode).
Qed.

(** A use of the theorem: Los Angeles International. *)
Lemma extractIATACode_of_display_witness :
  let lax :=
    FormatAirport.mkAirport (Some "LAX") None "LAX" "95565060"
      "Los Angeles International" "Los Angeles" "United States"
      None None None (Some FormatAirport.AIRPORT) in
  FormatAirport.extractIATACode (FormatAirport.formatAirportDisplay lax)
  = "LAX".
Proof.
  intro lax.
  apply (@extractIATACode_of_display lax "LAX");
    [reflexivity | reflexivity | left; split; reflexivity].
Defined.

(** X14.  [validateAirports] applied to the display texts of two airports
    (city names free of "(", IATA codes of three capitals) accepts the
    pair exactly when the two codes differ. *)
Theorem validateAirports_display (a b : FormatAirport.Airport)
    (ca cb : string) :
  Js.str_truthy (FormatAirport.city a) = true ->
  Js.str_truthy (FormatAirport.city b) = true ->
  MoreProps.no_open_paren (FormatAirport.city a) = true ->
  MoreProps.no_open_paren (FormatAirport.city b) = true ->
  FormatAirport.iata a = Some ca -> FormatAirport.iata b = Some cb ->
  JsText.is_code false ca = true -> JsText.is_code false cb = true ->
  (Validation.validateAirports (FormatAirport.formatAirportDisplay a)
                               (FormatAirport.formatAirportDisplay b)
   = None <-> ca <> cb).
Proof.
  intros Ha Hb Pa Pb Ia Ib Ca Cb.
  rewrite (formatAirportDisplay_with_code a Ha
             (or_introl (conj Ia (is_code_case _ Ca)))).
  rewrite (formatAirportDisplay_with_code b Hb
             (or_introl (conj Ib (is_code_case _ Cb)))).
  unfold Validation.validateAirports, Validation.extractIATA.
  rewrite !paren_code_of_display by assumption.
  destruct (String.eqb_spec ca cb) as [E | E]; split; intro H;
    congruence.
Qed.

(** A use of the theorem: New York and Los Angeles. *)
Lemma validateAirports_display_witness :
  let jfk :=
    FormatAirport.mkAirport (Some "JFK") None "JFK" "95565058"
      "John F. Kennedy International" "New York" "United States"
      None None None (Some FormatAirport.AIRPORT) in
  let lax :=
    FormatAirport.mkAirport (Some "LAX") None "LAX" "95565060"
      "Los Angeles International" "Los Angeles" "United States"
      None None None (Some FormatAirport.AIRPORT) in
  Validation.validateAirports (FormatAirport.formatAirportDisplay jfk)
                              (FormatAirport.formatAirportDisplay lax)
  = None.
Proof.
  intros jfk lax.
  apply (proj2 (@validateAirports_display jfk lax "JFK" "LAX"
                  eq_refl eq_refl eq_refl eq_refl eq_refl eq_refl
                  eq_refl eq_refl)).
  discriminate.
Defined.

(* ================================================================== *)
(** * Further properties: durations                                     *)
(* ================================================================== *)

(** ** Arithmetic on integers *)

Lemma Qred_inject_Z (z : Z) : Qred (inject_Z z) = inject_Z z.
Proof.
  unfold inject_Z, Qred.
  pose proof (Z.ggcd_gcd z 1) as G.
  pose proof (Z.ggcd_correct_divisors z 1) as D.
  destruct (Z.ggcd z 1) as [g [aa bb]]. simpl in G, D.
  rewrite Z.gcd_1_r in G. subst g. destruct D as [D1 D2].
  rewrite Z.mul_1_l in D1, D2. now subst.
Qed.

Lemma Qred_int (q : Q) (z : Z) : (q == inject_Z z)%Q -> Qred q = inject_Z z.
Proof.
  intro H. rewrite (Qred_complete _ _ H). apply Qred_inject_Z.
Qed.

Lemma add_of_Z (a b : Z) :
  Js.add (Js.of_Z a) (Js.of_Z b) = Js.of_Z (a + b).
Proof.
  unfold Js.add, Js.of_Z. f_equal. apply Qred_int.
  now rewrite inject_Z_plus.
Qed.

Lemma sub_of_Z (a b : Z) :
  Js.sub (Js.of_Z a) (Js.of_Z b) = Js.of_Z (a - b).
Proof.
  unfold Js.sub, Js.neg, Js.add, Js.of_Z. f_equal. apply Qred_int.
  unfold Z.sub. now rewrite inject_Z_plus, inject_Z_opp.
Qed.

Lemma mul_of_Z (a b : Z) :
  Js.mul (Js.of_Z a) (Js.of_Z b) = Js.of_Z (a * b).
Proof.
  unfold Js.mul, Js.of_Z. f_equal. apply Qred_int.
  now rewrite inject_Z_mult.
Qed.

Lemma ltb_of_Z (a b : Z) : Js.ltb (Js.of_Z a) (Js.of_Z b) = (a <? b)%Z.
Proof.
  unfold Js.ltb, Js.cmp, Js.of_Z, Z.ltb. now rewrite Qcompare_inject_Z.
Qed.

Lemma floor_div_60 (t : Z) :
  Js.floor (Js.div (Js.of_Z t) (Js.of_Z 60)) = Js.of_Z (t / 60).
Proof.
  unfold Js.div, Js.of_Z.
  change (Qeq_bool (inject_Z 60) 0) with false. cbv iota.
  unfold Js.floor, Js.of_Z. do 2 f_equal.
  rewrite (Qfloor_comp _ _ (Qred_correct _)).
  unfold Qdiv, Qmult, Qinv, inject_Z, Qfloor. simpl.
  now rewrite Z.mul_1_r.
Qed.

Lemma rem_60 (t : Z) :
  (0 <= t)%Z -> Js.rem (Js.of_Z t) (Js.of_Z 60) = Js.of_Z (t mod 60).
Proof.
  intro Ht. unfold Js.rem, Js.of_Z.
  change (Qeq_bool (inject_Z 60) 0) with false. cbv iota.
  f_equal. apply Qred_int.
  assert (Q : Js.Qtrunc (inject_Z t / inject_Z 60) = (t / 60)%Z).
  { unfold Js.Qtrunc.
    assert (Qle_bool 0 (inject_Z t / inject_Z 60) = true) as ->.
    { apply Qle_bool_iff. unfold Qle, Qdiv, Qmult, Qinv, inject_Z. simpl.
      lia. }
    unfold Qdiv, Qmult, Qinv, inject_Z, Qfloor. simpl.
    now rewrite Z.mul_1_r. }
  rewrite Q.
  pose proof (Z.div_mod t 60 ltac:(lia)) as M.
  set (k := (t / 60)%Z) in *. set (m := (t mod 60)%Z) in *.
  unfold Qeq, Qminus, Qplus, Qmult, Qopp, inject_Z.
  cbn [Qnum Qden]. lia.
Qed.

(** ** Printing and reading decimal numerals *)

Lemma append_empty_r (s : string) : (s ++ "")%string = s.
Proof. induction s as [| c r IH]; simpl; [reflexivity | now rewrite IH]. Qed.

Lemma to_string_of_Z (z : Z) :
  (0 <= z < 10 ^ 21)%Z -> Js.to_string (Js.of_Z z) = Js.Z_to_string z.
Proof.
  intros [Hz Hz']. unfold Js.to_string, Js.of_Z. rewrite Qred_inject_Z.
  cbv zeta. unfold inject_Z, Qnum, Qden.
  rewrite Z.mod_1_r, Z.div_1_r, Z.abs_eq by exact Hz.
  assert ((10 ^ 21 <=? z)%Z = false) as -> by (apply Z.leb_gt; exact Hz').
  change (0 <? 0)%Z with false. rewrite andb_false_r. cbn [andb].
  change (0 =? 0)%Z with true. cbv iota.
  assert ((z <? 0)%Z = false) as -> by (apply Z.ltb_ge; exact Hz).
  apply append_empty_r.
Qed.

Lemma uint_value_pos (d : Decimal.uint) (p : positive) :
  MoreProps.uint_value d (Zpos p) = Zpos (Pos.of_uint_acc d p).
Proof.
  revert p. induction d; intro p;
    cbn [MoreProps.uint_value Pos.of_uint_acc];
    try reflexivity; rewrite <- IHd; f_equal; lia.
Qed.

Lemma uint_value_zero (d : Decimal.uint) :
  MoreProps.uint_value d 0 = Z.of_N (Pos.of_uint d).
Proof.
  induction d; cbn [MoreProps.uint_value Pos.of_uint];
    try reflexivity; try exact IHd;
    cbn [Z.of_N]; rewrite <- uint_value_pos; reflexivity.
Qed.

(** The numeral printed for a natural number: it is not empty and denotes
    the number. *)
Lemma Z_to_string_numeral (z : Z) :
  (0 <= z)%Z ->
  exists d, d <> Decimal.Nil /\
            Js.Z_to_string z = NilEmpty.string_of_uint d /\
            MoreProps.uint_value d 0 = z.
Proof.
  intro Hz. unfold Js.Z_to_string. destruct z as [| p | p]; [| | lia].
  - exists (Decimal.D0 Decimal.Nil). repeat split. discriminate.
  - exists (Pos.to_uint p).
    pose proof (DecimalPos.Unsigned.to_uint_nonnil p) as N.
    repeat split.
    + exact N.
    + simpl. destruct (Pos.to_uint p); [contradiction | reflexivity ..].
    + rewrite uint_value_zero, DecimalPos.Unsigned.of_to. reflexivity.
Qed.

Lemma take_digits_numeral (d : Decimal.uint) (rest : string)
    (acc : Z) (n : nat) :
  Js.take_digits 10 (NilEmpty.string_of_uint d ++ rest) acc n
  = Js.take_digits 10 rest (MoreProps.uint_value d acc)
      (Decimal.nb_digits d + n).
Proof.
  revert acc n. induction d; intros acc n;
    try reflexivity;
    cbn [NilEmpty.string_of_uint append Js.take_digits
         MoreProps.uint_value Decimal.nb_digits];
    match goal with
    | |- context [Js.digit_of 10 ?c] =>
        match eval vm_compute in (Js.digit_of 10 c) with
        | ?v => change (Js.digit_of 10 c) with v
        end
    end; cbv iota; rewrite IHd; f_equal; lia.
Qed.

Lemma span_digits_numeral (d : Decimal.uint) (rest : string) :
  ParseDuration.span Js.is_digit rest = (""%string, rest) ->
  ParseDuration.span Js.is_digit (NilEmpty.string_of_uint d ++ rest)
  = (NilEmpty.string_of_uint d, rest).
Proof.
  intro H. induction d;
    cbn [NilEmpty.string_of_uint append ParseDuration.span];
    try exact H;
    match goal with
    | |- context [Js.is_digit ?c] =>
        match eval vm_compute in (Js.is_digit c) with
        | ?v => change (Js.is_digit c) with v
        end
    end; cbv iota; now rewrite IHd.
Qed.

Lemma numeral_nonempty (d : Decimal.uint) :
  d <> Decimal.Nil ->
  exists c r, NilEmpty.string_of_uint d = String c r /\
              Js.is_digit c = true.
Proof.
  destruct d; [contradiction | ..]; intros _; simpl; eauto.
Qed.

(** [parseInt] reads a numeral back. *)
Lemma parseInt_numeral (d : Decimal.uint) :
  d <> Decimal.Nil ->
  Js.parseInt (NilEmpty.string_of_uint d)
  = Js.of_Z (MoreProps.uint_value d 0).
Proof.
  intro N.
  assert (E : Js.parseInt (NilEmpty.string_of_uint d)
              = match Js.take_digits 10 (NilEmpty.string_of_uint d) 0 0 with
                | (v, S _, _) => Js.of_Z v
                | _ => Js.NaN
                end).
  { destruct d as [| d' | | | | | | | | |];
      [contradiction | | reflexivity ..].
    destruct d'; reflexivity. }
  rewrite E.
  rewrite <- (append_empty_r (NilEmpty.string_of_uint d)).
  rewrite take_digits_numeral. cbn [Js.take_digits].
  destruct d; [contradiction | reflexivity ..].
Qed.

Lemma parseInt_Z_to_string (z : Z) :
  (0 <= z)%Z -> Js.parseInt (Js.Z_to_string z) = Js.of_Z z.
Proof.
  intro Hz. destruct (Z_to_string_numeral Hz) as (d & N & -> & V).
  rewrite parseInt_numeral by exact N. now rewrite V.
Qed.

(** The pattern of [parseDuration] finds both numerals of a duration
    rendered as hours and minutes. *)
Lemma regex_match_rendered (h m : Z) :
  (0 <= h)%Z -> (0 <= m)%Z ->
  ParseDuration.regex_match
    (Js.Z_to_string h ++ "h " ++ Js.Z_to_string m ++ "m")
  = Some (Js.Z_to_string h, Js.Z_to_string m).
Proof.
  intros Hh Hm.
  destruct (Z_to_string_numeral Hh) as (dh & Nh & -> & _).
  destruct (Z_to_string_numeral Hm) as (dm & Nm & -> & _).
  assert (M : ParseDuration.match_here
                (NilEmpty.string_of_uint dh ++ "h " ++
                 NilEmpty.string_of_uint dm ++ "m")
              = Some (NilEmpty.string_of_uint dh,
                      NilEmpty.string_of_uint dm)).
  { unfold ParseDuration.match_here.
    rewrite span_digits_numeral by reflexivity.
    destruct (numeral_nonempty Nh) as (c1 & g1 & -> & _).
    cbn [append].
    assert (ParseDuration.span Js.is_space
              (String " " (NilEmpty.string_of_uint dm ++ "m"))
            = (" "%string, (NilEmpty.string_of_uint dm ++ "m")%string))
      as ->.
    { destruct dm; [contradiction | reflexivity ..]. }
    rewrite span_digits_numeral by reflexivity.
    destruct (numeral_nonempty Nm) as (c2 & g2 & -> & _).
    reflexivity. }
  destruct (numeral_nonempty Nh) as (c1 & g1 & E & _).
  rewrite E in M |- *. cbn [append] in M |- *.
  cbn [ParseDuration.regex_match]. now rewrite M.
Qed.

(** [parseDuration] reads a rendered duration back. *)
Lemma parseDuration_rendered (h m : Z) :
  (0 <= h)%Z -> (0 <= m)%Z ->
  ParseDuration.parseDuration
    (Js.Z_to_string h ++ "h " ++ Js.Z_to_string m ++ "m")
  = Js.of_Z (h * 60 + m).
Proof.
  intros Hh Hm. unfold ParseDuration.parseDuration.
  rewrite regex_match_rendered by assumption.
  assert (Js.str_truthy (Js.Z_to_string m) = true) as ->.
  { destruct (Z_to_string_numeral Hm) as (dm & Nm & -> & _).
    destruct (numeral_nonempty Nm) as (c & r & -> & _). reflexivity. }
  rewrite !parseInt_Z_to_string by assumption.
  now rewrite mul_of_Z, add_of_Z.
Qed.

(** The minutes of a clock reading. *)
Lemma clock_minutes_reading (t : string) (h m : Z) :
  MoreProps.clock_reading t h m ->
  FlightApi.clock_minutes t = Js.of_Z (h * 60 + m).
Proof.
  intros (Hh & Hm & _). unfold FlightApi.clock_minutes. cbv zeta.
  now rewrite Hh, Hm, mul_of_Z, add_of_Z.
Qed.

(** The duration back-filled from two clock readings. *)
Lemma computed_duration_rendered (departureTime arrivalTime : string)
    (dep arr : Z) :
  FlightApi.clock_minutes departureTime = Js.of_Z dep ->
  FlightApi.clock_minutes arrivalTime = Js.of_Z arr ->
  (0 <= MoreProps.minutes_between dep arr < 10 ^ 21)%Z ->
  FlightApi.computed_duration departureTime arrivalTime
  = (Js.Z_to_string (MoreProps.minutes_between dep arr / 60) ++ "h " ++
     Js.Z_to_string (MoreProps.minutes_between dep arr mod 60) ++ "m")
    %string.
Proof.
  intros Hd Ha [Ht Ht']. unfold FlightApi.computed_duration.
  rewrite Hd, Ha. cbv zeta. rewrite sub_of_Z.
  change Js.zero with (Js.of_Z 0). rewrite ltb_of_Z.
  assert (E : (if (arr - dep <? 0)%Z
               then Js.add (Js.of_Z (arr - dep)) (Js.of_Z (24 * 60))
               else Js.of_Z (arr - dep))
              = Js.of_Z (MoreProps.minutes_between dep arr)).
  { unfold MoreProps.minutes_between.
    destruct (arr - dep <? 0)%Z; [apply add_of_Z | reflexivity]. }
  rewrite E, floor_div_60, rem_60 by exact Ht.
  assert (B : (10 ^ 21 = 1000000000000000000000)%Z) by reflexivity.
  pose proof (Z.mod_pos_bound (MoreProps.minutes_between dep arr) 60
                ltac:(lia)) as M.
  pose proof (Z.div_mod (MoreProps.minutes_between dep arr) 60
                ltac:(lia)) as D.
  assert (0 <= MoreProps.minutes_between dep arr / 60)%Z
    by (apply Z.div_pos; lia).
  rewrite !to_string_of_Z; [reflexivity | lia | lia].
Qed.

(** X15.  When the departure and the arrival time read as clock times
    [h]:[m] of whole numbers of at most [10 ^ 12] in size, and the arrival
    is not more than a day before the departure, the duration text the
    normalizer back-fills is read by [parseDuration] as the number of
    minutes from the departure to the arrival, an arrival before the
    departure being taken on the next day. *)
Theorem parseDuration_of_computed_duration
    (departureTime arrivalTime : string) (dh dm ah am : Z) :
  MoreProps.clock_reading departureTime dh dm ->
  MoreProps.clock_reading arrivalTime ah am ->
  (0 <= MoreProps.minutes_between (dh * 60 + dm) (ah * 60 + am))%Z ->
  ParseDuration.parseDuration
    (FlightApi.computed_duration departureTime arrivalTime)
  = Js.of_Z (MoreProps.minutes_between (dh * 60 + dm) (ah * 60 + am)).
Proof.
  intros Rd Ra Ht.
  pose proof (clock_minutes_reading Rd) as Hd.
  pose proof (clock_minutes_reading Ra) as Ha.
  destruct Rd as (_ & _ & Bdh & Bdm). destruct Ra as (_ & _ & Bah & Bam).
  assert (B12 : (10 ^ 12 = 1000000000000)%Z) by reflexivity.
  assert (B21 : (10 ^ 21 = 1000000000000000000000)%Z) by reflexivity.
  assert (Hlt : (MoreProps.minutes_between (dh * 60 + dm) (ah * 60 + am)
                 < 10 ^ 21)%Z).
  { unfold MoreProps.minutes_between.
    destruct (ah * 60 + am - (dh * 60 + dm) <? 0)%Z; lia. }
  rewrite (computed_duration_rendered _ _ Hd Ha (conj Ht Hlt)).
  rewrite parseDuration_rendered.
  - f_equal.
    pose proof (Z.div_mod
                  (MoreProps.minutes_between (dh * 60 + dm) (ah * 60 + am))
                  60).
    lia.
  - apply Z.div_pos; lia.
  - apply Z.mod_pos_bound. lia.
Qed.

(** A use of the theorem: a flight leaving at 22:00 and landing at
    02:00. *)
Lemma parseDuration_of_computed_duration_witness :
  ParseDuration.parseDuration (FlightApi.computed_duration "22:00" "02:00")
  = Js.of_Z 240.
Proof.
  apply (@parseDuration_of_computed_duration "22:00" "02:00" 22 0 2 0).
  - repeat split; vm_compute; discriminate.
  - repeat split; vm_compute; discriminate.
  - vm_compute. discriminate.
Defined.

(** Beyond those sizes the text is not read back: an hour count of
    [10 ^ 21] is printed in exponent notation, of which [parseDuration]
    reads the exponent. *)
Example computed_duration_exponent :
  FlightApi.computed_duration "0:00" "1e21:00" = "1e+21h 0m" /\
  ParseDuration.parseDuration "1e+21h 0m" = Js.of_Z 1260.
Proof. split; vm_compute; reflexivity. Qed.

(* ================================================================== *)
(** * Further properties: error messages                                *)
(* ================================================================== *)

(** Splits on the conditions of a cascade of [if]s, outermost first. *)
Ltac cascade :=
  repeat match goal with
         | |- context [if ?b then _ else _] =>
             lazymatch b with
             | context [if _ then _ else _] => fail
             | _ => destruct b eqn:?
             end
         end.

Lemma getHttpErrorMessage_not_network (status : Js.num)
    (statusText : option string) :
  HandleApiError.getHttpErrorMessage status statusText
  <> MoreProps.network_error_message.
Proof.
  unfold HandleApiError.getHttpErrorMessage,
    MoreProps.network_error_message.
  cascade; cbn [append]; discriminate.
Qed.

Lemma getHttpErrorMessage_not_empty (status : Js.num)
    (statusText : option string) :
  HandleApiError.getHttpErrorMessage status statusText <> ""%string.
Proof.
  unfold HandleApiError.getHttpErrorMessage.
  cascade; cbn [append]; discriminate.
Qed.

(** X16.  For an [Error], [handleApiError] answers with the network-error
    message exactly when the error's message contains "fetch" or
    "Network"; [isNetworkError] then holds of the same error. *)
Theorem handleApiError_network_message (message : string) :
  (HandleApiError.handleApiError (HandleApiError.IsError message)
   = MoreProps.network_error_message
   <-> Js.includes "fetch" message || Js.includes "Network" message = true)
  /\ (HandleApiError.handleApiError (HandleApiError.IsError message)
      = MoreProps.network_error_message ->
      HandleApiError.isNetworkError (HandleApiError.IsError message) = true).
Proof.
  assert (I : HandleApiError.handleApiError (HandleApiError.IsError message)
              = MoreProps.network_error_message
              <-> Js.includes "fetch" message
                  || Js.includes "Network" message = true).
  { unfold HandleApiError.handleApiError. cbv zeta.
    destruct (Js.includes "fetch" message || Js.includes "Network" message)
      eqn:N.
    - split; reflexivity.
    - split; [| discriminate]. intro H. exfalso. revert H.
      destruct (Js.includes "timeout" message
                || Js.includes "Timeout" message); [discriminate |].
      destruct (Js.includes "abort" message
                || Js.includes "Abort" message); [discriminate |].
      destruct (HandleApiError.status_match message);
        [apply getHttpErrorMessage_not_network |].
      cascade; try discriminate.
      intro H. rewrite H in N. vm_compute in N. discriminate. }
  split; [exact I |].
  intro H. apply I in H. unfold HandleApiError.isNetworkError.
  now rewrite H.
Qed.

(** X17.  [handleApiError] answers with the empty string for the empty
    string alone: every [Response], every [Error] and every other value
    gets a message that is not empty. *)
Theorem handleApiError_empty_iff (error : HandleApiError.Unknown) :
  HandleApiError.handleApiError error = ""%string
  <-> error = HandleApiError.IsString "".
Proof.
  split; [| intros ->; reflexivity].
  destruct error as [status statusText | message | s |]; simpl.
  - intro H. now apply getHttpErrorMessage_not_empty in H.
  - destruct (HandleApiError.status_match message).
    + cascade; try discriminate.
      intro H. now apply getHttpErrorMessage_not_empty in H.
    + cascade; try discriminate.
      intro H. subst message. discriminate.
  - destruct (String.length s <? 150)%nat; [| discriminate].
    now intros ->.
  - discriminate.
Qed.

(** The group the status pattern captures consists of three digits. *)
Lemma three_digits_here_digits (s g : string) :
  HandleApiError.three_digits_here s = Some g ->
  exists a b c, g = String a (String b (String c "")) /\
                Js.is_digit a = true /\ Js.is_digit b = true /\
                Js.is_digit c = true.
Proof.
  unfold HandleApiError.three_digits_here.
  destruct s as [| a [| b [| c r]]]; try discriminate.
  destruct (Js.is_digit a) eqn:A; [| discriminate].
  destruct (Js.is_digit b) eqn:B; [| discriminate].
  destruct (Js.is_digit c) eqn:C; [| discriminate].
  destruct (negb (HandleApiError.head_is_word r)); [| discriminate].
  intro H. exists a, b, c. cbn in H. split; [congruence | auto].
Qed.

Lemma status_match_from_digits (s g : string) (prev_word : bool) :
  HandleApiError.status_match_from prev_word s = Some g ->
  exists a b c, g = String a (String b (String c "")) /\
                Js.is_digit a = true /\ Js.is_digit b = true /\
                Js.is_digit c = true.
Proof.
  revert prev_word. induction s as [| c r IH]; intro prev_word;
    cbn [HandleApiError.status_match_from]; [discriminate |].
  destruct (if prev_word then None
            else HandleApiError.three_digits_here (String c r))
    as [h |] eqn:E.
  - intro H. assert (h = g) by congruence. subst h.
    destruct prev_word; [discriminate |].
    now apply three_digits_here_digits in E.
  - apply IH.
Qed.

Lemma is_digit_in_digits (c : ascii) :
  Js.is_digit c = true -> In c MoreProps.digits.
Proof.
  destruct c as [[] [] [] [] [] [] [] []]; vm_compute;
    try discriminate; intros _; tauto.
Qed.

(** The message for a status read out of three digits is short. *)
Lemma status_message_short (a b c : ascii) :
  Js.is_digit a = true -> Js.is_digit b = true -> Js.is_digit c = true ->
  (String.length
     (HandleApiError.getHttpErrorMessage
        (HandleApiError.parseInt_10 (String a (String b (String c ""))))
        None) <? 150)%nat = true.
Proof.
  intros A B C.
  apply is_digit_in_digits in A, B, C.
  assert (K : forallb (fun a => forallb (fun b => forallb (fun c =>
            (String.length
               (HandleApiError.getHttpErrorMessage
                  (HandleApiError.parseInt_10
                     (String a (String b (String c ""))))
                  None) <? 150)%nat)
            MoreProps.digits) MoreProps.digits) MoreProps.digits = true)
    by (vm_compute; reflexivity).
  rewrite forallb_forall in K. specialize (K a A).
  rewrite forallb_forall in K. specialize (K b B).
  rewrite forallb_forall in K. exact (K c C).
Qed.

(** X18.  For an [Error] and for a string, the message [handleApiError]
    answers with has fewer than 150 characters. *)
Theorem handleApiError_short (text : string) :
  (String.length
     (HandleApiError.handleApiError (HandleApiError.IsError text)) < 150)%nat
  /\ (String.length
        (HandleApiError.handleApiError (HandleApiError.IsString text))
      < 150)%nat.
Proof.
  split; apply Nat.ltb_lt; simpl.
  - destruct (HandleApiError.status_match text) as [g |] eqn:M.
    + apply status_match_from_digits in M.
      destruct M as (a & b & c & -> & A & B & C).
      cascade; try reflexivity.
      now apply status_message_short.
    + cascade; try reflexivity.
      match goal with
      | H : _ && (String.length text <? 150)%nat && _ = true |- _ =>
          apply andb_true_iff in H; destruct H as [H _];
          apply andb_true_iff in H; destruct H as [_ H]; exact H
      end.
  - destruct (String.length text <? 150)%nat eqn:L;
      [exact L | reflexivity].
Qed.

(* ================================================================== *)
(** * Further properties: the calls to the API                          *)
(* ================================================================== *)

Section SearchFlightsFacts.

Variable RAPID_API_KEY : string.
Variable W : Type.
Variable import_flights : W -> Js.Outcome (list FlightTypes.Flight) * W.
Variable search_request :
  SearchParams.FlightSearchParams -> W -> Js.Outcome ApiTypes.JsValue * W.
Variable as_raw : ApiTypes.JsValue -> ApiTypes.RawFlightData.
Variable clock : nat -> Z.

Let searchFlights :=
  FlightService.searchFlights RAPID_API_KEY import_flights search_request
    as_raw clock.

Let awaitFilteredMockFlights :=
  FlightService.awaitFilteredMockFlights import_flights.



End SearchFlightsFacts.




Lemma in_map_index {A B : Type} (f : A -> nat -> B) (l : list A)
    (start : nat) (y : B) :
  In y (FlightService.map_index f start l) ->
  exists x i, In x l /\ y = f x i.
Proof.
  revert start. induction l as [| x r IH]; intros start H; [contradiction |].
  destruct H as [H | H].
  - exists x, start. split; [now left | now symmetry].
  - destruct (IH _ H) as (x' & i & Hin & E).
    exists x', i. split; [now right | exact E].
Qed.

Lemma text_or_truthy (a b : string) :
  Js.str_truthy b = true -> Js.str_truthy (FlightService.text_or a b) = true.
Proof.
  intro H. unfold FlightService.text_or.
  destruct (Js.str_truthy a) eqn:E; assumption.
Qed.

Lemma text_or_left (a b : string) :
  Js.str_truthy a = true -> FlightService.text_or a b = a.
Proof. intro H. unfold FlightService.text_or. now rewrite H. Qed.

Lemma toUpperCase_truthy (s : string) :
  Js.str_truthy s = true -> Js.str_truthy (JsText.toUpperCase s) = true.
Proof. destruct s; [discriminate | reflexivity]. Qed.

(** X21.  When the origin and the destination of a search are the display
    texts of two airports (city names free of "(", IATA codes of three
    letters), every flight [getFilteredMockFlights] returns leaves from
    the first code and lands at the second, both in capitals, and has an
    [id] that is not empty. *)
Theorem mock_flights_fly_route (mockFlights : list FlightTypes.Flight)
    (params : SearchParams.FlightSearchParams)
    (fallbackId : FlightService.FallbackId)
    (a b : FormatAirport.Airport) (ca cb : string) :
  Js.str_truthy (FormatAirport.city a) = true ->
  Js.str_truthy (FormatAirport.city b) = true ->
  MoreProps.no_open_paren (FormatAirport.city a) = true ->
  MoreProps.no_open_paren (FormatAirport.city b) = true ->
  FormatAirport.iata a = Some ca -> FormatAirport.iata b = Some cb ->
  JsText.is_code true ca = true -> JsText.is_code true cb = true ->
  SearchParams.from params = FormatAirport.formatAirportDisplay a ->
  SearchParams.to params = FormatAirport.formatAirportDisplay b ->
  forall flight,
    In flight
       (FlightService.getFilteredMockFlights mockFlights params fallbackId) ->
    FlightTypes.departureAirport flight = JsText.toUpperCase ca /\
    FlightTypes.arrivalAirport flight = JsText.toUpperCase cb /\
    Js.str_truthy (FlightTypes.id flight) = true.
Proof.
  intros Ha Hb Pa Pb Ia Ib Ca Cb Hfrom Hto flight Hin.
  unfold FlightService.getFilteredMockFlights in Hin.
  rewrite Hfrom, Hto in Hin.
  pose proof (formatAirportDisplay_with_code a Ha
                (or_introl (conj Ia Ca))) as Da.
  pose proof (formatAirportDisplay_with_code b Hb
                (or_introl (conj Ib Cb))) as Db.
  assert (Ta : Js.str_truthy (FormatAirport.formatAirportDisplay a) = true)
    by (rewrite Da; now apply append_truthy).
  assert (Tb : Js.str_truthy (FormatAirport.formatAirportDisplay b) = true)
    by (rewrite Db; now apply append_truthy).
  rewrite !text_or_left in Hin by assumption.
  rewrite (extractIATACode_formatAirportDisplay a Ha Pa
             (or_introl (conj Ia Ca))) in Hin.
  rewrite (extractIATACode_formatAirportDisplay b Hb Pb
             (or_introl (conj Ib Cb))) in Hin.
  rewrite !toUpperCase_truthy in Hin
    by (eapply is_code_truthy; eassumption).
  cbv zeta in Hin. cbn [andb] in Hin.
  apply in_map_index in Hin. destruct Hin as (g & i & Hg & ->).
  apply filter_In in Hg. destruct Hg as [_ Hg].
  apply andb_true_iff in Hg. destruct Hg as [Hd Har].
  apply String.eqb_eq in Hd, Har.
  cbn [FlightTypes.departureAirport FlightTypes.arrivalAirport
       FlightTypes.id].
  repeat split; try assumption.
  apply text_or_truthy. destruct fallbackId; reflexivity.
Qed.

(** A use of the theorem: a mock flight from New York to Los Angeles that
    has no [id] of its own. *)
Lemma mock_flights_fly_route_witness :
  let jfk :=
    FlightService.table_airport "JFK" "95565058"
      "John F. Kennedy International" "New York" "United States" in
  let lax :=
    FlightService.table_airport "LAX" "95565060"
      "Los Angeles International" "Los Angeles" "United States" in
  let params :=
    SearchParams.mkParams "New York (JFK)" "Los Angeles (LAX)" "2025-06-01"
      None "1" "economy" SearchParams.one_way
      None None None None None None None None None in
  let found :=
    FlightTypes.mkFlight "mock-flight-0" "Delta" "08:00" "11:30" "JFK" "LAX"
      "3h 30m" (Js.of_Z 0) (Js.of_Z 385) (Some false)
      None None None None None None None (Some "2025-06-01") None in
  FlightTypes.departureAirport found = "JFK" /\
  FlightTypes.arrivalAirport found = "LAX" /\
  Js.str_truthy (FlightTypes.id found) = true.
Proof.
  intros jfk lax params found.
  apply (@mock_flights_fly_route
           [Props.sample_flight "" "Delta" 0 385 false] params
           FlightService.id_mock jfk lax "JFK" "LAX");
    try reflexivity.
  left. reflexivity.
Defined.

Lemma map_outcome_length {A B : Type} (f : A -> Js.Outcome B)
    (l : list A) (ys : list B) :
  FlightService.map_outcome f l = Js.Returned ys ->
  List.length ys = List.length l.
Proof.
  revert ys. induction l as [| x r IH]; intros ys; simpl.
  - intro H. injection H as <-. reflexivity.
  - destruct (f x) as [y | e]; [| discriminate].
    destruct (FlightService.map_outcome f r) as [zs | e]; [| discriminate].
    intro H. injection H as <-. simpl. now rewrite (IH zs eq_refl).
Qed.

Section SearchAirportFacts.

Variable RAPID_API_KEY : string.
Variable W : Type.
Variable airport_request : string -> W -> Js.Outcome ApiTypes.JsValue * W.
Variable convertSkyScrapperAirport :
  ApiTypes.JsValue -> Js.Outcome FormatAirport.Airport.
Variable type_error : Js.Thrown.

Let searchAirport :=
  FlightService.searchAirport RAPID_API_KEY airport_request
    convertSkyScrapperAirport type_error.

(** What the API callback returns is not empty. *)
Lemma searchAirport_apiCall_returned (query : string) (w w1 : W)
    (airports : list FormatAirport.Airport) :
  FlightService.searchAirport_apiCall airport_request
    convertSkyScrapperAirport type_error query w
  = (Js.Returned airports, w1) ->
  airports <> [].
Proof.
  unfold FlightService.searchAirport_apiCall.
  destruct (airport_request (Js.trim query) w) as [[response | e] w2];
    [| discriminate].
  destruct (FlightService.member "data" response) as [data |];
    [| discriminate].
  destruct data as [| | b | n | s | [| item items] | props];
    try discriminate.
  intro H. injection H as H _.
  apply (map_outcome_length convertSkyScrapperAirport (item :: items)) in H.
  intros ->. discriminate.
Qed.

(** With a query that is not blank, the answer is what the API callback
    returned, or the mock airports of the query. *)
Lemma searchAirport_answer (query : string) (w : W) :
  Js.trim query <> ""%string ->
  (exists airports,
     airports <> [] /\ fst (searchAirport query w) = Js.Returned airports)
  \/ fst (searchAirport query w)
     = Js.Returned (FlightService.getMockAirportsFiltered query).
Proof.
  intro Hq. unfold searchAirport, FlightService.searchAirport.
  assert (negb (Js.str_truthy query)
          || (String.length (Js.trim query) =? 0)%nat = false) as ->.
  { apply orb_false_iff. split.
    - destruct query; [now elim Hq | reflexivity].
    - destruct (Js.trim query); [now elim Hq | reflexivity]. }
  unfold MockFallback.withMockFallback.
  destruct (negb (Js.str_truthy RAPID_API_KEY)); [now right |].
  destruct (FlightService.searchAirport_apiCall airport_request
              convertSkyScrapperAirport type_error query w)
    as [[airports | e] w1] eqn:E.
  - left. exists airports. split; [| reflexivity].
    now apply searchAirport_apiCall_returned in E.
  - right. now destruct (Js.instanceof_Error e && _).
Qed.

End SearchAirportFacts.

(** X22.  [searchAirport] never rejects, whatever the network and the
    conversion of the items do.  For a blank query it answers the empty
    list and sends no request; for any other query it answers, without a
    key, the mock airports of the query, and sends no request either. *)
Theorem searchAirport_never_rejects (RAPID_API_KEY : string) (W : Type)
    (airport_request : string -> W -> Js.Outcome ApiTypes.JsValue * W)
    (convertSkyScrapperAirport :
       ApiTypes.JsValue -> Js.Outcome FormatAirport.Airport)
    (type_error : Js.Thrown) (query : string) (w : W) :
  let r :=
    FlightService.searchAirport RAPID_API_KEY airport_request
      convertSkyScrapperAirport type_error query w in
  (exists airports, fst r = Js.Returned airports)
  /\ (Js.trim query = ""%string -> r = (Js.Returned [], w))
  /\ (Js.trim query <> ""%string -> Js.str_truthy RAPID_API_KEY = false ->
      r = (Js.Returned (FlightService.getMockAirportsFiltered query), w)).
Proof.
  intro r. subst r. repeat split.
  - destruct (string_dec (Js.trim query) "") as [B | B].
    + unfold FlightService.searchAirport. rewrite B.
      rewrite orb_true_r. now exists [].
    + destruct (searchAirport_answer RAPID_API_KEY airport_request
                  convertSkyScrapperAirport type_error query w B)
        as [(airports & _ & E) | E]; eauto.
  - intro B. unfold FlightService.searchAirport. rewrite B.
    now rewrite orb_true_r.
  - intros B K. unfold FlightService.searchAirport.
    assert (negb (Js.str_truthy query)
            || (String.length (Js.trim query) =? 0)%nat = false) as ->.
    { apply orb_false_iff. split.
      - destruct query; [now elim B | reflexivity].
      - destruct (Js.trim query); [now elim B | reflexivity]. }
    unfold MockFallback.withMockFallback. now rewrite K.
Qed.

(** X23.  [testApiConnectivity] reports success in every case: with or
    without a key, whatever the network answers and whatever the
    conversion of the items does. *)
Theorem testApiConnectivity_always_succeeds (RAPID_API_KEY : string)
    (W : Type)
    (airport_request : string -> W -> Js.Outcome ApiTypes.JsValue * W)
    (convertSkyScrapperAirport :
       ApiTypes.JsValue -> Js.Outcome FormatAirport.Airport)
    (type_error : Js.Thrown) (timestamp : Z) (w : W) :
  FlightService.success
    (fst (FlightService.testApiConnectivity RAPID_API_KEY airport_request
            convertSkyScrapperAirport type_error timestamp w))
  = true.
Proof.
  unfold FlightService.testApiConnectivity.
  assert (B : Js.trim "JFK" <> ""%string) by (vm_compute; discriminate).
  destruct (searchAirport_answer RAPID_API_KEY airport_request
              convertSkyScrapperAirport type_error "JFK" w B)
    as [(airports & N & E) | E];
    destruct (FlightService.searchAirport RAPID_API_KEY airport_request
                convertSkyScrapperAirport type_error "JFK" w)
      as [o w1]; cbn [fst] in E; subst o.
  - destruct airports; [now elim N | reflexivity].
  - reflexivity.
Qed.

(** X24.  Without a key, [searchAirport] applied to the display text of
    an airport of the mock table answers a list that contains that
    airport. *)
Theorem searchAirport_finds_displayed (RAPID_API_KEY : string) (W : Type)
    (airport_request : string -> W -> Js.Outcome ApiTypes.JsValue * W)
    (convertSkyScrapperAirport :
       ApiTypes.JsValue -> Js.Outcome FormatAirport.Airport)
    (type_error : Js.Thrown) (airport : FormatAirport.Airport) (w : W) :
  Js.str_truthy RAPID_API_KEY = false ->
  In airport FlightService.mockAirports ->
  exists airports,
    fst (FlightService.searchAirport RAPID_API_KEY airport_request
           convertSkyScrapperAirport type_error
           (FormatAirport.formatAirportDisplay airport) w)
    = Js.Returned airports
    /\ In airport airports.
Proof.
  intros K Hin.
  exists (FlightService.getMockAirportsFiltered
            (FormatAirport.formatAirportDisplay airport)).
  split.
  - unfold FlightService.searchAirport, MockFallback.withMockFallback.
    rewrite K. cbn [negb].
    repeat (destruct Hin as [<- | Hin]; [reflexivity |]).
    destruct Hin.
  - repeat (destruct Hin as [<- | Hin]; [vm_compute; tauto |]).
    destruct Hin.
Qed.

(** A use of the theorem: Singapore Changi. *)
Lemma searchAirport_finds_displayed_witness :
  let sin :=
    FlightService.table_airport "SIN" "95565064" "Singapore Changi"
      "Singapore" "Singapore" in
  exists airports,
    fst (FlightService.searchAirport ""
           (fun (_ : string) (w : nat) =>
              (Js.Returned ApiTypes.JNull, S w))
           (fun _ => Js.Threw (FlightService.new_Error "no conversion"))
           (FlightService.new_Error "TypeError") "Singapore (SIN)" 0%nat)
    = Js.Returned airports
    /\ In sin airports.
Proof.
  intro sin.
  apply (@searchAirport_finds_displayed "" nat
           (fun (_ : string) (w : nat) => (Js.Returned ApiTypes.JNull, S w))
           (fun _ => Js.Threw (FlightService.new_Error "no conversion"))
           (FlightService.new_Error "TypeError") sin 0%nat).
  - reflexivity.
  - vm_compute. tauto.
Defined.

Lemma getMockNearbyAirports_not_empty (lat lng : Js.num) :
  FlightService.getMockNearbyAirports lat lng <> [].
Proof.
  unfold FlightService.getMockNearbyAirports.
  cascade; vm_compute; discriminate.
Qed.

(** X25.  [getNearByAirports] rejects, without sending a request, exactly
    when a coordinate fails a range test; [NaN] fails none.  In every
    other case it answers a list of airports that is not empty, whatever
    the network and the conversion of the items do. *)
Theorem getNearByAirports_outcome (RAPID_API_KEY : string) (W : Type)
    (nearby_request :
       Js.num -> Js.num -> W -> Js.Outcome ApiTypes.JsValue * W)
    (convertSkyScrapperAirport :
       ApiTypes.JsValue -> Js.Outcome FormatAirport.Airport)
    (type_error : Js.Thrown) (lat lng : Js.num) (w : W) :
  let r :=
    FlightService.getNearByAirports RAPID_API_KEY nearby_request
      convertSkyScrapperAirport type_error lat lng w in
  (if MoreProps.out_of_range lat lng
   then MoreProps.is_threw (fst r) = true /\ snd r = w
   else exists airports, fst r = Js.Returned airports /\ airports <> [])
  /\ MoreProps.out_of_range Js.NaN Js.NaN = false.
Proof.
  intro r. subst r. split; [| reflexivity].
  unfold MoreProps.out_of_range, FlightService.getNearByAirports.
  destruct (Js.ltb lat (Js.of_Z (-90)) || Js.gtb lat (Js.of_Z 90));
    cbn [orb]; [split; reflexivity |].
  destruct (Js.ltb lng (Js.of_Z (-180)) || Js.gtb lng (Js.of_Z 180));
    [split; reflexivity |].
  unfold MockFallback.withMockFallback.
  pose proof (getMockNearbyAirports_not_empty lat lng) as M.
  destruct (negb (Js.str_truthy RAPID_API_KEY)); [cbn [fst]; eauto |].
  destruct (FlightService.getNearByAirports_apiCall nearby_request
              convertSkyScrapperAirport type_error lat lng w)
    as [[airports | e] w1] eqn:E.
  - exists airports. split; [reflexivity |].
    unfold FlightService.getNearByAirports_apiCall in E.
    destruct (nearby_request lat lng w) as [[response | e] w2];
      [| discriminate].
    destruct (FlightService.airports_of_response
                convertSkyScrapperAirport type_error response)
      as [[| a l] | e]; try discriminate.
    injection E as <- _. discriminate.
  - destruct (Js.instanceof_Error e && _); cbn [fst]; eauto.
Qed.

Section PollingFacts.

Variable RAPID_API_KEY : string.
Variable W : Type.
Variable health_request : W -> Js.Outcome ApiTypes.JsValue * W.

Let interval_ticks :=
  AppStatusContext.interval_ticks RAPID_API_KEY health_request.

(** A health that is offline because of a rate limit is never replaced. *)
Lemma interval_ticks_paused (nows : list Z)
    (state : FlightService.HealthStatus * W) :
  AppStatusContext.rate_limited (fst state) = true ->
  interval_ticks nows state = state.
Proof.
  unfold interval_ticks. intro H.
  induction nows as [| now later IH]; [reflexivity |].
  cbn [AppStatusContext.interval_ticks].
  unfold AppStatusContext.interval_tick at 1.
  destruct state as [h w]. cbn [fst] in H. rewrite H. exact IH.
Qed.

(** Without a key the ticks keep asking [checkServer], which sends
    nothing. *)
Lemma interval_ticks_no_key (nows : list Z)
    (state : FlightService.HealthStatus * W) :
  Js.str_truthy RAPID_API_KEY = false ->
  snd (interval_ticks nows state) = snd state.
Proof.
  unfold interval_ticks. intro K. revert state.
  induction nows as [| now later IH]; intro state; [reflexivity |].
  cbn [AppStatusContext.interval_ticks]. rewrite IH.
  unfold AppStatusContext.interval_tick, AppStatusContext.refreshHealth,
    FlightService.checkServer.
  destruct state as [h w]. rewrite K. cbn [negb snd].
  now destruct (AppStatusContext.rate_limited h).
Qed.

End PollingFacts.

(** X26.  Once [checkServer] has answered that the server is offline, the
    30 minute interval of the provider sends no further request: with a
    key the health is the rate-limit one and every firing leaves it as it
    is, and without a key [checkServer] answers without a request. *)
Theorem polling_pauses_when_offline (RAPID_API_KEY : string) (W : Type)
    (health_request : W -> Js.Outcome ApiTypes.JsValue * W)
    (timestamp : Z) (w : W) (nows : list Z) :
  let checked :=
    FlightService.checkServer RAPID_API_KEY health_request timestamp w in
  FlightService.isOnline (fst checked) = false ->
  snd (AppStatusContext.interval_ticks RAPID_API_KEY health_request nows
         checked)
  = snd checked
  /\ (Js.str_truthy RAPID_API_KEY = true ->
      AppStatusContext.interval_ticks RAPID_API_KEY health_request nows
        checked
      = checked).
Proof.
  intros checked H.
  destruct (Js.str_truthy RAPID_API_KEY) eqn:K.
  - assert (P : AppStatusContext.interval_ticks RAPID_API_KEY
                  health_request nows checked = checked).
    { apply interval_ticks_paused. subst checked.
      unfold FlightService.checkServer in *. rewrite K in *.
      cbn [negb] in *.
      destruct (health_request w) as [[response | e] w1];
        [discriminate H |].
      destruct (FlightService.isRateLimit e);
        [reflexivity | discriminate H]. }
    rewrite P. auto.
  - split; [| discriminate].
    now apply interval_ticks_no_key.
Qed.

(** A use of the theorem: a request answered by HTTP 429, then two
    firings of the interval. *)
Lemma polling_pauses_when_offline_witness :
  let rate_limit :=
    Js.mkThrown Js.PlainError "Error" "API request failed: 429 "
      (Js.StatusNum (Js.of_Z 429)) in
  let health_request :=
    fun w : nat =>
      (@Js.Threw ApiTypes.JsValue rate_limit, S w) in
  let checked := FlightService.checkServer "key" health_request 1000 0%nat in
  snd (AppStatusContext.interval_ticks "key" health_request
         [1801000; 3601000]%Z checked)
  = 1%nat
  /\ (Js.str_truthy "key" = true ->
      AppStatusContext.interval_ticks "key" health_request
        [1801000; 3601000]%Z checked
      = checked).
Proof.
  intros rate_limit health_request checked.
  apply (@polling_pauses_when_offline "key" nat health_request 1000 0%nat
           [1801000; 3601000]%Z).
  reflexivity.
Defined.

Lemma checkApiHealth_keeps_not_offline (RAPID_API_KEY : string)
    (skipCache : bool) (timestamp now : Z) (net : ApiStatus.FetchOutcome)
    (st : ApiStatus.State) :
  MoreProps.slot_not_offline st = true ->
  MoreProps.slot_not_offline
    (snd (ApiStatus.checkApiHealth RAPID_API_KEY skipCache timestamp now
            net st))
  = true.
Proof.
  intro H. unfold ApiStatus.checkApiHealth.
  destruct (ApiStatus.cache_hit skipCache now st); [exact H |].
  destruct (negb (Js.str_truthy RAPID_API_KEY)
            || String.eqb (Js.trim RAPID_API_KEY) ""); [reflexivity |].
  destruct net as [http | e]; [| reflexivity].
  destruct (ApiStatus.response_ok http); [reflexivity |].
  destruct (http =? 429)%Z; [exact H | reflexivity].
Qed.

Lemma after_calls_not_offline (RAPID_API_KEY : string)
    (calls : list MoreProps.HealthCall) (st : ApiStatus.State) :
  MoreProps.slot_not_offline st = true ->
  MoreProps.slot_not_offline (MoreProps.after_calls RAPID_API_KEY calls st)
  = true.
Proof.
  revert st. induction calls as [| c later IH]; intros st H; [exact H |].
  cbn [MoreProps.after_calls]. apply IH.
  now apply checkApiHealth_keeps_not_offline.
Qed.

(** X27.  Starting from an empty slot, no sequence of calls of
    [checkApiHealth] leaves an offline result in the slot.  So the
    provider that asks [checkApiHealth()] shows the server as offline
    exactly when that very call sent a request that was answered by
    HTTP 429; a failing network, any other HTTP error and a missing key
    are all shown as online. *)
Theorem cached_provider_offline_iff (RAPID_API_KEY : string)
    (calls : list MoreProps.HealthCall) (fetches : nat)
    (timestamp now : Z) (net : ApiStatus.FetchOutcome) :
  let st :=
    MoreProps.after_calls RAPID_API_KEY calls
      (ApiStatus.mkState None fetches) in
  MoreProps.slot_not_offline st = true /\
  FlightService.isOnline
    (AppStatusContextCached.health
       (fst (AppStatusContextCached.refreshHealth RAPID_API_KEY timestamp
               now net st)))
  = negb (MoreProps.answered_429 RAPID_API_KEY now net st).
Proof.
  intro st.
  assert (I : MoreProps.slot_not_offline st = true)
    by (apply after_calls_not_offline; reflexivity).
  split; [exact I |].
  unfold AppStatusContextCached.refreshHealth, ApiStatus.checkApiHealth,
    MoreProps.answered_429, ApiStatus.isApiKeyConfigured.
  destruct (ApiStatus.cache_hit false now st) as [c |] eqn:C.
  - cbn [fst AppStatusContextCached.health FlightService.isOnline].
    unfold ApiStatus.cache_hit in C. cbn [negb] in C.
    unfold MoreProps.slot_not_offline in I.
    destruct (ApiStatus.cachedHealthCheck st) as [c' |]; [| discriminate].
    destruct (ApiStatus.isCacheValid now c'); [| discriminate].
    injection C as ->.
    now destruct (ApiStatus.status c).
  - destruct (Js.str_truthy RAPID_API_KEY); cbn [negb orb andb];
      [| now destruct net].
    destruct (String.eqb (Js.trim RAPID_API_KEY) ""); cbn [negb];
      [now destruct net |].
    destruct net as [http | e]; [| reflexivity].
    destruct (ApiStatus.response_ok http) eqn:OK.
    + cbn [fst AppStatusContextCached.health FlightService.isOnline
           ApiStatus.status].
      unfold ApiStatus.response_ok in OK.
      apply andb_true_iff in OK. destruct OK as [_ OK].
      apply Z.leb_le in OK.
      assert ((http =? 429)%Z = false) as -> by (apply Z.eqb_neq; lia).
      reflexivity.
    + now destruct (http =? 429)%Z.
Qed.

(** X28.  [apiRequest] calls [fetch] at most three times.  Without a key
    it rejects with the [NoApiKeyError] and does not call [fetch].
    Whatever it rejects with is an [Error]. *)
Theorem apiRequest_bounds (RAPID_API_KEY : string) (W : Type)
    (fetch : W -> ApiRequest.Fetched * W) (random : nat -> Js.num)
    (to_text : ApiTypes.JsValue -> string) (type_error : Js.Thrown)
    (non_error : Js.Thrown -> HandleApiError.Unknown) (w : W) :
  let out :=
    ApiRequest.apiRequest RAPID_API_KEY fetch random to_text type_error
      non_error w in
  (ApiRetry.calls (snd out) <= 3)%nat
  /\ (Js.str_truthy RAPID_API_KEY = false ->
      out = (Js.Threw ApiRequest.no_api_key_error, ApiRetry.start w))
  /\ (forall e, fst out = Js.Threw e -> Js.instanceof_Error e = true).
Proof.
  intro out. subst out. unfold ApiRequest.apiRequest.
  destruct (Js.str_truthy RAPID_API_KEY); cbn [negb].
  - pose proof (@retry_loop_counts W ApiTypes.JsValue
                  (ApiRequest.requestFn fetch to_text type_error) random
                  2 ApiRetry.DEFAULT_baseDelay ApiRetry.DEFAULT_maxDelay
                  ApiRetry.DEFAULT_retryableStatusCodes 2 0%nat
                  ApiRetry.undefined_thrown (ApiRetry.start w) eq_refl)
      as (_ & B & _).
    assert (B' : (ApiRetry.calls
                    (snd (ApiRetry.apiRequestWithRetry
                            (ApiRequest.requestFn fetch to_text type_error)
                            random ApiRetry.empty_config w)) <= 3)%nat)
      by exact B.
    clear B. rename B' into B.
    destruct (ApiRetry.apiRequestWithRetry
                (ApiRequest.requestFn fetch to_text type_error) random
                ApiRetry.empty_config w) as [[data | error] r].
    + cbn [fst snd] in *. repeat split; [exact B | discriminate ..].
    + destruct (Js.instanceof_Error error && Js.has_status error) eqn:E;
        cbn [fst snd] in *; repeat split; try exact B; try discriminate.
      * intros e H. injection H as <-.
        now apply andb_true_iff in E.
      * intros e H. injection H as <-. reflexivity.
  - cbn [fst snd ApiRetry.start ApiRetry.calls]. repeat split.
    + lia.
    + intros e H. injection H as <-. reflexivity.
Qed.

Lemma geb_of_Z (a b : Z) : Js.geb (Js.of_Z a) (Js.of_Z b) = (b <=? a)%Z.
Proof.
  unfold Js.geb, Js.leb, Js.cmp, Js.of_Z. rewrite Qcompare_inject_Z.
  unfold Z.leb. now destruct (b ?= a)%Z.
Qed.

Lemma leb_of_Z (a b : Z) : Js.leb (Js.of_Z a) (Js.of_Z b) = (a <=? b)%Z.
Proof.
  unfold Js.leb, Js.cmp, Js.of_Z. rewrite Qcompare_inject_Z.
  unfold Z.leb. now destruct (a ?= b)%Z.
Qed.

Lemma eqb_of_Z (a b : Z) : Js.eqb (Js.of_Z a) (Js.of_Z b) = (a =? b)%Z.
Proof.
  unfold Js.eqb, Js.cmp, Js.of_Z. rewrite Qcompare_inject_Z.
  destruct (Z.compare_spec a b) as [E | E | E]; symmetry;
    [apply Z.eqb_eq; exact E | apply Z.eqb_neq; lia ..].
Qed.

(** X29.  When a key is configured and the first response has status 400
    to 403 or 429, with a body from which [message] can be read, then
    [apiRequest] rejects after that single call of [fetch], and the
    error it rejects with carries the status of the response. *)
Theorem apiRequest_client_error (RAPID_API_KEY : string) (W : Type)
    (fetch : W -> ApiRequest.Fetched * W) (random : nat -> Js.num)
    (to_text : ApiTypes.JsValue -> string) (type_error : Js.Thrown)
    (non_error : Js.Thrown -> HandleApiError.Unknown) (w w1 : W)
    (response : ApiRequest.Response) (message : ApiTypes.JsValue) :
  Js.str_truthy RAPID_API_KEY = true ->
  fetch w = (ApiRequest.Fulfilled response, w1) ->
  MoreProps.client_status (ApiRequest.http_status response) = true ->
  FlightService.member "message" (ApiRequest.errorData response)
  = Some message ->
  let out :=
    ApiRequest.apiRequest RAPID_API_KEY fetch random to_text type_error
      non_error w in
  (exists e,
     fst out = Js.Threw e /\
     Js.instanceof_Error e = true /\
     Js.err_status e
     = Js.StatusNum (Js.of_Z (ApiRequest.http_status response)))
  /\ ApiRetry.calls (snd out) = 1%nat
  /\ ApiRetry.world (snd out) = w1.
Proof.
  intros K F C M out.
  set (e0 :=
         Js.mkThrown Js.PlainError "Error"
           (if FlightService.value_truthy message
            then ApiRequest.message_text to_text message
            else ("API request failed: "
                  ++ Js.Z_to_string (ApiRequest.http_status response) ++ " "
                  ++ ApiRequest.statusText response)%string)
           (Js.StatusNum (Js.of_Z (ApiRequest.http_status response)))).
  assert (E : out = (Js.Threw e0, ApiRetry.mkRun w1 1 [])).
  { subst out. unfold ApiRequest.apiRequest. rewrite K. cbn [negb].
    unfold ApiRetry.apiRequestWithRetry.
    cbn [ApiRetry.empty_config ApiRetry.maxRetries ApiRetry.baseDelay
         ApiRetry.maxDelay ApiRetry.retryableStatusCodes
         ApiRetry.or_default].
    change (Z.to_nat (ApiRetry.DEFAULT_maxRetries + 1)) with 3%nat.
    rewrite retry_loop_step. cbn [ApiRetry.start ApiRetry.world].
    unfold ApiRequest.requestFn at 1. rewrite F.
    unfold MoreProps.client_status in C.
    assert (OK : ApiStatus.response_ok (ApiRequest.http_status response)
                 = false).
    { unfold ApiStatus.response_ok. apply andb_false_iff.
      rewrite !Z.leb_gt.
      apply orb_true_iff in C. destruct C as [C | C].
      - apply andb_true_iff in C. destruct C as [C _].
        apply Z.leb_le in C. right. lia.
      - apply Z.eqb_eq in C. right. lia. }
    rewrite OK, M. cbn [negb]. cbv zeta. fold e0.
    change (Z.of_nat 0 >=? ApiRetry.DEFAULT_maxRetries)%Z with false.
    cbv iota.
    assert (NR : ApiRetry.isRetryableError e0
                   ApiRetry.DEFAULT_retryableStatusCodes = false).
    { apply client_error_not_retryable; try reflexivity.
      unfold MoreProps.client_error_status. cbn [Js.err_status e0].
      now rewrite geb_of_Z, leb_of_Z, eqb_of_Z. }
    rewrite NR. reflexivity. }
  rewrite E. cbn [fst snd ApiRetry.calls ApiRetry.world].
  split; [| split; reflexivity].
  exists e0. repeat split.
Qed.

(** A use of the theorem: a response 403 with a message in its body. *)
Lemma apiRequest_client_error_witness :
  let response :=
    ApiRequest.mkResponse 403 "Forbidden"
      (Js.Returned
         (ApiTypes.JObject
            [("message"%string,
              ApiTypes.JString "You are not subscribed to this API.")])) in
  let fetch := fun w : nat => (ApiRequest.Fulfilled response, S w) in
  let out :=
    ApiRequest.apiRequest "key" fetch (fun _ => Js.zero)
      (fun _ => ""%string) (FlightService.new_Error "TypeError")
      (fun _ => HandleApiError.IsOther) 0%nat in
  (exists e,
     fst out = Js.Threw e /\
     Js.instanceof_Error e = true /\
     Js.err_status e = Js.StatusNum (Js.of_Z 403))
  /\ ApiRetry.calls (snd out) = 1%nat
  /\ ApiRetry.world (snd out) = 1%nat.
Proof.
  intros response fetch out.
  apply (@apiRequest_client_error "key" nat fetch (fun _ => Js.zero)
           (fun _ => ""%string) (FlightService.new_Error "TypeError")
           (fun _ => HandleApiError.IsOther) 0%nat 1%nat response
           (ApiTypes.JString "You are not subscribed to this API."));
    reflexivity.
Defined.

(* ================================================================== *)
(** * Further properties: the price calendar                            *)
(* ================================================================== *)

Lemma eqb_gtb_clash (p lo hi : Js.num) :
  Js.eqb p lo = true -> Js.eqb p hi = true -> Js.gtb hi lo = true -> False.
Proof. destruct p, lo, hi; intros H1 H2 H3; num_order. Qed.

Lemma eqb_positive (p m : Js.num) :
  Js.eqb p m = true -> Props.positive m = true -> Props.positive p = true.
Proof.
  unfold Props.positive. destruct p, m; intros H1 H2; num_order.
Qed.

Lemma eqb_leb_left (p m q : Js.num) :
  Js.eqb p m = true -> Js.leb m q = true -> Js.leb p q = true.
Proof. destruct p, m, q; intros H1 H2; num_order. Qed.

Lemma leb_antisym_eqb (a b : Js.num) :
  Js.leb a b = true -> Js.leb b a = true -> Js.eqb a b = true.
Proof. destruct a, b; intros H1 H2; num_order. Qed.

Lemma eqb_refl_not_nan (a : Js.num) :
  Js.is_nan a = false -> Js.eqb a a = true.
Proof. destruct a; intro H; num_order. Qed.

Section CalendarFacts.

Variables originSkyId destinationSkyId currency : string.
Variable prices : list PriceCalendar.DatedPrice.

Let data :=
  PriceCalendar.calendar_of_prices originSkyId destinationSkyId currency
    prices.
Let validPrices :=
  filter (fun p => Js.gtb (PriceCalendar.price p) Js.zero) prices.

(** With a positive price in the list, [minPrice] is the least positive
    price. *)
Lemma minPrice_least :
  validPrices <> [] ->
  Props.positive (PriceCalendar.minPrice data) = true /\
  Props.is_least (PriceCalendar.minPrice data)
    (map PriceCalendar.price validPrices).
Proof.
  intro N. unfold data, PriceCalendar.calendar_of_prices.
  cbn [PriceCalendar.minPrice]. fold validPrices.
  destruct validPrices as [| v rest] eqn:E; [now elim N |].
  cbn [List.length Nat.ltb Nat.leb].
  assert (P : forall p, In p (map PriceCalendar.price (v :: rest)) ->
                        Props.positive p = true).
  { intros p Hp. apply in_map_iff in Hp. destruct Hp as (d & <- & Hd).
    rewrite <- E in Hd. unfold validPrices in Hd.
    apply filter_In in Hd. exact (proj2 Hd). }
  assert (L : Props.is_least
                (Js.min_list (map PriceCalendar.price (v :: rest)))
                (map PriceCalendar.price (v :: rest))).
  { apply min_list_least; [discriminate |].
    intros p Hp. apply positive_not_nan. now apply P. }
  split; [apply P; exact (proj1 L) | exact L].
Qed.

(** A day is marked as cheapest exactly when its price is positive and no
    positive price of the list is below it. *)
Lemma isCheapest_iff (p : PriceCalendar.DatedPrice) :
  In p prices ->
  (Js.eqb (PriceCalendar.price p) (PriceCalendar.minPrice data)
   && Js.gtb (PriceCalendar.minPrice data) Js.zero = true
   <-> Props.positive (PriceCalendar.price p) = true /\
       forall q, In q prices ->
                 Props.positive (PriceCalendar.price q) = true ->
                 Js.leb (PriceCalendar.price p) (PriceCalendar.price q)
                 = true).
Proof.
  intro Hp.
  destruct validPrices as [| v rest] eqn:E.
  - assert (Z : forall q, In q prices ->
                          Props.positive (PriceCalendar.price q) = false).
    { intros q Hq.
      destruct (Props.positive (PriceCalendar.price q)) eqn:Pq;
        [| reflexivity].
      assert (In q validPrices)
        by (apply filter_In; split; assumption).
      rewrite E in H. destruct H. }
    split.
    + unfold data, PriceCalendar.calendar_of_prices.
      cbn [PriceCalendar.minPrice]. fold validPrices. rewrite E.
      cbn [List.length Nat.ltb Nat.leb].
      rewrite andb_true_iff. intros [_ H]. discriminate H.
    + intros [H _]. rewrite (Z p Hp) in H. discriminate.
  - assert (N : validPrices <> []) by (rewrite E; discriminate).
    destruct (minPrice_least N) as (Pm & Lin & Lall). clear E.
    split.
    + rewrite andb_true_iff. intros [He _]. split.
      * exact (eqb_positive _ _ He Pm).
      * intros q Hq Pq. apply (eqb_leb_left _ _ _ He).
        apply Lall. apply in_map. apply filter_In. split; assumption.
    + intros [Pp Hall]. apply andb_true_iff. split; [| exact Pm].
      apply leb_antisym_eqb.
      * apply in_map_iff in Lin. destruct Lin as (d & <- & Hd).
        apply filter_In in Hd. destruct Hd as [Hd Pd].
        now apply Hall.
      * apply Lall. apply in_map. apply filter_In. split; assumption.
Qed.

End CalendarFacts.

(** X30.  In the calendar [getPriceCalendar] builds from the prices of a
    response, a day is marked as cheapest exactly when its price is
    positive and no positive price of the list is below it; no day is
    marked both as cheapest and as most expensive; and when some price is
    positive, [cheapestDate] is the date of a day marked as cheapest. *)
Theorem price_calendar_marks (originSkyId destinationSkyId currency : string)
    (prices : list PriceCalendar.DatedPrice) :
  let data :=
    PriceCalendar.calendar_of_prices originSkyId destinationSkyId currency
      prices in
  (forall day, In day (PriceCalendar.calendar data) ->
     (PriceCalendar.isCheapest day = true
      <-> Props.positive (PriceCalendar.day_price day) = true /\
          forall q, In q prices ->
                    Props.positive (PriceCalendar.price q) = true ->
                    Js.leb (PriceCalendar.day_price day)
                           (PriceCalendar.price q) = true)
     /\ PriceCalendar.isCheapest day && PriceCalendar.isMostExpensive day
        = false)
  /\ ((exists q, In q prices /\
                 Props.positive (PriceCalendar.price q) = true) ->
      exists day, In day (PriceCalendar.calendar data) /\
                  PriceCalendar.isCheapest day = true /\
                  PriceCalendar.day_date day
                  = PriceCalendar.cheapestDate data).
Proof.
  intro data. split.
  - intros day Hday.
    unfold data, PriceCalendar.calendar_of_prices in Hday.
    cbn [PriceCalendar.calendar] in Hday.
    apply in_map_iff in Hday. destruct Hday as (p & <- & Hp).
    cbn [PriceCalendar.isCheapest PriceCalendar.isMostExpensive
         PriceCalendar.day_price].
    split.
    + exact (isCheapest_iff originSkyId destinationSkyId currency prices
               p Hp).
    + match goal with
      | |- ?a && ?b && (?c && ?d) = false =>
          destruct a eqn:A; destruct c eqn:C; destruct d eqn:D;
            try reflexivity; try (now rewrite ?andb_false_r)
      end.
      exfalso. exact (eqb_gtb_clash _ _ _ A C D).
  - intros (q & Hq & Pq).
    set (validPrices :=
           filter (fun p => Js.gtb (PriceCalendar.price p) Js.zero) prices).
    assert (N : validPrices <> []).
    { intro E. assert (In q validPrices)
        by (apply filter_In; split; assumption).
      rewrite E in H. destruct H. }
    destruct (minPrice_least originSkyId destinationSkyId currency prices N)
      as (Pm & Lin & Lall).
    fold data in Pm, Lin, Lall.
    assert (C : PriceCalendar.cheapestDate data
                = match find (fun p => Js.eqb (PriceCalendar.price p)
                                         (PriceCalendar.minPrice data))
                             validPrices with
                  | Some p => FlightService.text_or (PriceCalendar.date p) ""
                  | None => ""%string
                  end) by reflexivity.
    destruct (find (fun p => Js.eqb (PriceCalendar.price p)
                               (PriceCalendar.minPrice data)) validPrices)
      as [d |] eqn:F.
    + apply find_some in F. destruct F as [Hd Ed].
      apply filter_In in Hd. destruct Hd as [Hd _].
      exists (PriceCalendar.mkDay (PriceCalendar.date d)
                (PriceCalendar.price d)
                (Js.eqb (PriceCalendar.price d) (PriceCalendar.minPrice data)
                 && Js.gtb (PriceCalendar.minPrice data) Js.zero)
                (Js.eqb (PriceCalendar.price d) (PriceCalendar.maxPrice data)
                 && Js.gtb (PriceCalendar.maxPrice data)
                      (PriceCalendar.minPrice data))
                (Js.eqb (PriceCalendar.price d) Js.zero)).
      repeat split.
      * unfold data at 1, PriceCalendar.calendar_of_prices.
        cbn [PriceCalendar.calendar].
        apply in_map_iff. exists d. split; [reflexivity | exact Hd].
      * cbn [PriceCalendar.isCheapest]. unfold Props.positive in Pm.
        now rewrite Ed, Pm.
      * cbn [PriceCalendar.day_date].
        rewrite C. unfold FlightService.text_or.
        now destruct (PriceCalendar.date d).
    + exfalso.
      apply in_map_iff in Lin. destruct Lin as (d & Ed & Hd).
      pose proof (find_none _ _ F d Hd) as X. cbn beta in X.
      rewrite Ed in X.
      rewrite eqb_refl_not_nan in X; [discriminate |].
      now apply positive_not_nan.
Qed.
